(** * fetcher/file_io.py: version resolution and store consistency

    A shallow embedding of the functions of [src/fetcher/file_io.py] that
    read, resolve and prune the record stores of mitoFetch, and the
    properties of them stated in the design document.

    Conventions of the embedding:
    - a Python [str] is a [string]; the development covers ASCII text (the
      characters an accession, a file name or a store line is made of);
    - a Python exception is a constructor of [exn]; a function that may
      raise returns a [result];
    - the files named by the constants of [global_defaults] ([IDS_FILE],
      [REMOVED_IDS_FILE], [METADATA_FILE], [SEQS_DIR],
      [PROCESSED_IDS_DIR], [CURRENT_PROCESSED_IDS_FILE]) are arguments of
      the functions that read them, and the fields of the record [stores]
      for the function that prunes them; what a function leaves in a file
      is part of its result;
    - a pandas [DataFrame] is the list of its rows, each with its index
      label. *)

From Stdlib Require Import ZArith Ascii String List Bool Lia OrderedTypeEx.
From stdpp Require Import gmap strings list sets sorting.

Set Warnings "-clear-no-such-hyp".

Local Open Scope string_scope.
Local Open Scope Z_scope.

(** ** Exceptions and results *)

Inductive exn : Type :=
  | ValueError      (* bad unpacking, int() of a non-number *)
  | StopIteration   (* next() on an exhausted file *)
  | KeyError        (* a column missing from a DataFrame *)
  | OSError         (* listdir, getctime, open, remove *)
  | ParserError     (* the parser of pandas rejects the CSV text *)
  | AttributeError. (* a string method called on a missing cell, a float *)

Inductive result (A : Type) : Type :=
  | Ok (a : A)
  | Raise (e : exn).
Arguments Ok {A} a.
Arguments Raise {A} e.

(** Sequencing: an exception of the first statement skips the rest. The
    instance gives the notation [x ← r; k]. *)
#[global] Instance result_bind : MBind result := λ A B k r,
  match r with
  | Ok a => k a
  | Raise e => Raise e
  end.

(** [for x in l: acc = body(acc, x)], where the body may raise. *)
Fixpoint for_each {A S : Type} (body : S → A → result S) (l : list A) (acc : S)
  : result S :=
  match l with
  | [] => Ok acc
  | x :: l' => acc' ← body acc x; for_each body l' acc'
  end.

(** [[f(x) for x in l]], where [f] may raise. *)
Fixpoint map_result {A B : Type} (f : A → result B) (l : list A) : result (list B) :=
  match l with
  | [] => Ok []
  | x :: l' => y ← f x; ys ← map_result f l'; Ok (y :: ys)
  end.

(** ** The Python string operations the module uses *)

Module Py.

Definition code (c : ascii) : Z := Z.of_N (N_of_ascii c).

(** [Py_ISSPACE]: the whitespace [int()] skips in an ASCII string. *)
Definition is_c_space (c : ascii) : bool :=
  (code c =? 32) || ((9 <=? code c) && (code c <=? 13)).

(** [str.isspace] on an ASCII character, the whitespace of [str.strip()]:
    the C whitespace and the separators 0x1C-0x1F. *)
Definition is_space (c : ascii) : bool :=
  is_c_space c || ((28 <=? code c) && (code c <=? 31)).

Definition is_digit (c : ascii) : bool :=
  (48 <=? code c) && (code c <=? 57).

Definition digit_value (c : ascii) : Z := code c - 48.

(** [s.split(sep)] for a one-character separator: every occurrence
    splits, so the result has one part more than [s] has separators. *)
Fixpoint split (sep : ascii) (s : string) : list string :=
  match s with
  | EmptyString => [EmptyString]
  | String c s' =>
      if Ascii.eqb c sep then EmptyString :: split sep s'
      else match split sep s' with
           | p :: ps => String c p :: ps
           | [] => [String c EmptyString]
           end
  end.

Fixpoint lstrip_by (sp : ascii → bool) (s : string) : string :=
  match s with
  | String c s' => if sp c then lstrip_by sp s' else s
  | EmptyString => EmptyString
  end.

Fixpoint all_chars (p : ascii → bool) (s : string) : bool :=
  match s with
  | String c s' => p c && all_chars p s'
  | EmptyString => true
  end.

Fixpoint rstrip_by (sp : ascii → bool) (s : string) : string :=
  match s with
  | String c s' =>
      if all_chars sp s then EmptyString else String c (rstrip_by sp s')
  | EmptyString => EmptyString
  end.

(** [s.strip()] *)
Definition strip (s : string) : string :=
  rstrip_by is_space (lstrip_by is_space s).

(** The digit run of [long_from_string_base]: decimal digits with single
    underscores between them. [prev_us] tells that the previous character
    was an underscore, [acc] is the value read so far; the result is the
    value and the unread rest, or [None] on a doubled or trailing
    underscore. *)
Fixpoint digit_run (prev_us : bool) (acc : Z) (s : string) : option (Z * string) :=
  match s with
  | String c s' =>
      if is_digit c then digit_run false (10 * acc + digit_value c) s'
      else if Ascii.eqb c "_"
           then (if prev_us then None else digit_run true acc s')
           else (if prev_us then None else Some (acc, s))
  | EmptyString => if prev_us then None else Some (acc, s)
  end.

(** [int(s)] on a string, base 10 ([PyLong_FromString]): leading
    whitespace, an optional sign, a non-empty digit run that does not
    start with an underscore, trailing whitespace, end of string. *)
Definition parse_int (s : string) : option Z :=
  let s1 := lstrip_by is_c_space s in
  let '(sign, s2) :=
    match s1 with
    | String "+" r => (1, r)
    | String "-" r => (-1, r)
    | _ => (1, s1)
    end in
  match s2 with
  | String c _ =>
      if is_digit c then
        match digit_run false 0 s2 with
        | Some (v, rest) =>
            if all_chars is_c_space rest then Some (sign * v) else None
        | None => None
        end
      else None
  | EmptyString => None
  end.

(** [int(s)] raises [ValueError] where the text is no number. The limit
    on the number of digits that some interpreters put on the conversion
    ([sys.set_int_max_str_digits]) is left out. *)
Definition int (s : string) : result Z :=
  match parse_int s with
  | Some v => Ok v
  | None => Raise ValueError
  end.

(** [a, b = parts]: unpacking into two names. *)
Definition unpack2 {A : Type} (parts : list A) : result (A * A) :=
  match parts with
  | [a; b] => Ok (a, b)
  | _ => Raise ValueError
  end.

(** [list(dict.fromkeys(l))]: the first occurrence of every element, in
    order. [seen] holds the keys already in the dict. *)
Fixpoint fromkeys_from (seen : gset string) (l : list string) : list string :=
  match l with
  | [] => []
  | x :: l' =>
      if decide (x ∈ seen) then fromkeys_from seen l'
      else x :: fromkeys_from ({[x]} ∪ seen) l'
  end.

Definition fromkeys (l : list string) : list string := fromkeys_from ∅ l.

(** [s.lower()] on ASCII text. *)
Definition lower_char (c : ascii) : ascii :=
  if (65 <=? code c) && (code c <=? 90)
  then ascii_of_N (N_of_ascii c + 32) else c.

Fixpoint lower (s : string) : string :=
  match s with
  | String c s' => String (lower_char c) (lower s')
  | EmptyString => EmptyString
  end.

(** [s.endswith(suffix)] *)
Definition endswith (s suffix : string) : bool :=
  let n := String.length s in
  let k := String.length suffix in
  (k <=? n)%nat && String.eqb (substring (n - k) k s) suffix.

End Py.

(** ** Accessions *)

(** [split_accession]: the identifier and the integer version of an
    accession. Both failures of the [try] block (the unpacking of a split
    that has not two parts, [int] of the version) are [ValueError]s, which
    the handler raises again as [ValueError]. *)
Definition split_accession (accession : string) : result (string * Z) :=
  match
    ('(accession_id, version) ← Py.unpack2 (Py.split "." accession);
     v ← Py.int version;
     Ok (accession_id, v))
  with
  | Ok r => Ok r
  | Raise ValueError => Raise ValueError
  | Raise e => Raise e
  end.

(** ** DataFrames *)

(** A row: its [accession] cell and the cells of the other columns, in
    column order; [None] is a missing value (NaN). *)
Record row : Type := Row { accession : string; cells : list (option string) }.

(** A row of a DataFrame with its index label. *)
Record entry : Type := Entry { label : nat; data : row }.

(** [pd.DataFrame(rows)], [pd.read_csv], [concat(ignore_index=True)]: the
    rows are labelled 0, 1, 2, ... in order (the insertion index). *)
Definition DataFrame_of (rows : list row) : list entry :=
  imap (λ i r, Entry i r) rows.

(** A row once the helper columns [id] and [version] are added. *)
Record ventry : Type :=
  VEntry { v_label : nat; v_data : row; v_id : string; v_version : Z }.

Definition drop_id_version (e : ventry) : entry := Entry (v_label e) (v_data e).

(** A row appended to the debug file of dropped rows: the columns the
    frame had when it was dropped (after the first step it has [id] and
    [version] too) and the [reason] column. *)
Record dropped_row : Type :=
  Dropped { d_data : row; d_id_version : option (string * Z); d_reason : string }.

(** [entries.duplicated(subset="accession", keep="last")]: a row is marked
    when a later row has the same accession. *)
Fixpoint duplicated_last (entries : list entry) : list bool :=
  match entries with
  | [] => []
  | e :: rest =>
      bool_decide (accession (data e) ∈ (accession ∘ data) <$> rest)
        :: duplicated_last rest
  end.

(** [df[mask]] *)
Fixpoint mask_select {A : Type} (mask : list bool) (rows : list A) : list A :=
  match mask, rows with
  | b :: mask', r :: rows' =>
      if b then r :: mask_select mask' rows' else mask_select mask' rows'
  | _, _ => []
  end.

(** [save_dropped_rows]: nothing is written for an empty frame; otherwise
    the rows go to the debug file with the reason. The result is the
    list of rows appended. *)
Definition save_dropped_rows {A : Type} (to_dropped : A → string → dropped_row)
    (dropped_df : list A) (reason : string) : list dropped_row :=
  match dropped_df with
  | [] => []
  | _ => (λ r, to_dropped r reason) <$> dropped_df
  end.

(** The [id] and [version] columns:
    [entries['accession'].apply(lambda x: pd.Series(split_accession(x)))].
    A malformed accession raises. On a frame without rows [apply] yields
    an empty Series, and its assignment to the two columns raises
    [ValueError] (columns must be same length as key); the callers return
    before they would pass such a frame. *)
Definition add_id_version (entries : list entry) : result (list ventry) :=
  match entries with
  | [] => Raise ValueError
  | _ =>
      map_result
        (λ e, '(i, v) ← split_accession (accession (data e));
              Ok (VEntry (label e) (data e) i v))
        entries
  end.

(** The order of Python strings (by code point). *)
Definition str_le (a b : string) : Prop := String.leb a b = true.

#[global] Instance str_le_dec a b : Decision (str_le a b).
Proof. unfold str_le. apply _. Defined.

(** The keys of [groupby("id")]: the distinct identifiers, sorted. *)
Definition group_keys (entries : list ventry) : list string :=
  merge_sort str_le (remove_dups (v_id <$> entries)).

(** The rows of one group, in frame order. *)
Definition group (entries : list ventry) (k : string) : list ventry :=
  filter (λ e, v_id e = k) entries.

(** [idxmax] over the [version] column of a group: the label of the first
    row that holds the maximum. [best] is the first maximal row so far. *)
Fixpoint idxmax_from (best : ventry) (g : list ventry) : nat :=
  match g with
  | [] => v_label best
  | e :: g' =>
      if v_version best <? v_version e then idxmax_from e g'
      else idxmax_from best g'
  end.

Definition idxmax (g : list ventry) : option nat :=
  match g with
  | [] => None
  | e :: g' => Some (idxmax_from e g')
  end.

(** [entries.groupby("id")["version"].idxmax()], one label per key. *)
Definition groupby_idxmax (entries : list ventry) : list nat :=
  omap (λ k, idxmax (group entries k)) (group_keys entries).

(** [entries.loc[labels]]: for each label in turn, the rows that carry it. *)
Definition loc {A : Type} (lab : A → nat) (entries : list A) (labels : list nat)
  : list A :=
  labels ≫= (λ i, filter (λ e, lab e = i) entries).

(** ** Resolution *)

(** [duplicate_removal]. The first component is the returned frame or the
    exception; the second lists the rows that the call appended to the
    debug file, in order. *)
Definition duplicate_removal (entries : list entry)
  : result (list entry) * list dropped_row :=
  (* remove identical accession+version, keeping last *)
  let duplicates_mask := duplicated_last entries in
  let df_duplicates := mask_select duplicates_mask entries in
  let log1 :=
    save_dropped_rows (λ e, Dropped (data e) None) df_duplicates "duplicate" in
  let entries1 :=
    match df_duplicates with
    | [] => entries
    | _ => mask_select (negb <$> duplicated_last entries) entries
    end in
  (* remove older version of same accession *)
  match add_id_version entries1 with
  | Raise e => (Raise e, log1)
  | Ok entries2 =>
      let idx_to_keep := groupby_idxmax entries2 in
      let df_older := filter (λ e, v_label e ∉ idx_to_keep) entries2 in
      let log2 :=
        save_dropped_rows
          (λ e, Dropped (v_data e) (Some (v_id e, v_version e)))
          df_older "update" in
      let entries3 :=
        match df_older with
        | [] => entries2
        | _ => loc v_label entries2 idx_to_keep
        end in
      (Ok (drop_id_version <$> entries3), (log1 ++ log2)%list)
  end.

(** ** Files and messages *)

(** A text file as [open] and the iteration over its lines see it: the
    operating system does not let the program read it (no permission, a
    directory in its place, an input/output error), which raises
    [OSError] or one of its subclasses; or it is a list of lines (without
    their line ends). The files are taken to hold text in the encoding
    that [open] expects: bytes that do not decode are outside the
    model. *)
Inductive text_file : Type :=
  | Unreadable
  | Lines (lines : list string).

(** [open(path, 'r')] and the reading of all lines. *)
Definition read_lines (f : text_file) : result (list string) :=
  match f with
  | Unreadable => Raise OSError
  | Lines lines => Ok lines
  end.

(** A CSV file as [pd.read_csv] sees it: text that the parser of pandas
    rejects (a line with too many fields, a quote left open), a table
    without an [accession] column, or a table whose rows have an
    accession and other cells. [pd.read_csv] gives no text for a cell
    that is empty, it gives NaN: in the other cells that is [None]; for
    the accession the row has the empty text, which no cell that is
    filled is read as. A table written with [to_csv(index=False)] is
    read back as the same table. *)
Inductive csv_file : Type :=
  | BadCsv
  | CsvNoAccession (rows : list (list (option string)))
  | Csv (rows : list row).

(** The messages of the module, with the channel they go to: a level of
    the logger, or standard output for [print]. *)
Inductive level : Type := INFO | WARNING | ERROR | DEBUG | PRINT.

Inductive store : Type := IdsFile | RemovedIdsFile | MetadataFile.

Inductive event : Type :=
  | NoProcessedIdsFile
  | UsingLatestFile (path : string)
  | ErrorFindingLatest (e : exn)
  | LoadedProcessedIds (n : nat) (path : string)
  | RemovedRows (s : store) (n : nat)
  | NoRowsRemoved (s : store)
  | ErrorUpdating (s : store) (e : exn)
  | NoAccessionColumn
  | RemovedFasta (name : string)
  | ErrorRemoving (name : string) (e : exn)
  | RemovedFastaCount (n : nat)
  | ErrorCleaningFasta (e : exn)
  | MetadataNotFound
  | LoadedMetadata (n : Z)
  | PostProcessing
  | NotMostRecent (id : string) (accession : string)
  | MoreFilledFields (index : nat) (id : string) (version : Z)
  | RemovedDuplicateRows (n : Z)
  | SavedMetadata (n : Z)
  | SavedRemovedRows (n : nat).

Definition message : Type := level * event.

(** [if logger: logger.<lvl>(ev)] *)
Definition log (logger : bool) (lvl : level) (ev : event) : list message :=
  if logger then [(lvl, ev)] else [].

(** [if logger: logger.error(ev) else: print(ev)] *)
Definition log_or_print (logger : bool) (ev : event) : list message :=
  if logger then [(ERROR, ev)] else [(PRINT, ev)].

(** ** The ledger of processed accessions *)

(** A file of [PROCESSED_IDS_DIR]: its name, its creation time as
    [os.path.getctime] reports it ([None] where that call raises, for
    instance on a dangling link), and its content. *)
Record ledger_file : Type :=
  LedgerFile { name : string; ctime : option Z; content : text_file }.

(** The directory as [os.listdir] sees it. *)
Inductive ledger_dir : Type :=
  | NoListing                          (* listdir raises: missing, or no permission *)
  | Listing (files : list ledger_file).

Definition listdir (d : ledger_dir) : result (list ledger_file) :=
  match d with
  | NoListing => Raise OSError
  | Listing files => Ok files
  end.

Definition getctime (f : ledger_file) : result Z :=
  match ctime f with
  | Some t => Ok t
  | None => Raise OSError
  end.

(** [max(files, key=os.path.getctime)] on a non-empty list: the first file
    among those of greatest creation time. [best] and [t] are the
    greatest so far and its key. *)
Fixpoint max_by_ctime_from (best : ledger_file) (t : Z) (files : list ledger_file)
  : result ledger_file :=
  match files with
  | [] => Ok best
  | f :: files' =>
      tf ← getctime f;
      if t <? tf then max_by_ctime_from f tf files'
      else max_by_ctime_from best t files'
  end.

Definition max_by_ctime (files : list ledger_file) : result (option ledger_file) :=
  match files with
  | [] => Ok None
  | f :: files' =>
      t ← getctime f; best ← max_by_ctime_from f t files'; Ok (Some best)
  end.

(** [find_latest_processed_ids_file]: every exception of the body is
    caught and turned into [None]. *)
Definition find_latest_processed_ids_file (logger : bool) (PROCESSED_IDS_DIR : ledger_dir)
  : option ledger_file * list message :=
  match
    (all_files ← listdir PROCESSED_IDS_DIR;
     let files := filter (λ f, Py.endswith (name f) ".txt" = true) all_files in
     match files with
     | [] => Ok (None, log logger WARNING NoProcessedIdsFile)
     | _ =>
         latest_file ← max_by_ctime files;
         Ok (latest_file,
             match latest_file with
             | Some f => log logger INFO (UsingLatestFile (name f))
             | None => []
             end)
     end)
  with
  | Ok r => r
  | Raise e => (None, log logger ERROR (ErrorFindingLatest e))
  end.

(** [load_processed_ids] *)
Definition load_processed_ids (logger : bool) (PROCESSED_IDS_DIR : ledger_dir)
  : result (list string) * list message :=
  let '(file_path, out) := find_latest_processed_ids_file logger PROCESSED_IDS_DIR in
  match file_path with
  | Some f =>
      match read_lines (content f) with
      | Ok lines =>
          let processed_ids := Py.strip <$> lines in
          (Ok processed_ids,
           (out ++ log logger INFO (LoadedProcessedIds (length processed_ids) (name f)))%list)
      | Raise e => (Raise e, out)
      end
  | None => (Ok [], out)
  end.

(** [save_processed_ids]: the lines written to
    [CURRENT_PROCESSED_IDS_FILE]. The old identifiers are loaded without a
    logger. *)
Definition save_processed_ids (processed_ids : list string)
    (PROCESSED_IDS_DIR : ledger_dir) : result text_file :=
  old_processed_ids ← (load_processed_ids false PROCESSED_IDS_DIR).1;
  (* combine old and new IDs, remove duplicates *)
  let all_processed_ids := Py.fromkeys (processed_ids ++ old_processed_ids)%list in
  Ok (Lines all_processed_ids).

(** [filter_unprocessed_ids] *)
Definition filter_unprocessed_ids (id_list processed_ids : list string) : list string :=
  filter (λ seq_id, seq_id ∉ processed_ids) id_list.

(** ** The version index and the removed log, as dictionaries *)

(** One line of the version index: [accession, version = line.strip().split('.')]
    and [int(version)]. *)
Definition parse_version_line (line : string) : result (string * Z) :=
  '(accession, version) ← Py.unpack2 (Py.split "." (Py.strip line));
  v ← Py.int version;
  Ok (accession, v).

(** [load_local_versions] *)
Definition load_local_versions (IDS_FILE : option text_file)
  : result (gmap string Z) :=
  match IDS_FILE with
  | None => Ok ∅
  | Some f =>
      lines ← read_lines f;
      for_each
        (λ (local_versions : gmap string Z) line,
           '(accession, v) ← parse_version_line line;
           Ok (<[accession := v]> local_versions))
        lines ∅
  end.

(** What [load_removed_versions] returns: a list or a dict. *)
Inductive py_value : Type :=
  | PyList (items : list string)
  | PyDict (d : gmap string Z).

(** [next(f)]: the first line, and the lines that remain. *)
Definition next_line (lines : list string) : result (string * list string) :=
  match lines with
  | [] => Raise StopIteration
  | l :: rest => Ok (l, rest)
  end.

(** One line of the removed log. *)
Definition parse_removed_line (line : string) : result (string * Z) :=
  '(accession_num, _) ← Py.unpack2 (Py.split "," (Py.strip line));
  '(accession, version) ← Py.unpack2 (Py.split "." (Py.strip accession_num));
  v ← Py.int version;
  Ok (accession, v).

(** [load_removed_versions] *)
Definition load_removed_versions (REMOVED_IDS_FILE : option text_file)
  : result py_value :=
  match REMOVED_IDS_FILE with
  | None => Ok (PyList [])
  | Some f =>
      lines ← read_lines f;
      '(_, rest) ← next_line lines;
      local_removed ←
        for_each
          (λ (local_removed : gmap string Z) line,
             '(accession, v) ← parse_removed_line line;
             Ok (<[accession := v]> local_removed))
          rest ∅;
      Ok (PyDict local_removed)
  end.

(** ** Pruning the stores *)

(** A file of [SEQS_DIR]: its name and whether [os.remove] succeeds on it. *)
Record seq_file : Type := SeqFile { fname : string; removable : bool }.

Inductive seqs_dir : Type :=
  | SeqsNoListing                       (* listdir raises *)
  | SeqsListing (files : list seq_file).

(** The files that [clean_profiles_from_data] touches; [None] is a path
    that does not exist. Writing to a store that exists is taken to
    succeed. *)
Record stores : Type := Stores {
  IDS_FILE : option text_file;
  REMOVED_IDS_FILE : option csv_file;
  METADATA_FILE : option csv_file;
  SEQS_DIR : option seqs_dir
}.

(** [p.rfind(c)] *)
Fixpoint rfind (c : ascii) (p : string) : option nat :=
  match p with
  | EmptyString => None
  | String a p' =>
      match rfind c p' with
      | Some i => Some (S i)
      | None => if Ascii.eqb a c then Some 0%nat else None
      end
  end.

(** [os.path.splitext(p)[0]] for a name without directory part: the name
    is cut at its last dot, unless only dots come before that dot. *)
Definition splitext_root (p : string) : string :=
  match rfind "." p with
  | Some dotIndex =>
      if Py.all_chars (Ascii.eqb ".") (substring 0 dotIndex p) then p
      else substring 0 dotIndex p
  | None => p
  end.

(** [acc.split(".")[0]] *)
Definition root_of (acc : string) : string :=
  default EmptyString (head (Py.split "." acc)).

(** [[line.strip() for line in f if line.strip()]] *)
Definition stripped_lines (lines : list string) : list string :=
  filter (λ ln, ln ≠ EmptyString) (Py.strip <$> lines).

(** The block on [IDS_FILE]. *)
Definition clean_ids_file (keep_set : gset string) (logger : bool)
    (f : option text_file) : option text_file * list message :=
  match f with
  | None => (None, [])
  | Some tf =>
      match
        (raw ← read_lines tf;
         let lines := stripped_lines raw in
         let before_count := length lines in
         let kept_lines := filter (λ ln, ln ∈ keep_set) lines in
         let after_count := length kept_lines in
         if (after_count <? before_count)%nat
         then Ok (Some (Lines kept_lines),
                  log logger INFO (RemovedRows IdsFile (before_count - after_count)))
         else Ok (Some tf, log logger INFO (NoRowsRemoved IdsFile)))
      with
      | Ok r => r
      | Raise e => (Some tf, log_or_print logger (ErrorUpdating IdsFile e))
      end
  end.

(** [pd.read_csv] *)
Definition read_csv (f : csv_file) : result csv_file :=
  match f with
  | BadCsv => Raise ParserError
  | _ => Ok f
  end.

(** [df[df["accession"].isin(keep_set)]]; the column lookup raises
    [KeyError] on a table without that column. A missing accession cell
    is in no [keep_set]: the accessions of [ids_list] are taken not to be
    the empty text, which stands for such a cell. *)
Definition filter_accession_isin (keep_set : gset string) (df : csv_file)
  : result (list row) :=
  match df with
  | Csv rows => Ok (filter (λ r, accession r ∈ keep_set) rows)
  | _ => Raise KeyError
  end.

Definition csv_length (df : csv_file) : nat :=
  match df with
  | Csv rows => length rows
  | CsvNoAccession rows => length rows
  | BadCsv => 0
  end.

(** The block on [REMOVED_IDS_FILE]. *)
Definition clean_removed_file (keep_set : gset string) (logger : bool)
    (f : option csv_file) : option csv_file * list message :=
  match f with
  | None => (None, [])
  | Some cf =>
      match
        (df_removed ← read_csv cf;
         let before_count := csv_length df_removed in
         kept ← filter_accession_isin keep_set df_removed;
         let after_count := length kept in
         if (after_count <? before_count)%nat
         then Ok (Some (Csv kept),
                  log logger INFO (RemovedRows RemovedIdsFile (before_count - after_count)))
         else Ok (Some cf, log logger INFO (NoRowsRemoved RemovedIdsFile)))
      with
      | Ok r => r
      | Raise e => (Some cf, log_or_print logger (ErrorUpdating RemovedIdsFile e))
      end
  end.

(** The block on [METADATA_FILE], which looks for the column first. *)
Definition clean_metadata_file (keep_set : gset string) (logger : bool)
    (f : option csv_file) : option csv_file * list message :=
  match f with
  | None => (None, [])
  | Some cf =>
      match
        (df_meta ← read_csv cf;
         match df_meta with
         | Csv _ =>
             let before_count := csv_length df_meta in
             kept ← filter_accession_isin keep_set df_meta;
             let after_count := length kept in
             if (after_count <? before_count)%nat
             then Ok (Some (Csv kept),
                      log logger INFO (RemovedRows MetadataFile (before_count - after_count)))
             else Ok (Some cf, log logger INFO (NoRowsRemoved MetadataFile))
         | _ => Ok (Some cf, log logger WARNING NoAccessionColumn)
         end)
      with
      | Ok r => r
      | Raise e => (Some cf, log_or_print logger (ErrorUpdating MetadataFile e))
      end
  end.

(** [f.lower().endswith(".fasta")] *)
Definition is_fasta (fasta_name : string) : bool :=
  Py.endswith (Py.lower fasta_name) ".fasta".

(** The loop over the FASTA files: the files that remain in the
    directory, [removed_count] and the messages. A failing [os.remove] is
    reported and the loop goes on. *)
Fixpoint remove_fasta_loop (valid_roots : gset string) (logger : bool)
    (all_files : list seq_file) : list seq_file * nat * list message :=
  match all_files with
  | [] => ([], 0%nat, [])
  | f :: rest =>
      let '(remaining, removed_count, out) :=
        remove_fasta_loop valid_roots logger rest in
      if is_fasta (fname f) && bool_decide (splitext_root (fname f) ∉ valid_roots)
      then
        if removable f
        then (remaining, S removed_count,
              (log logger DEBUG (RemovedFasta (fname f)) ++ out)%list)
        else (f :: remaining, removed_count,
              (log_or_print logger (ErrorRemoving (fname f) OSError) ++ out)%list)
      else (f :: remaining, removed_count, out)
  end.

(** The block on [SEQS_DIR]. *)
Definition clean_seqs_dir (keep_set : gset string) (logger : bool)
    (d : option seqs_dir) : option seqs_dir * list message :=
  match d with
  | None => (None, [])
  | Some sd =>
      let valid_roots : gset string := set_map root_of keep_set in
      match sd with
      | SeqsNoListing => (Some sd, log_or_print logger (ErrorCleaningFasta OSError))
      | SeqsListing all_files =>
          let '(remaining, removed_count, out) :=
            remove_fasta_loop valid_roots logger all_files in
          (Some (SeqsListing remaining),
           (out ++ if (0 <? removed_count)%nat
                   then log logger INFO (RemovedFastaCount removed_count)
                   else [])%list)
      end
  end.

(** [clean_profiles_from_data]: the value returned (or the exception
    raised), the stores afterwards, and the messages. *)
Definition clean_profiles_from_data (ids_list : list string) (logger : bool)
    (st : stores) : result Z * stores * list message :=
  let keep_set : gset string := list_to_set ids_list in
  let '(ids, out1) := clean_ids_file keep_set logger (IDS_FILE st) in
  let '(removed, out2) := clean_removed_file keep_set logger (REMOVED_IDS_FILE st) in
  let '(meta, out3) := clean_metadata_file keep_set logger (METADATA_FILE st) in
  let '(seqs, out4) := clean_seqs_dir keep_set logger (SEQS_DIR st) in
  (Ok 0, Stores ids removed meta seqs, (out1 ++ out2 ++ out3 ++ out4)%list).

(** ** Post-processing of the metadata table *)

(** The order of [sort_values(by=['id', 'version', 'index'],
    ascending=[True, False, True])]. *)
Definition sort_le (a b : ventry) : Prop :=
  match String.compare (v_id a) (v_id b) with
  | Lt => True
  | Gt => False
  | Eq =>
      v_version b < v_version a
      ∨ (v_version a = v_version b ∧ (v_label a ≤ v_label b)%nat)
  end.

#[global] Instance sort_le_dec a b : Decision (sort_le a b).
Proof. unfold sort_le. destruct (String.compare _ _); apply _. Defined.

(** [row.notna().sum()]: the cells that are filled, among them the
    accession and the three helper columns. *)
Definition notna_count (e : ventry) : nat :=
  4 + length (filter is_Some (cells (v_data e))).

(** [group['index'].max()] *)
Definition max_index (g : list ventry) : nat :=
  foldr Nat.max 0%nat (v_label <$> g).

(** The body of the loop over the groups: the rows kept for one group
    and the warnings about it. *)
Definition keep_of_group (logger : bool) (g : list ventry)
  : list ventry * list message :=
  match g with
  | [] => ([], [])
  | best_row :: others =>
      (* check if highest version is the most recent *)
      let w1 :=
        if decide (v_label best_row ≠ max_index g)
        then log logger WARNING
               (NotMostRecent (v_id best_row) (accession (v_data best_row)))
        else [] in
      (* check highest version row has the most filled fields *)
      let w2 :=
        others ≫= (λ r,
          if (notna_count best_row <? notna_count r)%nat
          then log logger WARNING
                 (MoreFilledFields (v_label r) (v_id r) (v_version r))
          else []) in
      (* split up any tied highest versions by most recently added *)
      let max_version_rows :=
        filter (λ r, v_version r = v_version best_row) g in
      let best_rows :=
        filter (λ r, v_label r = max_index max_version_rows) max_version_rows in
      (best_rows, (w1 ++ w2)%list)
  end.

#[global] Instance row_eq_dec : EqDecision row.
Proof. solve_decision. Defined.

(** [df.drop_duplicates(keep=False)]: the rows that occur once. *)
Definition drop_all_duplicates (rows : list row) : list row :=
  filter (λ r, length (filter (λ r', r' = r) rows) = 1%nat) rows.

(** [split_accession] on the accession cell of a table that
    [pd.read_csv] returned. A missing cell is a float, and
    [accession.split] raises [AttributeError] on it, which the handler of
    [split_accession] does not catch. *)
Definition split_accession_cell (accession : string) : result (string * Z) :=
  match accession with
  | EmptyString => Raise AttributeError
  | _ => split_accession accession
  end.

(** The [id] and [version] columns of such a table; see
    [add_id_version]. *)
Definition add_id_version_cells (entries : list entry) : result (list ventry) :=
  match entries with
  | [] => Raise ValueError
  | _ =>
      map_result
        (λ e, '(i, v) ← split_accession_cell (accession (data e));
              Ok (VEntry (label e) (data e) i v))
        entries
  end.

(** [post_process_metadata]: what the run leaves in [METADATA_FILE] and
    the rows written to the debug file of removed rows, or the exception;
    and the messages, of which one is printed whether or not there is a
    logger. *)
Definition post_process_metadata (logger : bool) (METADATA_FILE : option csv_file)
  : result (option csv_file * list row) * list message :=
  match METADATA_FILE with
  | None => (Ok (None, []), log logger ERROR MetadataNotFound)
  | Some cf =>
      match read_csv cf with
      | Raise e => (Raise e, [])
      | Ok (Csv rows) =>
          let out0 :=
            (log logger INFO (LoadedMetadata (Z.of_nat (length rows) - 1))
               ++ (PRINT, PostProcessing) :: log logger INFO PostProcessing)%list in
          (* add helper columns *)
          match add_id_version_cells (DataFrame_of rows) with
          | Raise e => (Raise e, out0)
          | Ok meta_df0 =>
              let meta_df := merge_sort sort_le meta_df0 in
              (* keep the highest version per group *)
              let per_group :=
                (λ k, keep_of_group logger (group meta_df k)) <$> group_keys meta_df in
              let rows_to_keep := per_group ≫= fst in
              let warnings := per_group ≫= snd in
              let final_df := v_data <$> rows_to_keep in
              let removed_df :=
                drop_all_duplicates ((v_data <$> meta_df) ++ final_df)%list in
              (Ok (Some (Csv final_df), removed_df),
               (out0 ++ warnings
                  ++ log logger INFO
                       (RemovedDuplicateRows
                          (Z.of_nat (length meta_df) - Z.of_nat (length final_df)))
                  ++ log logger INFO (SavedMetadata (Z.of_nat (length final_df) - 1))
                  ++ match removed_df with
                     | [] => []
                     | _ => log logger INFO (SavedRemovedRows (length removed_df))
                     end)%list)
          end
      | Ok _ =>
          (Raise KeyError,
           (log logger INFO (LoadedMetadata (Z.of_nat (csv_length cf) - 1))
              ++ (PRINT, PostProcessing) :: log logger INFO PostProcessing)%list)
      end
  end.

(** ** Updating the version index *)

Section local_versions.

(** The text that [to_csv(index=False, header=False)] writes for a row of
    the one column [accession]; pandas leaves a field as it is unless it
    has to quote it. *)
Variable to_csv_line : string → string.

(** [update_local_versions]: what the call leaves in [IDS_FILE], or the
    exception; and the rows appended to the debug file. The frame is
    built from the old lines, stripped and not blank, followed by the new
    entries. *)
Definition update_local_versions (entries : list string)
    (IDS_FILE : option text_file)
  : result (option text_file) * list dropped_row :=
  match
    match IDS_FILE with
    | Some f => raw ← read_lines f; Ok (stripped_lines raw)
    | None => Ok []
    end
  with
  | Raise e => (Raise e, [])
  | Ok ex_ids =>
      match ex_ids, entries with
      | [], [] => (Ok IDS_FILE, [])
      | _, _ =>
          let ids := (ex_ids ++ entries)%list in
          let '(ids_df, dropped) :=
            duplicate_removal (DataFrame_of ((λ a, Row a []) <$> ids)) in
          (df ← ids_df;
           Ok (Some (Lines ((to_csv_line ∘ accession ∘ data) <$> df))),
           dropped)
      end
  end.

End local_versions.

(** ** Sequence files *)

(** [clean_sequence]: [str(sequence).replace('D', '-')]. *)
Fixpoint clean_sequence (sequence : string) : string :=
  match sequence with
  | EmptyString => EmptyString
  | String c rest =>
      String (if Ascii.eqb c "D" then "-"%char else c) (clean_sequence rest)
  end.

(** A [SeqRecord]: identifier, name, description and sequence. *)
Record SeqRecord : Type :=
  MkSeqRecord { rec_id : string; rec_name : string;
                rec_description : string; rec_seq : string }.

(** The name, inside [SEQS_DIR], of the file of a record:
    [f"{record.id.split('.')[0]}.fasta"]. *)
Definition fasta_file_name (record_id : string) : string :=
  root_of record_id ++ ".fasta".

Inductive fasta_event : Type :=
  | FastaWritten (id : string)
  | ErrorWritingFasta (id : string).

(** [write_seq_as_fasta]. [can_write] tells for which file names
    [SeqIO.write] succeeds. The result is the value returned, the file
    written (its name and the record in it) and the messages. *)
Definition write_seq_as_fasta (can_write : string → bool) (logger : bool)
    (record : SeqRecord)
  : bool * option (string * SeqRecord) * list (level * fasta_event) :=
  let cleaned_sequence := clean_sequence (rec_seq record) in
  let cleaned_record :=
    MkSeqRecord (rec_id record) (rec_name record) (rec_description record)
                cleaned_sequence in
  let file_name := fasta_file_name (rec_id record) in
  if can_write file_name
  then (true, Some (file_name, cleaned_record),
        if logger then [(DEBUG, FastaWritten (rec_id record))] else [])
  else (false, None,
        if logger then [(ERROR, ErrorWritingFasta (rec_id record))]
        else [(PRINT, ErrorWritingFasta (rec_id record))]).

(** ** Cleaning up old files *)

(** A file of a directory under clean-up: its name, its creation time
    ([None] where [os.path.getctime] raises) and whether [os.remove]
    succeeds on it. *)
Record dir_file : Type :=
  DirFile { d_name : string; d_ctime : option Z; d_removable : bool }.

Inductive cleanup_event : Type :=
  | CleaningUp
  | NoCleanupNeeded (n : nat)
  | RemovedOldFile (file : string)
  | CleanupComplete (keep_last : Z)
  | CleanupError (e : exn).

(** [file.endswith((".txt", ".csv", ".log"))] *)
Definition has_cleanup_extension (file : string) : bool :=
  Py.endswith file ".txt" || Py.endswith file ".csv" || Py.endswith file ".log".

(** The keys of the sort: [os.path.getctime] of every file. *)
Definition ctime_keys (files : list dir_file) : result (list (Z * dir_file)) :=
  map_result
    (λ f, match d_ctime f with
          | Some t => Ok (t, f)
          | None => Raise OSError
          end)
    files.

(** One step of a stable sort by falling key: [x] goes behind the
    elements whose key is not smaller. *)
Fixpoint insert_desc (x : Z * dir_file) (l : list (Z * dir_file))
  : list (Z * dir_file) :=
  match l with
  | [] => [x]
  | y :: l' => if y.1 <? x.1 then x :: l else y :: insert_desc x l'
  end.

(** [files.sort(key=os.path.getctime, reverse=True)]: stable, so files of
    equal creation time stay in the order of the listing. *)
Definition sort_by_ctime_desc (keyed : list (Z * dir_file)) : list dir_file :=
  snd <$> foldl (λ sorted x, insert_desc x sorted) [] keyed.

(** [l[k:]] for a Python integer [k], which may be negative. *)
Definition slice_from {A : Type} (k : Z) (l : list A) : list A :=
  if 0 <=? k then drop (Z.to_nat k) l
  else drop (Z.to_nat (Z.of_nat (length l) + k)) l.

(** The loop of removals: it ends at the first [os.remove] that raises.
    The result is the files removed and the exception, if any. *)
Fixpoint remove_old_files (files_to_remove : list dir_file)
  : list dir_file * option exn :=
  match files_to_remove with
  | [] => ([], None)
  | f :: rest =>
      if d_removable f
      then let '(removed, e) := remove_old_files rest in (f :: removed, e)
      else ([], Some OSError)
  end.

(** [cleanup_old_files]: the directory afterwards ([None] is a directory
    that cannot be listed) and the messages; the first message is
    printed. *)
Definition cleanup_old_files (keep_last : Z) (logger : bool)
    (directory : option (list dir_file))
  : option (list dir_file) * list (level * cleanup_event) :=
  match directory with
  | None =>
      (None, ((PRINT, CleaningUp) :: if logger then [(ERROR, CleanupError OSError)] else []))
  | Some all_files =>
      let files := filter (λ f, has_cleanup_extension (d_name f) = true) all_files in
      if Z.of_nat (length files) <=? keep_last
      then (directory,
            (PRINT, CleaningUp)
              :: if logger then [(INFO, NoCleanupNeeded (length files))] else [])
      else
        match ctime_keys files with
        | Raise e =>
            (directory,
             (PRINT, CleaningUp) :: if logger then [(ERROR, CleanupError e)] else [])
        | Ok keyed =>
            let files_to_remove := slice_from keep_last (sort_by_ctime_desc keyed) in
            let '(removed, e) := remove_old_files files_to_remove in
            (Some (filter (λ f, d_name f ∉ d_name <$> removed) all_files),
             ((PRINT, CleaningUp)
                :: (if logger
                    then (λ f, (INFO, RemovedOldFile (d_name f))) <$> removed
                    else [])
                ++ if logger
                   then match e with
                        | Some e => [(ERROR, CleanupError e)]
                        | None => [(INFO, CleanupComplete keep_last)]
                        end
                   else [])%list)
        end
  end.

(** ** Notions of the design document, for the statements below *)

(** The number of occurrences of a character. *)
Fixpoint count_char (c : ascii) (s : string) : nat :=
  match s with
  | EmptyString => 0
  | String a s' => (if Ascii.eqb a c then 1 else 0) + count_char c s'
  end.

(** The value of a string of decimal digits, read after [acc]. *)
Fixpoint decimal_from (acc : Z) (ds : string) : Z :=
  match ds with
  | EmptyString => acc
  | String c ds' => decimal_from (10 * acc + Py.digit_value c) ds'
  end.

Definition decimal (ds : string) : Z := decimal_from 0 ds.

(** The text of an integer as Python reads it: a digit, then digits, each
    of which a single underscore may precede. *)
Inductive int_tail : string → Prop :=
  | int_tail_end : int_tail EmptyString
  | int_tail_digit d t :
      Py.is_digit d = true → int_tail t → int_tail (String d t)
  | int_tail_underscore d t :
      Py.is_digit d = true → int_tail t → int_tail (String "_" (String d t)).

Definition int_body (s : string) : Prop :=
  ∃ d t, s = String d t ∧ Py.is_digit d = true ∧ int_tail t.

Inductive int_sign : string → Z → Prop :=
  | int_sign_none : int_sign EmptyString 1
  | int_sign_plus : int_sign "+" 1
  | int_sign_minus : int_sign "-" (-1).

Fixpoint strip_underscores (s : string) : string :=
  match s with
  | EmptyString => EmptyString
  | String c s' =>
      if Ascii.eqb c "_" then strip_underscores s'
      else String c (strip_underscores s')
  end.

(** [s] is the text of the integer [z]: whitespace, an optional sign, the
    digits, whitespace. *)
Definition int_text (s : string) (z : Z) : Prop :=
  ∃ ws1 sg sign body ws2,
    s = ws1 ++ sg ++ body ++ ws2
    ∧ Py.all_chars Py.is_c_space ws1 = true
    ∧ int_sign sg sign
    ∧ int_body body
    ∧ Py.all_chars Py.is_c_space ws2 = true
    ∧ z = sign * decimal_from 0 (strip_underscores body).

(** A non-empty string of decimal digits. *)
Definition is_digits (ds : string) : Prop :=
  ds ≠ EmptyString ∧ Py.all_chars Py.is_digit ds = true.

(** A string without the character [c]. *)
Definition free_of (c : ascii) (s : string) : Prop :=
  Py.all_chars (λ a, negb (Ascii.eqb a c)) s = true.

(** The order-preserving union of the design document: of every element
    the first occurrence stays. *)
Fixpoint first_occurrences (l : list string) : list string :=
  match l with
  | [] => []
  | x :: l' => x :: filter (λ y, y ≠ x) (first_occurrences l')
  end.

(** The dict that a loop of [d[k] = v] over the pairs builds from [d]. *)
Definition assign_all (d : gmap string Z) (kvs : list (string * Z)) : gmap string Z :=
  foldl (λ d kv, <[kv.1 := kv.2]> d) d kvs.

(** The accessions present in the version index: its non-blank lines,
    stripped. A file that cannot be read shows none. *)
Definition accessions_of_ids (f : option text_file) : gset string :=
  match f with
  | Some (Lines lines) => list_to_set (stripped_lines lines)
  | _ => ∅
  end.

(** The accessions present in a table. *)
Definition accessions_of_csv (f : option csv_file) : gset string :=
  match f with
  | Some (Csv rows) => list_to_set (accession <$> rows)
  | _ => ∅
  end.

(** The root names of the sequence files of the directory. *)
Definition fasta_roots (d : option seqs_dir) : gset string :=
  match d with
  | Some (SeqsListing files) =>
      list_to_set
        ((splitext_root ∘ fname) <$> filter (λ f, is_fasta (fname f) = true) files)
  | _ => ∅
  end.

(** The root names of the sequence files that should go but cannot be
    removed. *)
Definition stuck_roots (valid_roots : gset string) (d : option seqs_dir) : gset string :=
  match d with
  | Some (SeqsListing files) =>
      list_to_set
        ((splitext_root ∘ fname) <$>
           filter (λ f, (is_fasta (fname f) = true)
                        ∧ (splitext_root (fname f) ∉ valid_roots)
                        ∧ (removable f = false)) files)
  | _ => ∅
  end.

(** Every file of the directory can be removed. *)
Definition all_removable (d : option seqs_dir) : Prop :=
  match d with
  | Some (SeqsListing files) => Forall (λ f, removable f = true) files
  | _ => True
  end.

(** A file stays in the directory unless it is a sequence file, its root
    is not valid, and it can be removed. *)
Definition stays (valid_roots : gset string) (f : seq_file) : Prop :=
  ¬ ((is_fasta (fname f) = true)
     ∧ (splitext_root (fname f) ∉ valid_roots)
     ∧ (removable f = true)).

(** The stores after a run of [clean_profiles_from_data]. *)
Definition pruned (ids_list : list string) (logger : bool) (st : stores) : stores :=
  (clean_profiles_from_data ids_list logger st).1.2.

(** The identifier of a record, where its accession parses. *)
Definition id_of (r : row) : option string :=
  match split_accession (accession r) with
  | Ok (i, _) => Some i
  | Raise _ => None
  end.

(** The events that the block on the metadata table reports. *)
Definition about_metadata (ev : event) : bool :=
  match ev with
  | NoAccessionColumn
  | ErrorUpdating MetadataFile _
  | RemovedRows MetadataFile _
  | NoRowsRemoved MetadataFile => true
  | _ => false
  end.

(** The frame after the second step of [duplicate_removal], with its
    helper columns. *)
Definition resolved (entries2 : list ventry) : list ventry :=
  match filter (λ e, v_label e ∉ groupby_idxmax entries2) entries2 with
  | [] => entries2
  | _ => loc v_label entries2 (groupby_idxmax entries2)
  end.

(** The creation time of every file can be read. *)
Definition d_ctime_all (files : list ledger_file) : Prop :=
  Forall (λ f, ∃ t, ctime f = Some t) files.

(** The files of a directory that [cleanup_old_files] considers: those
    with one of the three extensions. *)
Definition cleanup_candidates (all_files : list dir_file) : list dir_file :=
  filter (λ f, has_cleanup_extension (d_name f) = true) all_files.

(** [g] was not created after [f], where both creation times can be
    read. *)
Definition not_newer (g f : dir_file) : Prop :=
  ∀ tg tf, d_ctime g = Some tg → d_ctime f = Some tf → tg ≤ tf.

(** The order of the keys after the sort: falling. *)
Definition key_desc (x y : Z * dir_file) : Prop := y.1 ≤ x.1.

(** The accessions that [update_local_versions] resolves: the lines of
    the version index, stripped and not blank, then the new entries. *)
Definition ids_of_update (entries : list string) (IDS_FILE : option text_file)
  : list string :=
  (match IDS_FILE with
   | Some (Lines lines) => stripped_lines lines
   | _ => []
   end ++ entries)%list.

(** The first and the last character of a string. *)
Definition first_char (s : string) : option ascii :=
  match s with
  | String c _ => Some c
  | EmptyString => None
  end.

Fixpoint last_char (s : string) : option ascii :=
  match s with
  | EmptyString => None
  | String c EmptyString => Some c
  | String _ s' => last_char s'
  end.

(** A string that neither begins nor ends with white space. *)
Definition no_space_at_ends (s : string) : Prop :=
  (∀ c, first_char s = Some c → Py.is_space c = false)
  ∧ (∀ c, last_char s = Some c → Py.is_space c = false).

(** [core] is [s] without the white space at its two ends. *)
Definition stripped_of (s core : string) : Prop :=
  ∃ ws1 ws2,
    s = ws1 ++ core ++ ws2
    ∧ Py.all_chars Py.is_space ws1 = true
    ∧ Py.all_chars Py.is_space ws2 = true
    ∧ no_space_at_ends core.

(** A well-formed line of the removed log that names the identifier [id]
    with the version [v]. Without the white space at its ends the line
    has one comma; what stands before the comma is, again without the
    white space at its ends, the identifier, a dot and the text of the
    version, and neither of the two holds a dot. *)
Definition removed_line (line id : string) (v : Z) : Prop :=
  ∃ accession_num filter_text version,
    stripped_of line (accession_num ++ String "," filter_text)
    ∧ free_of "," accession_num
    ∧ free_of "," filter_text
    ∧ stripped_of accession_num (id ++ String "." version)
    ∧ free_of "." id
    ∧ free_of "." version
    ∧ int_text version v.

(** The frame after the first step of [duplicate_removal], read as the
    design document words it: of the rows with one accession, the last. *)
Definition keep_last (entries : list entry) : list entry :=
  mask_select (negb <$> duplicated_last entries) entries.

(** A row with its helper columns agrees with the frame row it was made
    from. *)
Definition versioned (e : entry) (v : ventry) : Prop :=
  v_label v = label e ∧ v_data v = data e
  ∧ split_accession (accession (data e)) = Ok (v_id v, v_version v).

(** * Properties *)

(** ** Accession parsing *)

Section split_facts.
Variable sep : ascii.

Lemma split_length s : length (Py.split sep s) = S (count_char sep s).
Proof.
  induction s as [|a s IH]; simpl; [done|].
  destruct (Ascii.eqb a sep); simpl; [by rewrite IH|].
  destruct (Py.split sep s); simpl in *; lia.
Qed.

Lemma split_free s : free_of sep s → Py.split sep s = [s].
Proof.
  unfold free_of. induction s as [|a s IH]; simpl; [done|].
  intros [Ha Hs]%andb_prop. destruct (Ascii.eqb a sep); [done|].
  by rewrite IH.
Qed.

Lemma split_app s1 s2 :
  free_of sep s1 →
  Py.split sep (s1 ++ String sep s2) = s1 :: Py.split sep s2.
Proof.
  unfold free_of. induction s1 as [|a s1 IH]; simpl.
  - intros _. by rewrite Ascii.eqb_refl.
  - intros [Ha Hs]%andb_prop. destruct (Ascii.eqb a sep); [done|].
    by rewrite IH.
Qed.
Lemma split_one_inv s v : Py.split sep s = [v] → s = v ∧ free_of sep v.
Proof.
  unfold free_of. revert v. induction s as [|a s IH]; intros v; cbn [Py.split].
  - by intros [= <-].
  - pose proof (split_length s) as Hlen.
    destruct (Ascii.eqb a sep) eqn:Ha.
    + intros [= _ Hs]. rewrite Hs in Hlen. discriminate.
    + destruct (Py.split sep s) as [|p ps]; [discriminate|].
      intros [= <- ->]. destruct (IH p eq_refl) as [-> Hp].
      cbn [Py.all_chars]. by rewrite Ha, Hp.
Qed.

Lemma split_two_inv s id v :
  Py.split sep s = [id; v] ↔
  s = id ++ String sep v ∧ free_of sep id ∧ free_of sep v.
Proof.
  split.
  - revert id. induction s as [|a s IH]; intros id; cbn [Py.split]; [done|].
    destruct (Ascii.eqb_spec a sep) as [->|Ha].
    + intros [= <- [-> Hv]%split_one_inv]. done.
    + destruct (Py.split sep s) as [|p ps]; [discriminate|].
      intros [= <- ->]. destruct (IH p eq_refl) as (-> & Hp & Hv).
      split; [done|]. split; [|done]. unfold free_of in *.
      cbn [Py.all_chars]. rewrite Hp.
      by destruct (Ascii.eqb_spec a sep).
  - intros (-> & Hid & Hv). by rewrite split_app, (split_free _ Hv).
Qed.
End split_facts.

Lemma digit_run_digits ds acc :
  Py.all_chars Py.is_digit ds = true →
  Py.digit_run false acc ds = Some (decimal_from acc ds, EmptyString).
Proof.
  revert acc. induction ds as [|c ds IH]; intros acc; simpl; [done|].
  intros [Hc Hds]%andb_prop. rewrite Hc. by apply IH.
Qed.

Lemma is_digit_not_space c : Py.is_digit c = true → Py.is_c_space c = false.
Proof. unfold Py.is_digit, Py.is_c_space. lia. Qed.

Lemma is_digit_code c : Py.is_digit c = true → 48 ≤ Py.code c ≤ 57.
Proof. unfold Py.is_digit. lia. Qed.

Lemma decimal_from_nonneg ds acc :
  Py.all_chars Py.is_digit ds = true → 0 ≤ acc → 0 ≤ decimal_from acc ds.
Proof.
  revert acc. induction ds as [|c ds IH]; intros acc; simpl; [done|].
  intros [Hc%is_digit_code Hds]%andb_prop Hacc. apply IH; [done|].
  unfold Py.digit_value. lia.
Qed.

(** [int] of a string of digits is its decimal value. *)
Lemma parse_int_digits ds : is_digits ds → Py.parse_int ds = Some (decimal ds).
Proof.
  intros [Hne Hds]. destruct ds as [|c ds]; [done|].
  pose proof Hds as Hall. simpl in Hds. apply andb_prop in Hds as [Hc Hds'].
  unfold Py.parse_int. cbn [Py.lstrip_by]. rewrite (is_digit_not_space _ Hc).
  assert (c ≠ "+"%char ∧ c ≠ "-"%char) as [Hp Hm].
  { split; intros ->; vm_compute in Hc; discriminate. }
  assert (match String c ds with
          | String "+" r => (1, r)
          | String "-" r => (-1, r)
          | _ => (1, String c ds)
          end = (1, String c ds)) as ->.
  { destruct c as [[] [] [] [] [] [] [] []]; try done. }
  rewrite Hc, (digit_run_digits _ _ Hall). simpl.
  unfold decimal. simpl. f_equal; lia.
Qed.

(** [int] of a minus sign and digits is the negated value. *)
Lemma parse_int_minus_digits ds :
  is_digits ds → Py.parse_int (String "-" ds) = Some (- decimal ds).
Proof.
  intros [Hne Hds]. destruct ds as [|c ds]; [done|].
  pose proof Hds as Hall. simpl in Hds. apply andb_prop in Hds as [Hc Hds'].
  unfold Py.parse_int. cbn [Py.lstrip_by].
  replace (Py.is_c_space "-") with false by reflexivity. cbv iota beta.
  rewrite Hc, (digit_run_digits _ _ Hall). simpl.
  unfold decimal. simpl. f_equal; lia.
Qed.

(** *** [int] accepts exactly the integer texts *)

Lemma append_cons c s t : String c s ++ t = String c (s ++ t).
Proof. reflexivity. Qed.

Lemma append_nil t : EmptyString ++ t = t.
Proof. reflexivity. Qed.

Lemma lstrip_by_decompose sp s :
  ∃ ws, s = ws ++ Py.lstrip_by sp s ∧ Py.all_chars sp ws = true.
Proof.
  induction s as [|c s (ws & Hs & Hws)]; cbn [Py.lstrip_by].
  - by exists EmptyString.
  - destruct (sp c) eqn:Hc.
    + exists (String c ws). rewrite append_cons, <-Hs. cbn [Py.all_chars].
      by rewrite Hc, Hws.
    + by exists EmptyString.
Qed.

Lemma lstrip_by_app sp ws c x :
  Py.all_chars sp ws = true → sp c = false →
  Py.lstrip_by sp (ws ++ String c x) = String c x.
Proof.
  induction ws as [|a ws IH]; cbn [Py.all_chars].
  - intros _ Hc. rewrite append_nil. cbn [Py.lstrip_by]. by rewrite Hc.
  - intros [Ha Hws]%andb_prop Hc. rewrite append_cons. cbn [Py.lstrip_by].
    rewrite Ha. by apply IH.
Qed.

Lemma is_digit_not_underscore d : Py.is_digit d = true → Ascii.eqb d "_" = false.
Proof.
  intros Hd. destruct (Ascii.eqb_spec d "_"); [|done].
  subst. vm_compute in Hd. discriminate.
Qed.

Lemma is_c_space_not_digit c : Py.is_c_space c = true → Py.is_digit c = false.
Proof. unfold Py.is_digit, Py.is_c_space. lia. Qed.

Lemma is_c_space_not_underscore c : Py.is_c_space c = true → Ascii.eqb c "_" = false.
Proof.
  intros Hc. destruct (Ascii.eqb_spec c "_"); [|done].
  subst. vm_compute in Hc. discriminate.
Qed.

(** The digit run reads a tail and stops at the whitespace after it. *)
Lemma digit_run_tail t ws acc :
  int_tail t → Py.all_chars Py.is_c_space ws = true →
  Py.digit_run false acc (t ++ ws)
  = Some (decimal_from acc (strip_underscores t), ws).
Proof.
  intros Ht Hws. revert acc. induction Ht as [|d t Hd _ IH|d t Hd _ IH]; intros acc.
  - rewrite append_nil. cbn [strip_underscores decimal_from].
    destruct ws as [|c ws]; [done|]. cbn [Py.all_chars Py.digit_run] in *.
    apply andb_prop in Hws as [Hc _].
    by rewrite (is_c_space_not_digit _ Hc), (is_c_space_not_underscore _ Hc).
  - rewrite append_cons. cbn [Py.digit_run strip_underscores].
    rewrite Hd, (is_digit_not_underscore _ Hd). cbn [decimal_from]. apply IH.
  - rewrite !append_cons. cbn [Py.digit_run strip_underscores].
    replace (Py.is_digit "_") with false by reflexivity.
    rewrite Ascii.eqb_refl, Hd, (is_digit_not_underscore _ Hd).
    cbn [decimal_from]. apply IH.
Qed.

(** What the digit run has read is a tail; after an underscore, a digit
    and a tail. *)
Lemma digit_run_inv s prev_us acc v rest :
  Py.digit_run prev_us acc s = Some (v, rest) →
  if prev_us
  then ∃ d t, s = String d (t ++ rest) ∧ Py.is_digit d = true ∧ int_tail t
              ∧ v = decimal_from (10 * acc + Py.digit_value d) (strip_underscores t)
  else ∃ t, s = t ++ rest ∧ int_tail t
            ∧ v = decimal_from acc (strip_underscores t).
Proof.
  revert prev_us acc.
  induction s as [|c s IH]; intros prev_us acc; cbn [Py.digit_run].
  - destruct prev_us; [done|]. intros [= <- <-]. exists EmptyString.
    repeat split. constructor.
  - destruct (Py.is_digit c) eqn:Hc.
    + intros (t & -> & Ht & ->)%(IH false). destruct prev_us.
      * exists c, t. done.
      * exists (String c t). split; [done|]. split; [by constructor|].
        cbn [strip_underscores decimal_from].
        by rewrite (is_digit_not_underscore _ Hc).
    + destruct (Ascii.eqb_spec c "_") as [->|Hne].
      * destruct prev_us; [done|].
        intros (d & t & -> & Hd & Ht & ->)%(IH true).
        exists (String "_" (String d t)). split; [done|]. split; [by constructor|].
        cbn [strip_underscores decimal_from]. rewrite Ascii.eqb_refl.
        by rewrite (is_digit_not_underscore _ Hd).
      * destruct prev_us; [done|]. intros [= <- <-]. exists EmptyString.
        repeat split. constructor.
Qed.

(** [int] accepts a string exactly when it is the text of an integer, and
    returns that integer. *)
Lemma parse_int_spec s z : Py.parse_int s = Some z ↔ int_text s z.
Proof.
  split.
  - unfold Py.parse_int.
    destruct (lstrip_by_decompose Py.is_c_space s) as (ws1 & Hs & Hws1).
    set (s1 := Py.lstrip_by Py.is_c_space s) in *.
    assert (∃ sg sign s2,
              s1 = sg ++ s2 ∧ int_sign sg sign
              ∧ match s1 with
                | String "+" r => (1, r)
                | String "-" r => (-1, r)
                | _ => (1, s1)
                end = (sign, s2)) as (sg & sign & s2 & Hs1 & Hsg & ->).
    { destruct s1 as [|c r].
      - exists EmptyString, 1, EmptyString. repeat split. constructor.
      - destruct (Ascii.eqb_spec c "+") as [->|Hp];
          [exists "+", 1, r; repeat split; constructor|].
        destruct (Ascii.eqb_spec c "-") as [->|Hm];
          [exists "-", (-1), r; repeat split; constructor|].
        exists EmptyString, 1, (String c r). split; [done|]. split; [constructor|].
        destruct c as [[] [] [] [] [] [] [] []]; done. }
    destruct s2 as [|c r]; [done|].
    destruct (Py.is_digit c) eqn:Hc; [|done].
    destruct (Py.digit_run false 0 (String c r)) as [[v rest]|] eqn:Hrun; [|done].
    destruct (Py.all_chars Py.is_c_space rest) eqn:Hrest; [|done].
    intros [= <-]. apply digit_run_inv in Hrun as (t & Ht & Htail & ->).
    exists ws1, sg, sign, t, rest. rewrite Hs, Hs1, Ht. repeat split; try done.
    destruct Htail as [|d t Hd Htail|d t Hd Htail].
    + rewrite append_nil in Ht. subst rest. cbn [Py.all_chars] in Hrest.
      apply andb_prop in Hrest as [Hsp _].
      by rewrite (is_c_space_not_digit _ Hsp) in Hc.
    + by exists d, t.
    + rewrite !append_cons in Ht. injection Ht as -> _. by vm_compute in Hc.
  - intros (ws1 & sg & sign & body & ws2 & -> & Hws1 & Hsg & (d & t & -> & Hd & Ht)
            & Hws2 & ->).
    unfold Py.parse_int.
    assert (Py.lstrip_by Py.is_c_space (ws1 ++ sg ++ String d t ++ ws2)
            = sg ++ String d t ++ ws2) as ->.
    { destruct Hsg; simpl; apply lstrip_by_app; try done.
      by apply is_digit_not_space. }
    assert (match sg ++ String d t ++ ws2 with
            | String "+" r => (1, r)
            | String "-" r => (-1, r)
            | _ => (1, sg ++ String d t ++ ws2)
            end = (sign, String d t ++ ws2)) as ->.
    { destruct Hsg; simpl; [|done..].
      assert (d ≠ "+"%char ∧ d ≠ "-"%char) as [Hp Hm].
      { split; intros ->; vm_compute in Hd; discriminate. }
      destruct d as [[] [] [] [] [] [] [] []]; done. }
    rewrite (digit_run_tail (String d t) ws2 0 (int_tail_digit _ _ Hd Ht) Hws2).
    rewrite append_cons, Hd. by rewrite Hws2.
Qed.

Lemma split_accession_dotted id v :
  free_of "." id → free_of "." v →
  split_accession (id ++ String "." v) = (z ← Py.int v; Ok (id, z)).
Proof.
  intros Hid Hv. unfold split_accession.
  rewrite (split_app _ _ _ Hid), (split_free _ _ Hv). simpl.
  by destruct (Py.int v) as [z|[]].
Qed.

Lemma is_digits_free_of_dot ds : Py.all_chars Py.is_digit ds = true → free_of "." ds.
Proof.
  unfold free_of. induction ds as [|c ds IH]; simpl; [done|].
  intros [Hc Hds]%andb_prop. rewrite (IH Hds), andb_true_r.
  destruct (Ascii.eqb_spec c "."); [|done]. subst. vm_compute in Hc. discriminate.
Qed.

(** C4 (as the code has it): [split_accession] raises, and raises
    [ValueError], exactly when the accession has not exactly one separator
    (it does not split into exactly two parts) or the version part is not
    the text of an integer; otherwise it returns the identifier and the
    integer. A version that is zero or negative is no parse error: an
    identifier followed by the separator and a string of digits, with or
    without a minus sign, is returned with the value of the digits. *)
Theorem split_accession_raises_iff :
  (∀ a e, split_accession a = Raise e ↔
     e = ValueError ∧
     (count_char "." a ≠ 1%nat
      ∨ ∃ id v, a = id ++ String "." v ∧ free_of "." id ∧ free_of "." v
                ∧ ∀ z, ¬ int_text v z))
  ∧ (∀ a id z, split_accession a = Ok (id, z) ↔
       ∃ v, a = id ++ String "." v ∧ free_of "." id ∧ free_of "." v
            ∧ int_text v z)
  ∧ (∀ id ds, free_of "." id → is_digits ds →
       0 ≤ decimal ds
       ∧ split_accession (id ++ String "." ds) = Ok (id, decimal ds)
       ∧ split_accession (id ++ String "." (String "-" ds)) = Ok (id, - decimal ds)).
Proof.
  split; [|split].
  - intros a e. pose proof (split_length "." a) as Hlen.
    unfold split_accession, Py.int.
    destruct (Py.split "." a) as [|id [|v [|w ps]]] eqn:Hs; simpl in *.
    + lia.
    + split; [intros [= <-]; split; [done|left; lia]|intros [-> _]; done].
    + apply split_two_inv in Hs as (-> & Hid & Hv).
      destruct (Py.parse_int v) as [z|] eqn:Hz; simpl.
      * split; [done|]. apply parse_int_spec in Hz.
        intros [_ [H|(id' & v' & Heq & Hid' & Hv' & Hno)]]; [lia|].
        assert (Py.split "." (id ++ String "." v) = [id'; v']) as Hs'
          by (rewrite Heq; by apply split_two_inv).
        rewrite (split_app _ _ _ Hid), (split_free _ _ Hv) in Hs'.
        injection Hs' as <- <-. by destruct (Hno z).
      * split; [|by intros [-> _]]. intros [= <-]. split; [done|]. right.
        exists id, v. repeat split; try done.
        intros z Hz'%parse_int_spec. congruence.
    + split; [intros [= <-]; split; [done|left; lia]|intros [-> _]; done].
  - intros a id z. unfold split_accession, Py.int. split.
    + destruct (Py.split "." a) as [|id' [|v [|w ps]]] eqn:Hs; simpl; try done.
      apply split_two_inv in Hs as (-> & Hid & Hv).
      destruct (Py.parse_int v) as [z'|] eqn:Hz; simpl; [|done].
      intros [= <- <-]. exists v. repeat split; try done. by apply parse_int_spec.
    + intros (v & -> & Hid & Hv & Hz%parse_int_spec).
      rewrite (split_app _ _ _ Hid), (split_free _ _ Hv). simpl. by rewrite Hz.
  - intros id ds Hid Hds. pose proof Hds as [Hne Hall].
    split; [by apply decimal_from_nonneg|].
    pose proof (is_digits_free_of_dot _ Hall) as Hfree.
    split.
    + rewrite (split_accession_dotted _ _ Hid Hfree).
      unfold Py.int. by rewrite (parse_int_digits _ Hds).
    + rewrite (split_accession_dotted id (String "-" ds) Hid).
      * unfold Py.int. by rewrite (parse_int_minus_digits _ Hds).
      * unfold free_of in *. simpl. by rewrite Hfree.
Qed.

Lemma split_accession_raises_iff_witness :
  split_accession "X1" = Raise ValueError
  ∧ split_accession "AB123456.0" = Ok ("AB123456", 0)
  ∧ split_accession "AB123456.-3" = Ok ("AB123456", -3).
Proof.
  destruct split_accession_raises_iff as (Hraise & _ & Haccept).
  split.
  - apply Hraise. split; [done|left; vm_compute; lia].
  - destruct (Haccept "AB123456" "0") as (_ & H0 & _); [done|done|].
    destruct (Haccept "AB123456" "3") as (_ & _ & H3); [done|done|].
    split; [exact H0|exact H3].
Defined.

(** C4 (as stated) fails: a version of zero is returned, not refused. *)
Lemma split_accession_zero_accepted :
  ∃ id v, split_accession "X1.0" = Ok (id, v) ∧ v ≤ 0.
Proof. exists "X1", 0. split; [reflexivity|lia]. Qed.

(** ** Resolution: the first step *)

Lemma keep_last_cons e rest :
  keep_last (e :: rest) =
    if bool_decide (accession (data e) ∈ (accession ∘ data) <$> rest)
    then keep_last rest else e :: keep_last rest.
Proof. unfold keep_last. simpl. by destruct (bool_decide _). Qed.

Lemma no_duplicates_keep_all entries :
  mask_select (duplicated_last entries) entries = [] → keep_last entries = entries.
Proof.
  induction entries as [|e rest IH]; [done|].
  rewrite keep_last_cons. simpl. destruct (bool_decide _); [done|].
  intros H. by rewrite IH.
Qed.

(** Whether or not rows were dropped, the frame after step one is
    [keep_last]. *)
Lemma first_step_keep_last entries :
  match mask_select (duplicated_last entries) entries with
  | [] => entries
  | _ => mask_select (negb <$> duplicated_last entries) entries
  end = keep_last entries.
Proof.
  destruct (mask_select (duplicated_last entries) entries) eqn:H; [|done].
  by rewrite no_duplicates_keep_all.
Qed.

Lemma keep_last_sublist entries : keep_last entries `sublist_of` entries.
Proof.
  induction entries as [|e rest IH]; [done|].
  rewrite keep_last_cons. destruct (bool_decide _).
  - by apply sublist_cons.
  - by apply sublist_skip.
Qed.

Lemma keep_last_elem_of entries e : e ∈ keep_last entries → e ∈ entries.
Proof. apply (sublist_subseteq _ _ (keep_last_sublist entries)). Qed.

(** No accession is lost by the first step. *)
Lemma keep_last_accession entries e :
  e ∈ entries →
  ∃ e', e' ∈ keep_last entries ∧ accession (data e') = accession (data e).
Proof.
  revert e. induction entries as [|e0 rest IH]; intros e; [by intros ?%elem_of_nil|].
  rewrite keep_last_cons. intros [->|Hin]%elem_of_cons.
  - case_bool_decide as Hdup.
    + apply list_elem_of_fmap in Hdup as (e1 & Hacc & Hin1).
      destruct (IH _ Hin1) as (e' & He' & Heq). exists e'. split; [done|].
      simpl in Hacc. congruence.
    + exists e0. split; [left|done].
  - destruct (IH _ Hin) as (e' & He' & Heq). exists e'. split; [|done].
    case_bool_decide; [done|by right].
Qed.

(** The rows that stay have pairwise distinct accessions. *)
Lemma keep_last_NoDup entries : NoDup ((accession ∘ data) <$> keep_last entries).
Proof.
  induction entries as [|e0 rest IH]; [constructor|].
  rewrite keep_last_cons. case_bool_decide as Hdup; [done|].
  simpl. constructor; [|done].
  intros (e1 & Hacc & Hin1)%list_elem_of_fmap. apply Hdup.
  apply list_elem_of_fmap. exists e1. split; [done|by apply keep_last_elem_of].
Qed.

(** ** Resolution: the helper columns *)

Lemma map_result_Forall2 {A B} (f : A → result B) l :
  Forall (λ x, ∃ y, f x = Ok y) l →
  ∃ l', map_result f l = Ok l' ∧ Forall2 (λ x y, f x = Ok y) l l'.
Proof.
  induction 1 as [|x l [y Hy] _ (l' & Hl' & HF)]; simpl.
  - exists []. by split.
  - rewrite Hy. simpl. rewrite Hl'. simpl. exists (y :: l'). split; [done|].
    by constructor.
Qed.

Lemma add_id_version_Ok entries :
  entries ≠ [] →
  Forall (λ e, ∃ iv, split_accession (accession (data e)) = Ok iv) entries →
  ∃ entries2, add_id_version entries = Ok entries2
              ∧ Forall2 versioned entries entries2.
Proof.
  intros Hne Hall. unfold add_id_version.
  destruct entries as [|e0 rest] eqn:He; [done|]. rewrite <-He in *. clear He.
  edestruct (map_result_Forall2
    (λ e, '(i, v) ← split_accession (accession (data e));
          Ok (VEntry (label e) (data e) i v)) entries) as (l' & -> & HF).
  - eapply Forall_impl; [exact Hall|]. intros e [[i v] Hiv]. rewrite Hiv. simpl. eauto.
  - exists l'. split; [done|]. eapply Forall2_impl; [exact HF|].
    intros e v. simpl. unfold versioned.
    destruct (split_accession _) as [[i z]|]; simpl; [|done].
    by intros [= <-].
Qed.

(** ** Resolution: the second step *)

(** [idxmax] names a row of the group that no row of the group exceeds
    in version. *)
Lemma idxmax_from_spec best g :
  ∃ e, e ∈ best :: g ∧ idxmax_from best g = v_label e
       ∧ ∀ e', e' ∈ best :: g → v_version e' ≤ v_version e.
Proof.
  revert best. induction g as [|e0 g IH]; intros best; simpl.
  - exists best. split; [left|]. split; [done|].
    intros e' [->|[]%elem_of_nil]%elem_of_cons. lia.
  - destruct (Z.ltb_spec (v_version best) (v_version e0)).
    + destruct (IH e0) as (e & Hin & -> & Hmax). exists e.
      split; [by right|]. split; [done|].
      intros e' [->|He']%elem_of_cons; [|by apply Hmax].
      specialize (Hmax e0 ltac:(left)). lia.
    + destruct (IH best) as (e & Hin & -> & Hmax). exists e.
      split. { apply elem_of_cons in Hin as [->|?]; [left|right; by right]. }
      split; [done|].
      intros e' [->|[->|He']%elem_of_cons]%elem_of_cons.
      * apply Hmax. left.
      * specialize (Hmax best ltac:(left)). lia.
      * apply Hmax. by right.
Qed.

Lemma idxmax_spec g :
  g ≠ [] →
  ∃ e, e ∈ g ∧ idxmax g = Some (v_label e)
       ∧ ∀ e', e' ∈ g → v_version e' ≤ v_version e.
Proof.
  destruct g as [|best g]; [done|]. intros _.
  destruct (idxmax_from_spec best g) as (e & ? & ? & ?). exists e.
  simpl. repeat split; [done|by f_equal|done].
Qed.

Lemma idxmax_Some_inv g i : idxmax g = Some i → ∃ e, e ∈ g ∧ v_label e = i.
Proof.
  destruct g as [|best g]; [done|]. intros [= <-].
  destruct (idxmax_from_spec best g) as (e & ? & ? & ?). eauto.
Qed.

Lemma elem_of_group_keys entries k :
  k ∈ group_keys entries ↔ k ∈ v_id <$> entries.
Proof.
  unfold group_keys. rewrite merge_sort_Permutation. apply elem_of_remove_dups.
Qed.

Lemma elem_of_group entries k e : e ∈ group entries k ↔ v_id e = k ∧ e ∈ entries.
Proof. unfold group. by rewrite list_elem_of_filter. Qed.

Lemma elem_of_groupby_idxmax entries i :
  i ∈ groupby_idxmax entries ↔
  ∃ k, k ∈ v_id <$> entries ∧ idxmax (group entries k) = Some i.
Proof.
  unfold groupby_idxmax. rewrite list_elem_of_omap.
  by setoid_rewrite elem_of_group_keys.
Qed.

(** Whether or not rows were dropped, the rows after step two are those
    whose label [idxmax] gave. *)
Lemma second_step_elem_of entries2 e :
  let idx_to_keep := groupby_idxmax entries2 in
  e ∈ match filter (λ e, v_label e ∉ idx_to_keep) entries2 with
      | [] => entries2
      | _ => loc v_label entries2 idx_to_keep
      end ↔ e ∈ entries2 ∧ v_label e ∈ idx_to_keep.
Proof.
  intros idx_to_keep.
  destruct (filter _ entries2) as [|o os] eqn:Hf.
  - split; [|by intros []]. intros He. split; [done|].
    destruct (decide (v_label e ∈ idx_to_keep)) as [|Hn]; [done|].
    by destruct (filter_nil_not_elem_of _ _ e Hf Hn).
  - unfold loc. rewrite list_elem_of_bind. split.
    + intros (i & [<- He]%list_elem_of_filter & Hi). done.
    + intros [He Hi]. exists (v_label e). split; [|done].
      apply list_elem_of_filter. done.
Qed.

Lemma NoDup_fmap_inj_on {A B} (f : A → B) l x y :
  NoDup (f <$> l) → x ∈ l → y ∈ l → f x = f y → x = y.
Proof.
  induction l as [|a l IH]; simpl; [by intros _ ?%elem_of_nil|].
  intros [Hnotin Hnd]%NoDup_cons [->|Hx]%elem_of_cons [->|Hy]%elem_of_cons Heq;
    [done| | |by apply IH].
  - destruct Hnotin. rewrite Heq. by apply list_elem_of_fmap_2.
  - destruct Hnotin. rewrite <-Heq. by apply list_elem_of_fmap_2.
Qed.

Lemma DataFrame_of_labels rows : label <$> DataFrame_of rows = seq 0 (length rows).
Proof.
  unfold DataFrame_of. apply list_eq. intros i.
  rewrite list_lookup_fmap, list_lookup_imap.
  destruct (rows !! i) as [r|] eqn:Hi; simpl.
  - apply lookup_lt_Some in Hi. by rewrite lookup_seq_lt.
  - apply lookup_ge_None in Hi. by rewrite lookup_seq_ge.
Qed.

Lemma DataFrame_of_NoDup rows : NoDup (label <$> DataFrame_of rows).
Proof. rewrite DataFrame_of_labels. apply NoDup_seq. Qed.

Lemma elem_of_DataFrame_of rows e :
  e ∈ DataFrame_of rows ↔ rows !! label e = Some (data e).
Proof.
  unfold DataFrame_of. rewrite elem_of_lookup_imap. split.
  - by intros (i & r & -> & Hr).
  - intros H. exists (label e), (data e). split; [by destruct e|done].
Qed.

Lemma versioned_labels entries entries2 :
  Forall2 versioned entries entries2 → v_label <$> entries2 = label <$> entries.
Proof. induction 1 as [|e v ?? (? & ? & ?)]; simpl; [done|]. by f_equal. Qed.

Lemma versioned_elem_of_l entries entries2 e :
  Forall2 versioned entries entries2 → e ∈ entries →
  ∃ v, v ∈ entries2 ∧ versioned e v.
Proof.
  induction 1 as [|e0 v0 ?? Hv _ IH]; [by intros ?%elem_of_nil|].
  intros [->|Hin]%elem_of_cons.
  - exists v0. split; [left|done].
  - destruct (IH Hin) as (v & ? & ?). exists v. split; [by right|done].
Qed.

Lemma versioned_elem_of_r entries entries2 v :
  Forall2 versioned entries entries2 → v ∈ entries2 →
  ∃ e, e ∈ entries ∧ versioned e v.
Proof.
  induction 1 as [|e0 v0 ?? Hv _ IH]; [by intros ?%elem_of_nil|].
  intros [->|Hin]%elem_of_cons.
  - exists e0. split; [left|done].
  - destruct (IH Hin) as (e & ? & ?). exists e. split; [by right|done].
Qed.

(** What [duplicate_removal] returns on a frame whose accessions all
    parse: the rows of the frame after step one whose label [idxmax]
    gave. *)
Lemma duplicate_removal_kept entries :
  entries ≠ [] →
  Forall (λ e, ∃ iv, split_accession (accession (data e)) = Ok iv) entries →
  ∃ entries2 kept,
    Forall2 versioned (keep_last entries) entries2
    ∧ (duplicate_removal entries).1 = Ok kept
    ∧ ∀ k, k ∈ kept ↔
        ∃ v, v ∈ entries2 ∧ v_label v ∈ groupby_idxmax entries2
             ∧ k = drop_id_version v.
Proof.
  intros Hne Hall.
  destruct (add_id_version_Ok (keep_last entries)) as (entries2 & Hadd & HF).
  { destruct entries as [|e rest]; [done|].
    destruct (keep_last_accession (e :: rest) e) as (e' & He' & _); [left|].
    intros Hnil. rewrite Hnil in He'. by apply elem_of_nil in He'. }
  { apply Forall_forall. intros e He%keep_last_elem_of.
    by apply (proj1 (Forall_forall _ _) Hall). }
  exists entries2. eexists. split; [done|].
  unfold duplicate_removal. cbv zeta.
  rewrite first_step_keep_last, Hadd. simpl. split; [reflexivity|].
  intros k. rewrite list_elem_of_fmap. split.
  - intros (v & -> & Hv). apply second_step_elem_of in Hv as [? ?]. eauto.
  - intros (v & ? & ? & ->). exists v. split; [done|].
    by apply second_step_elem_of.
Qed.


(** C1: on the records X1.1, X1.2, X1.2 (insertion indices 0, 1, 2),
    whatever their other fields, [duplicate_removal] keeps exactly the
    record of index 2, drops the record of index 1 with reason
    "duplicate" and the record of index 0 with reason "update". *)
Theorem scenario_A (c0 c1 c2 : list (option string)) :
  duplicate_removal
    (DataFrame_of [Row "X1.1" c0; Row "X1.2" c1; Row "X1.2" c2])
  = (Ok [Entry 2 (Row "X1.2" c2)],
     [Dropped (Row "X1.2" c1) None "duplicate";
      Dropped (Row "X1.1" c0) (Some ("X1", 1)) "update"]).
Proof. reflexivity. Qed.

(** C6 fails in [duplicate_removal]: "X1.2" and "X1.02" are different
    accessions of one identifier and one version, both survive the first
    step, and [idxmax] keeps the first of them (index 0), not the most
    recently supplied one. *)
Theorem duplicate_removal_tie_keeps_first (c0 c1 : list (option string)) :
  duplicate_removal (DataFrame_of [Row "X1.2" c0; Row "X1.02" c1])
  = (Ok [Entry 0 (Row "X1.2" c0)],
     [Dropped (Row "X1.02" c1) (Some ("X1", 2)) "update"]).
Proof. reflexivity. Qed.

(** On the same records [post_process_metadata] keeps the one of index 1,
    as its comment on tied highest versions says. *)
Lemma post_process_metadata_tie_keeps_last :
  (post_process_metadata false
     (Some (Csv [Row "X1.2" [Some "old"]; Row "X1.02" [Some "new"]]))).1
  = Ok (Some (Csv [Row "X1.02" [Some "new"]]), [Row "X1.2" [Some "old"]]).
Proof. vm_compute. reflexivity. Qed.

(** ** Post-processing of the metadata table *)

Lemma compare_Lt_trans a b c :
  String.compare a b = Lt → String.compare b c = Lt → String.compare a c = Lt.
Proof.
  intros Hab%String_as_OT.cmp_lt Hbc%String_as_OT.cmp_lt.
  apply String_as_OT.cmp_lt. by eapply String_as_OT.lt_trans.
Qed.

#[global] Instance sort_le_total : Total sort_le.
Proof.
  intros a b. unfold sort_le.
  rewrite (String.compare_antisym (v_id b) (v_id a)).
  destruct (String.compare (v_id a) (v_id b)); simpl; [lia|by left|by right].
Qed.

#[global] Instance sort_le_trans : Transitive sort_le.
Proof.
  intros a b c. unfold sort_le.
  destruct (String.compare (v_id a) (v_id b)) eqn:Hab; [| |done].
  - apply String.compare_eq_iff in Hab. rewrite Hab.
    destruct (String.compare (v_id b) (v_id c)); [lia|done|done].
  - destruct (String.compare (v_id b) (v_id c)) eqn:Hbc; [| |done].
    + apply String.compare_eq_iff in Hbc. rewrite <-Hbc, Hab. done.
    + by rewrite (compare_Lt_trans _ _ _ Hab Hbc).
Qed.

(** Rows of one identifier are sorted by falling version, then by rising
    index. *)
Lemma sort_le_same_id a b :
  v_id a = v_id b → sort_le a b →
  v_version b < v_version a
  ∨ (v_version a = v_version b ∧ (v_label a ≤ v_label b)%nat).
Proof.
  intros Hid. unfold sort_le.
  pose proof (proj2 (String_as_OT.cmp_eq _ _) Hid) as Heq.
  unfold String_as_OT.cmp in Heq. by rewrite Heq.
Qed.

Lemma StronglySorted_filter {A} (R : A → A → Prop) (P : A → Prop)
    `{!∀ x, Decision (P x)} l :
  StronglySorted R l → StronglySorted R (filter P l).
Proof.
  induction 1 as [|x l _ IH HF]; [constructor|]. rewrite filter_cons.
  destruct (decide (P x)); [|done]. constructor; [done|].
  apply Forall_forall. intros y [_ Hy]%list_elem_of_filter.
  by apply (proj1 (Forall_forall _ _) HF).
Qed.

Lemma max_index_spec g :
  g ≠ [] →
  ∃ e, e ∈ g ∧ v_label e = max_index g
       ∧ ∀ e', e' ∈ g → (v_label e' ≤ max_index g)%nat.
Proof.
  unfold max_index. induction g as [|a g IH]; [done|]. intros _.
  destruct g as [|b g'].
  - exists a. simpl. split; [left|]. split; [lia|].
    intros e' [->|[]%elem_of_nil]%elem_of_cons. lia.
  - destruct IH as (e & He & Hl & Hmax); [done|].
    set (m := foldr Nat.max 0%nat (v_label <$> b :: g')) in *.
    change (foldr Nat.max 0%nat (v_label <$> a :: b :: g'))
      with (Nat.max (v_label a) m).
    destruct (Nat.max_spec (v_label a) m) as [[Hlt ->]|[Hge ->]].
    + exists e. split; [by right|]. split; [done|].
      intros e' [->|He']%elem_of_cons; [lia|by apply Hmax].
    + exists a. split; [left|]. split; [done|].
      intros e' [->|He']%elem_of_cons; [lia|].
      specialize (Hmax e' He'). lia.
Qed.

Lemma filter_none {A} (P : A → Prop) `{!∀ x, Decision (P x)} (l : list A) :
  (∀ x, x ∈ l → ¬ P x) → filter P l = [].
Proof.
  induction l as [|a l IH]; [done|]. intros Hno.
  rewrite filter_cons_False by (apply Hno; left).
  apply IH. intros x Hx. apply Hno. by right.
Qed.

Lemma filter_by_key_singleton {A B} `{EqDecision B} (f : A → B) l x :
  NoDup (f <$> l) → x ∈ l → filter (λ e, f e = f x) l = [x].
Proof.
  induction l as [|a l IH]; [by intros _ ?%elem_of_nil|].
  rewrite fmap_cons. intros [Hnotin Hnd]%NoDup_cons Hx.
  assert (f x ∉ f <$> l → filter (λ e, f e = f x) l = []) as Hnone.
  { intros Hn. apply filter_none. intros e He Heq.
    apply Hn. rewrite <-Heq. by apply list_elem_of_fmap_2. }
  apply elem_of_cons in Hx as [->|Hx].
  - rewrite filter_cons_True by done. by rewrite Hnone.
  - rewrite filter_cons_False; [by apply IH|].
    intros Heq. apply Hnotin. rewrite Heq. by apply list_elem_of_fmap_2.
Qed.

Lemma keep_of_group_rows logger best others :
  (keep_of_group logger (best :: others)).1
  = filter
      (λ r, v_label r
            = max_index (filter (λ r, v_version r = v_version best) (best :: others)))
      (filter (λ r, v_version r = v_version best) (best :: others)).
Proof. reflexivity. Qed.

(** The rows kept for a group: the one row of highest version and, among
    the rows of that version, of highest index. *)
Lemma keep_of_group_spec logger g id :
  g ≠ [] → (∀ e, e ∈ g → v_id e = id) →
  StronglySorted sort_le g → NoDup (v_label <$> g) →
  ∃ k, (keep_of_group logger g).1 = [k] ∧ k ∈ g
       ∧ ∀ e, e ∈ g →
           v_version e < v_version k
           ∨ (v_version e = v_version k ∧ (v_label e ≤ v_label k)%nat).
Proof.
  intros Hne Hid Hsorted Hnd. destruct g as [|best others]; [done|].
  rewrite keep_of_group_rows. set (g := best :: others) in *.
  set (mvr := filter (λ r, v_version r = v_version best) g).
  assert (best ∈ mvr) as Hbest by (apply list_elem_of_filter; split; [done|left]).
  destruct (max_index_spec mvr) as (k & Hk & Hlab & Hmax).
  { intros Hnil. rewrite Hnil in Hbest. by apply elem_of_nil in Hbest. }
  exists k. split.
  - rewrite <-Hlab. apply filter_by_key_singleton; [|done].
    eapply sublist_NoDup; [exact Hnd|]. apply fmap_sublist, sublist_filter.
  - apply list_elem_of_filter in Hk as Hk'. destruct Hk' as [Hkv Hkg].
    split; [done|]. intros e He.
    assert (v_version e < v_version best
            ∨ (v_version best = v_version e ∧ (v_label best ≤ v_label e)%nat)) as Hle.
    { apply elem_of_cons in He as [->|He]; [right; split; [done|lia]|].
      apply StronglySorted_cons in Hsorted as [HF _].
      apply sort_le_same_id; [|by apply (proj1 (Forall_forall _ _) HF)].
      rewrite (Hid best), (Hid e); [done|by right|left]. }
    destruct Hle as [Hlt|[Heq _]]; [left; lia|]. right. split; [lia|].
    rewrite Hlab. apply Hmax. apply list_elem_of_filter. split; [done|].
    apply elem_of_cons in He as [->|He]; [left|by right].
Qed.

Lemma filter_bind_one {A B K} (P : B → Prop) `{!∀ x, Decision (P x)}
    (F : K → list A) (h : A → B) (keys : list K) (k0 : K) (x0 : A) :
  NoDup keys → k0 ∈ keys → F k0 = [x0] → P (h x0) →
  (∀ k x, k ∈ keys → x ∈ F k → P (h x) → k = k0) →
  filter P (h <$> (keys ≫= F)) = [h x0].
Proof.
  intros Hnd Hin HF HP. induction Hnd as [|k keys Hnotin Hnd IH]; intros Honly.
  { by apply elem_of_nil in Hin. }
  rewrite bind_cons, fmap_app, filter_app.
  apply elem_of_cons in Hin as [<-|Hin].
  - rewrite HF. simpl. rewrite filter_cons_True, filter_nil by done.
    rewrite filter_none; [done|].
    intros y (x & -> & (k & Hx & Hk)%list_elem_of_bind)%list_elem_of_fmap Hy.
    apply Hnotin. rewrite <-(Honly k x); [done|by right|done|done].
  - rewrite (filter_none P (h <$> F k)).
    + apply IH; [done|]. intros k' x Hk'. apply Honly. by right.
    + intros y (x & -> & Hx)%list_elem_of_fmap Hy.
      apply Hnotin. rewrite (Honly k x); [done|left|done|done].
Qed.

Lemma keep_of_group_subseteq logger g x :
  x ∈ (keep_of_group logger g).1 → x ∈ g.
Proof.
  destruct g as [|best others]; [done|]. rewrite keep_of_group_rows.
  by intros [_ [_ ?]%list_elem_of_filter]%list_elem_of_filter.
Qed.

Lemma map_result_Forall2_Ok {A B} (f : A → result B) l l' :
  Forall2 (λ x y, f x = Ok y) l l' → map_result f l = Ok l'.
Proof.
  induction 1 as [|x y l l' Hx _ IH]; [done|].
  cbn [map_result]. rewrite Hx. simpl. by rewrite IH.
Qed.

Lemma map_result_inv {A B} (f : A → result B) l l' :
  map_result f l = Ok l' → Forall2 (λ x y, f x = Ok y) l l'.
Proof.
  revert l'. induction l as [|x l IH]; intros l'; cbn [map_result].
  - intros [= <-]. constructor.
  - destruct (f x) as [y|e] eqn:Hx; simpl; [|done].
    destruct (map_result f l) as [ys|e] eqn:Hl; simpl; [|done].
    intros [= <-]. constructor; [done|by apply IH].
Qed.

(** Where every accession cell is filled and parses, a table read by
    [pd.read_csv] gets the helper columns that [add_id_version] gives;
    and only there. *)
Lemma add_id_version_cells_Ok entries entries2 :
  add_id_version_cells entries = Ok entries2
  ↔ add_id_version entries = Ok entries2.
Proof.
  assert (∀ e y,
            ('(i, v) ← split_accession_cell (accession (data e));
             Ok (VEntry (label e) (data e) i v)) = Ok y
            ↔ ('(i, v) ← split_accession (accession (data e));
               Ok (VEntry (label e) (data e) i v)) = Ok y) as Hext.
  { intros e y. unfold split_accession_cell.
    destruct (accession (data e)) as [|c a]; [|done].
    split; intros H; vm_compute in H; discriminate. }
  unfold add_id_version_cells, add_id_version.
  destruct entries as [|e0 rest]; [done|].
  split; intros HF%map_result_inv; apply map_result_Forall2_Ok;
    (eapply Forall2_impl; [exact HF|]); intros e y; apply Hext.
Qed.

Lemma post_process_metadata_rows logger rows meta_df0 :
  add_id_version (DataFrame_of rows) = Ok meta_df0 →
  let meta_df := merge_sort sort_le meta_df0 in
  ∃ removed,
    (post_process_metadata logger (Some (Csv rows))).1
    = Ok (Some (Csv (v_data <$>
                       (group_keys meta_df
                          ≫= λ k, (keep_of_group logger (group meta_df k)).1))),
          removed).
Proof.
  intros Hadd meta_df. unfold post_process_metadata. cbn [read_csv].
  rewrite (proj2 (add_id_version_cells_Ok _ _) Hadd). cbn [fst]. eexists. rewrite list_fmap_bind. reflexivity.
Qed.

(** In [post_process_metadata], too, the record kept for an identifier
    has the greatest version of the input records of that identifier;
    and among the records of that version it is the one of highest
    insertion index. There is exactly one such record in the table
    written. *)
Theorem post_process_metadata_keeps_latest_max logger (rows : list row) :
  Forall (λ r, ∃ iv, split_accession (accession r) = Ok iv) rows →
  rows ≠ [] →
  ∃ final removed,
    (post_process_metadata logger (Some (Csv rows))).1
    = Ok (Some (Csv final), removed)
    ∧ ∀ id i r v,
        rows !! i = Some r → split_accession (accession r) = Ok (id, v) →
        ∃ j k vk,
          rows !! j = Some k
          ∧ split_accession (accession k) = Ok (id, vk)
          ∧ filter (λ r', id_of r' = Some id) final = [k]
          ∧ ∀ i' r' v',
              rows !! i' = Some r' →
              split_accession (accession r') = Ok (id, v') →
              v' < vk ∨ (v' = vk ∧ (i' ≤ j)%nat).
Proof.
  intros Hall Hne. set (entries := DataFrame_of rows).
  destruct (add_id_version_Ok entries) as (meta_df0 & Hadd & HF).
  { destruct rows; [done|]. done. }
  { apply Forall_forall. intros e He%elem_of_DataFrame_of.
    apply (proj1 (Forall_forall _ _) Hall), list_elem_of_lookup. eauto. }
  destruct (post_process_metadata_rows logger rows meta_df0 Hadd) as [removed Hret].
  set (meta_df := merge_sort sort_le meta_df0) in *.
  assert (meta_df ≡ₚ meta_df0) as Hperm by apply merge_sort_Permutation.
  assert (StronglySorted sort_le meta_df) as Hsorted
    by apply (StronglySorted_merge_sort sort_le).
  assert (NoDup (v_label <$> meta_df)) as Hnd.
  { rewrite Hperm, (versioned_labels _ _ HF). apply DataFrame_of_NoDup. }
  assert (∀ x, x ∈ meta_df →
            rows !! v_label x = Some (v_data x)
            ∧ split_accession (accession (v_data x)) = Ok (v_id x, v_version x))
    as Hmeta.
  { intros x Hx. rewrite Hperm in Hx.
    destruct (versioned_elem_of_r _ _ _ HF Hx) as (e & He & Hl & Hd & Hs).
    rewrite Hl, Hd. split; [by apply elem_of_DataFrame_of|done]. }
  assert (∀ i r id v, rows !! i = Some r →
            split_accession (accession r) = Ok (id, v) →
            ∃ w, w ∈ meta_df ∧ v_label w = i ∧ v_id w = id ∧ v_version w = v)
    as Hin.
  { intros i r id v Hi Hs.
    destruct (versioned_elem_of_l entries meta_df0 (Entry i r) HF)
      as (w & Hw & Hl & Hd & Hsw); [by apply elem_of_DataFrame_of|].
    exists w. rewrite Hperm. simpl in *. rewrite Hs in Hsw. by simplify_eq. }
  eexists _, removed. split; [exact Hret|]. intros id i r v Hi Hs.
  destruct (Hin i r id v Hi Hs) as (w & Hw & _ & Hwid & _).
  destruct (keep_of_group_spec logger (group meta_df id) id)
    as (k & Hkeep & Hk & Hmax).
  { intros Hnil. assert (w ∈ group meta_df id) as Hwg by by apply elem_of_group.
    rewrite Hnil in Hwg. by apply elem_of_nil in Hwg. }
  { by intros e [? _]%elem_of_group. }
  { by apply StronglySorted_filter. }
  { eapply sublist_NoDup; [exact Hnd|]. apply fmap_sublist, sublist_filter. }
  apply elem_of_group in Hk as [Hkid Hk].
  destruct (Hmeta k Hk) as [Hkrow Hksplit].
  exists (v_label k), (v_data k), (v_version k).
  split; [done|]. split; [by rewrite Hksplit, Hkid|]. split.
  - apply (filter_bind_one _ _ v_data _ id k); try done.
    + unfold group_keys. rewrite merge_sort_Permutation. apply NoDup_remove_dups.
    + apply elem_of_group_keys. rewrite <-Hwid. by apply list_elem_of_fmap_2.
    + unfold id_of. by rewrite Hksplit, Hkid.
    + intros k' x _ [Hxid Hx]%keep_of_group_subseteq%elem_of_group.
      unfold id_of. destruct (Hmeta x Hx) as [_ ->]. congruence.
  - intros i' r' v' Hi' Hs'.
    destruct (Hin i' r' id v' Hi' Hs') as (w' & Hw' & <- & Hw'id & <-).
    apply Hmax. by apply elem_of_group.
Qed.

Lemma post_process_metadata_keeps_latest_max_witness :
  ∃ final removed,
    (post_process_metadata false
       (Some (Csv [Row "Y9.2" [Some "a"]; Row "Z1.1" []; Row "Y9.02" [Some "b"];
                   Row "Y9.1" [Some "c"]]))).1
    = Ok (Some (Csv final), removed)
    ∧ filter (λ r', id_of r' = Some "Y9") final = [Row "Y9.02" [Some "b"]].
Proof.
  destruct (post_process_metadata_keeps_latest_max false
              [Row "Y9.2" [Some "a"]; Row "Z1.1" []; Row "Y9.02" [Some "b"];
               Row "Y9.1" [Some "c"]])
    as (final & removed & Hret & Hkept).
  - repeat constructor; eexists; reflexivity.
  - discriminate.
  - exists final, removed. split; [exact Hret|].
    destruct (Hkept "Y9" 0%nat (Row "Y9.2" [Some "a"]) 2 eq_refl eq_refl)
      as (j & k & vk & Hj & Hk & Hfilter & Hmax).
    rewrite Hfilter. f_equal.
    pose proof (Hmax 2%nat (Row "Y9.02" [Some "b"]) 2 eq_refl eq_refl) as H2.
    pose proof (Hmax 0%nat (Row "Y9.2" [Some "a"]) 2 eq_refl eq_refl) as H0.
    destruct j as [|[|[|[|j]]]]; simpl in Hj; [..|discriminate];
      injection Hj as <-; vm_compute in Hk;
      [injection Hk as <-; lia|discriminate|done|injection Hk as <-; lia].
Defined.

(** ** The ledger *)

Lemma fromkeys_from_spec seen l :
  Py.fromkeys_from seen l = filter (λ x, x ∉ seen) (first_occurrences l).
Proof.
  revert seen. induction l as [|x l IH]; intros seen; simpl; [done|].
  destruct (decide (x ∈ seen)) as [Hx|Hx].
  - rewrite filter_cons_False by (intros H; by apply H).
    rewrite IH, list_filter_filter. apply list_filter_iff.
    intros y. split; [|tauto]. intros Hy. split; [done|]. by intros ->.
  - rewrite filter_cons_True by done. f_equal.
    rewrite IH, list_filter_filter. apply list_filter_iff.
    intros y. set_solver.
Qed.

(** [list(dict.fromkeys(l))] is the order-preserving union of the design
    document. *)
Lemma fromkeys_first_occurrences l : Py.fromkeys l = first_occurrences l.
Proof.
  unfold Py.fromkeys. rewrite fromkeys_from_spec.
  induction (first_occurrences l) as [|x k IH]; [done|].
  rewrite filter_cons_True by set_solver. by f_equal.
Qed.

Lemma elem_of_first_occurrences l x : x ∈ first_occurrences l ↔ x ∈ l.
Proof.
  induction l as [|y l IH]; simpl; [done|].
  rewrite !elem_of_cons, list_elem_of_filter, IH.
  destruct (decide (x = y)); naive_solver.
Qed.

Lemma first_occurrences_NoDup l : NoDup (first_occurrences l).
Proof.
  induction l as [|y l IH]; simpl; constructor.
  - rewrite list_elem_of_filter. naive_solver.
  - by apply NoDup_filter.
Qed.

Lemma first_occurrences_sublist l : first_occurrences l `sublist_of` l.
Proof.
  induction l as [|y l IH]; simpl; [done|].
  apply sublist_skip. etrans; [apply sublist_filter|done].
Qed.

Lemma first_occurrences_app l1 l2 :
  first_occurrences (l1 ++ l2)%list
  = (first_occurrences l1 ++ filter (λ x, x ∉ l1) (first_occurrences l2))%list.
Proof.
  induction l1 as [|y l1 IH]; simpl.
  - symmetry. induction (first_occurrences l2) as [|x k IHk]; [done|].
    rewrite filter_cons_True by apply not_elem_of_nil. by f_equal.
  - f_equal. rewrite IH, filter_app. f_equal.
    rewrite list_filter_filter. apply list_filter_iff.
    intros x. rewrite not_elem_of_cons. tauto.
Qed.

Lemma first_occurrences_id l : NoDup l → first_occurrences l = l.
Proof.
  induction 1 as [|x l Hx _ IH]; simpl; [done|]. f_equal. rewrite IH.
  clear IH. induction l as [|y l IH]; [done|].
  apply not_elem_of_cons in Hx as [Hne Hx].
  rewrite filter_cons_True by done. f_equal. by apply IH.
Qed.

(** C3 (as the code has it): [save_processed_ids] writes the
    order-preserving, first-occurrence-wins union of the newly processed
    accessions followed by the prior snapshot: the new accessions come
    first, then the prior ones that are not among the new. With prior
    snapshot A1.1, B2.3 and new batch B2.3, C3.1 the saved snapshot is
    B2.3, C3.1, A1.1. *)
Theorem save_processed_ids_union :
  (∀ processed_ids PROCESSED_IDS_DIR old_processed_ids,
     (load_processed_ids false PROCESSED_IDS_DIR).1 = Ok old_processed_ids →
     ∃ saved,
       save_processed_ids processed_ids PROCESSED_IDS_DIR = Ok (Lines saved)
       ∧ saved = first_occurrences (processed_ids ++ old_processed_ids)%list
       ∧ saved = (first_occurrences processed_ids
                  ++ filter (λ x, x ∉ processed_ids)
                       (first_occurrences old_processed_ids))%list
       ∧ NoDup saved
       ∧ (∀ x, x ∈ saved ↔ x ∈ processed_ids ∨ x ∈ old_processed_ids)
       ∧ saved `sublist_of` (processed_ids ++ old_processed_ids)%list)
  ∧ save_processed_ids ["B2.3"; "C3.1"]
      (Listing [LedgerFile "processed_ids.txt" (Some 0) (Lines ["A1.1"; "B2.3"])])
    = Ok (Lines ["B2.3"; "C3.1"; "A1.1"]).
Proof.
  split; [|reflexivity].
  intros new dir old Hold. unfold save_processed_ids. rewrite Hold. simpl.
  eexists. split; [reflexivity|]. rewrite fromkeys_first_occurrences.
  split; [done|]. split; [apply first_occurrences_app|].
  split; [apply first_occurrences_NoDup|].
  split; [|apply first_occurrences_sublist].
  intros x. by rewrite elem_of_first_occurrences, elem_of_app.
Qed.

Lemma save_processed_ids_union_witness :
  ∃ saved,
    save_processed_ids ["C3.1"; "C3.1"; "A1.1"]
      (Listing [LedgerFile "old.txt" (Some 1) (Lines ["Q7.1"]);
                LedgerFile "new.txt" (Some 2) (Lines ["A1.1 "; "B2.3"])])
      = Ok (Lines saved)
    ∧ saved = ["C3.1"; "A1.1"; "B2.3"].
Proof.
  destruct (proj1 save_processed_ids_union ["C3.1"; "C3.1"; "A1.1"]
              (Listing [LedgerFile "old.txt" (Some 1) (Lines ["Q7.1"]);
                        LedgerFile "new.txt" (Some 2) (Lines ["A1.1 "; "B2.3"])])
              ["A1.1"; "B2.3"])
    as (saved & Hsave & Heq & _).
  - reflexivity.
  - exists saved. split; [exact Hsave|]. rewrite Heq. reflexivity.
Defined.

(** C3 (as stated) fails: with prior snapshot A1.1, B2.3 and new batch
    B2.3, C3.1 the saved snapshot is not A1.1, B2.3, C3.1. *)
Lemma save_processed_ids_scenario_B_differs :
  save_processed_ids ["B2.3"; "C3.1"]
    (Listing [LedgerFile "processed_ids.txt" (Some 0) (Lines ["A1.1"; "B2.3"])])
  ≠ Ok (Lines ["A1.1"; "B2.3"; "C3.1"]).
Proof. vm_compute. discriminate. Qed.

(** ** Loading the dictionaries *)

Section load_loop.
Variable parse : string → result (string * Z).

Local Abbreviation body :=
  (λ (d : gmap string Z) (line : string),
     '(k, v) ← parse line; Ok (<[k := v]> d)).

Lemma for_each_parsed lines kvs d :
  Forall2 (λ line kv, parse line = Ok kv) lines kvs →
  for_each body lines d = Ok (assign_all d kvs).
Proof.
  intros HF. revert d. induction HF as [|line [k v] lines kvs Hp _ IH]; intros d.
  - done.
  - cbn [for_each]. rewrite Hp. simpl. apply IH.
Qed.

Lemma for_each_malformed lines d :
  Exists (λ line, ∃ e, parse line = Raise e) lines →
  ∃ e, for_each body lines d = Raise e.
Proof.
  intros HE. revert d. induction lines as [|line lines IH]; intros d.
  - by apply Exists_nil in HE.
  - cbn [for_each]. destruct (parse line) as [[k v]|e] eqn:Hp; simpl.
    + apply IH. apply Exists_cons in HE as [[e He]|]; [congruence|done].
    + eauto.
Qed.

End load_loop.

Lemma assign_all_app d kvs1 kvs2 :
  assign_all d (kvs1 ++ kvs2)%list = assign_all (assign_all d kvs1) kvs2.
Proof. apply foldl_app. Qed.

Lemma assign_all_lookup_ne d kvs k :
  Forall (λ kv, kv.1 ≠ k) kvs → assign_all d kvs !! k = d !! k.
Proof.
  intros HF. revert d. induction HF as [|[k' v'] kvs Hne _ IH]; intros d; [done|].
  simpl in *. fold (assign_all (<[k' := v']> d) kvs). rewrite IH.
  by apply lookup_insert_ne.
Qed.

(** The value of a key is that of its last assignment. *)
Lemma assign_all_lookup_last d kvs1 k v kvs2 :
  Forall (λ kv, kv.1 ≠ k) kvs2 →
  assign_all d (kvs1 ++ (k, v) :: kvs2)%list !! k = Some v.
Proof.
  intros HF. rewrite assign_all_app. simpl.
  fold (assign_all (<[k := v]> (assign_all d kvs1)) kvs2).
  rewrite assign_all_lookup_ne by done. apply lookup_insert_eq.
Qed.

Lemma parsed_lines lines (parse : string → result (string * Z)) :
  Forall (λ l, ∃ kv, parse l = Ok kv) lines →
  ∃ kvs, Forall2 (λ line kv, parse line = Ok kv) lines kvs.
Proof.
  induction 1 as [|l lines [kv Hkv] _ [kvs IH]].
  - exists []. constructor.
  - exists (kv :: kvs). by constructor.
Qed.

Lemma load_removed_versions_lines header lines :
  load_removed_versions (Some (Lines (header :: lines)))
  = (d ← for_each
           (λ (d : gmap string Z) line,
              '(k, v) ← parse_removed_line line; Ok (<[k := v]> d))
           lines ∅;
     Ok (PyDict d)).
Proof. reflexivity. Qed.

Lemma max_by_ctime_from_raises best t files :
  Exists (λ f, ctime f = None) files →
  max_by_ctime_from best t files = Raise OSError.
Proof.
  intros HE. revert best t. induction files as [|f files IH]; intros best t.
  - by apply Exists_nil in HE.
  - cbn [max_by_ctime_from]. unfold getctime.
    destruct (ctime f) as [tf|] eqn:Hf; simpl; [|done].
    apply Exists_cons in HE as [?|HE]; [congruence|].
    destruct (t <? tf); by apply IH.
Qed.

(** The key of [max] is computed for every file: one file whose creation
    time cannot be read makes the search raise. *)
Lemma max_by_ctime_raises files :
  Exists (λ f, ctime f = None) files → max_by_ctime files = Raise OSError.
Proof.
  destruct files as [|f files]; [by intros ?%Exists_nil|].
  intros HE. cbn [max_by_ctime]. unfold getctime.
  destruct (ctime f) as [tf|] eqn:Hf; simpl; [|done].
  apply Exists_cons in HE as [?|HE]; [congruence|].
  by rewrite max_by_ctime_from_raises.
Qed.

(** C9 (as the code has it): a malformed line, or a file that cannot be
    read, makes [load_local_versions] and [load_removed_versions] raise,
    as does an empty removed log; a latest ledger snapshot that cannot be
    read makes [load_processed_ids] raise. But when the ledger directory
    cannot be listed, or the creation time of one of its snapshots cannot
    be read, [load_processed_ids] returns the empty list, and the only
    trace is an error message when a logger was passed. *)
Theorem load_failures :
  (∀ lines,
     Exists (λ l, ∃ e, parse_version_line l = Raise e) lines →
     ∃ e, load_local_versions (Some (Lines lines)) = Raise e)
  ∧ load_local_versions (Some Unreadable) = Raise OSError
  ∧ (∀ header lines,
       Exists (λ l, ∃ e, parse_removed_line l = Raise e) lines →
       ∃ e, load_removed_versions (Some (Lines (header :: lines))) = Raise e)
  ∧ load_removed_versions (Some Unreadable) = Raise OSError
  ∧ load_removed_versions (Some (Lines [])) = Raise StopIteration
  ∧ (∀ logger dir f out,
       find_latest_processed_ids_file logger dir = (Some f, out) →
       content f = Unreadable →
       (load_processed_ids logger dir).1 = Raise OSError)
  ∧ (∀ logger,
       load_processed_ids logger NoListing
       = (Ok [], log logger ERROR (ErrorFindingLatest OSError)))
  ∧ (∀ logger files,
       Exists (λ f, Py.endswith (name f) ".txt" = true ∧ ctime f = None) files →
       load_processed_ids logger (Listing files)
       = (Ok [], log logger ERROR (ErrorFindingLatest OSError))).
Proof.
  repeat split; try done.
  - intros lines HE. unfold load_local_versions, parse_version_line. simpl.
    by apply (for_each_malformed parse_version_line).
  - intros header lines HE. rewrite load_removed_versions_lines.
    destruct (for_each_malformed parse_removed_line lines ∅ HE) as [e He].
    exists e. by rewrite He.
  - intros logger dir f out Hfind Hf. unfold load_processed_ids.
    rewrite Hfind, Hf. done.
  - intros logger files HE. unfold load_processed_ids, find_latest_processed_ids_file.
    simpl.
    assert (Exists (λ f, ctime f = None)
              (filter (λ f, Py.endswith (name f) ".txt" = true) files)) as HE'.
    { apply Exists_exists in HE as (f & Hf & Htxt & Hc).
      apply Exists_exists. exists f. split; [|done].
      apply list_elem_of_filter. done. }
    destruct (filter _ files) as [|f0 fs] eqn:Hfilter; [by apply Exists_nil in HE'|].
    by rewrite (max_by_ctime_raises _ HE').
Qed.

Lemma load_failures_witness :
  (∃ e, load_local_versions (Some (Lines ["A1.1"; "B2"; "C3.1"])) = Raise e)
  ∧ (∃ e, load_removed_versions
            (Some (Lines ["accession,filter"; "A1.1,short"; "corrupt"])) = Raise e)
  ∧ (load_processed_ids true
       (Listing [LedgerFile "ids.txt" (Some 7) Unreadable])).1 = Raise OSError
  ∧ load_processed_ids true
      (Listing [LedgerFile "a.txt" (Some 7) (Lines ["A1.1"]);
                LedgerFile "b.txt" None (Lines ["B2.1"])])
    = (Ok [], [(ERROR, ErrorFindingLatest OSError)]).
Proof.
  destruct load_failures as (Hlocal & _ & Hremoved & _ & _ & Hsnap & _ & Hctime).
  split; [|split; [|split]].
  - apply Hlocal. apply Exists_cons_tl, Exists_cons_hd. eexists. reflexivity.
  - apply Hremoved. apply Exists_cons_tl, Exists_cons_hd. eexists. reflexivity.
  - eapply Hsnap; reflexivity.
  - apply (Hctime true). apply Exists_cons_tl, Exists_cons_hd. split; reflexivity.
Defined.

(** C9 (as stated) fails: a snapshot with two processed accessions exists,
    its creation time cannot be read, and [load_processed_ids] without a
    logger returns the empty list and reports nothing. *)
Lemma load_processed_ids_silent_fallback :
  load_processed_ids false
    (Listing [LedgerFile "processed_ids.txt" None (Lines ["A1.1"; "B2.3"])])
  = (Ok [], []).
Proof. reflexivity. Qed.

(** ** Pruning: [strip] and the lines of the version index *)

Section strip_facts.
Variable sp : ascii → bool.

Lemma lstrip_by_head s :
  match Py.lstrip_by sp s with
  | String c _ => sp c = false
  | EmptyString => True
  end.
Proof.
  induction s as [|c s IH]; simpl; [done|].
  by destruct (sp c) eqn:Hc; simpl.
Qed.

Lemma rstrip_by_not_all s :
  Py.all_chars sp s = false → Py.all_chars sp (Py.rstrip_by sp s) = false.
Proof.
  induction s as [|c s IH]; [done|]. intros Hs.
  cbn [Py.rstrip_by]. rewrite Hs. simpl in *.
  destruct (sp c); simpl in *; [by apply IH|done].
Qed.

Lemma rstrip_by_idem s :
  Py.rstrip_by sp (Py.rstrip_by sp s) = Py.rstrip_by sp s.
Proof.
  induction s as [|c s IH]; [done|].
  destruct (Py.all_chars sp (String c s)) eqn:Hs.
  - cbn [Py.rstrip_by]. by rewrite Hs.
  - pose proof (rstrip_by_not_all _ Hs) as Hr.
    cbn [Py.rstrip_by] in *. rewrite Hs in *.
    cbn [Py.rstrip_by]. rewrite Hr. by rewrite IH.
Qed.

Lemma lstrip_rstrip_lstrip s :
  Py.lstrip_by sp (Py.rstrip_by sp (Py.lstrip_by sp s))
  = Py.rstrip_by sp (Py.lstrip_by sp s).
Proof.
  pose proof (lstrip_by_head s) as Hhead.
  destruct (Py.lstrip_by sp s) as [|c t]; [done|].
  cbn [Py.rstrip_by Py.all_chars]. rewrite Hhead. simpl. by rewrite Hhead.
Qed.
End strip_facts.

Lemma strip_idem s : Py.strip (Py.strip s) = Py.strip s.
Proof. unfold Py.strip. by rewrite lstrip_rstrip_lstrip, rstrip_by_idem. Qed.

Lemma filter_length_eq {A} (P : A → Prop) `{!∀ x, Decision (P x)} (l : list A) :
  length (filter P l) = length l → filter P l = l.
Proof.
  induction l as [|x l IH]; [done|]. rewrite filter_cons.
  destruct (decide (P x)); simpl.
  - intros [= Hlen]. by rewrite IH.
  - pose proof (length_filter P l). lia.
Qed.

Lemma filter_id {A} (P : A → Prop) `{!∀ x, Decision (P x)} (l : list A) :
  Forall P l → filter P l = l.
Proof.
  induction 1 as [|x l Hx _ IH]; [done|]. rewrite filter_cons_True by done.
  by rewrite IH.
Qed.

(** Lines that are stripped and not blank are read back as they are. *)
Lemma stripped_lines_id lines :
  Forall (λ ln, Py.strip ln = ln ∧ ln ≠ EmptyString) lines →
  stripped_lines lines = lines.
Proof.
  intros HF. unfold stripped_lines.
  assert (Py.strip <$> lines = lines) as Heq.
  { induction HF as [|ln lines [Hs _] _ IH]; [done|].
    rewrite fmap_cons. by f_equal. }
  rewrite Heq. apply filter_id. eapply Forall_impl; [exact HF|]. by intros ln [_ ?].
Qed.

Lemma stripped_lines_stripped lines :
  Forall (λ ln, Py.strip ln = ln ∧ ln ≠ EmptyString) (stripped_lines lines).
Proof.
  apply Forall_forall. intros ln [Hne Hin]%list_elem_of_filter.
  apply list_elem_of_fmap in Hin as (raw & -> & _). split; [apply strip_idem|done].
Qed.

Lemma stripped_lines_filter (P : string → Prop) `{!∀ x, Decision (P x)} lines :
  stripped_lines (filter P (stripped_lines lines)) = filter P (stripped_lines lines).
Proof.
  apply stripped_lines_id. apply Forall_forall.
  intros ln [_ Hin]%list_elem_of_filter.
  by apply (proj1 (Forall_forall _ _) (stripped_lines_stripped lines)).
Qed.

(** ** Pruning: the four blocks *)

(** The version index after its block: the file is rewritten with the
    lines kept, or left as it is when no line goes. *)
Lemma clean_ids_file_lines keep_set logger lines :
  ∃ lines',
    (clean_ids_file keep_set logger (Some (Lines lines))).1 = Some (Lines lines')
    ∧ stripped_lines lines' = filter (λ ln, ln ∈ keep_set) (stripped_lines lines)
    ∧ (lines' = lines ∨ lines' = filter (λ ln, ln ∈ keep_set) (stripped_lines lines)).
Proof.
  unfold clean_ids_file. simpl.
  destruct (Nat.ltb_spec
              (length (filter (λ ln, ln ∈ keep_set) (stripped_lines lines)))
              (length (stripped_lines lines))) as [Hlt|Hge]; simpl.
  - eexists. split; [done|]. split; [|by right]. apply stripped_lines_filter.
  - exists lines. split; [done|]. split; [|by left].
    symmetry. apply filter_length_eq.
    pose proof (length_filter (λ ln, ln ∈ keep_set) (stripped_lines lines)). lia.
Qed.

Lemma clean_ids_file_other keep_set logger f :
  (∀ lines, f ≠ Some (Lines lines)) →
  (clean_ids_file keep_set logger f).1 = f.
Proof. destruct f as [[|lines]|]; simpl; [done|congruence|done]. Qed.

Lemma clean_removed_file_rows keep_set logger rows :
  (clean_removed_file keep_set logger (Some (Csv rows))).1
  = Some (Csv (filter (λ r, accession r ∈ keep_set) rows)).
Proof.
  unfold clean_removed_file. simpl.
  destruct (Nat.ltb_spec
              (length (filter (λ r, accession r ∈ keep_set) rows))
              (length rows)) as [Hlt|Hge]; simpl; [done|].
  do 2 f_equal. symmetry. apply filter_length_eq.
  pose proof (length_filter (λ r, accession r ∈ keep_set) rows). lia.
Qed.

Lemma clean_removed_file_other keep_set logger f :
  (∀ rows, f ≠ Some (Csv rows)) →
  (clean_removed_file keep_set logger f).1 = f.
Proof. destruct f as [[|rows|rows]|]; simpl; [done|done|congruence|done]. Qed.

Lemma clean_metadata_file_rows keep_set logger rows :
  (clean_metadata_file keep_set logger (Some (Csv rows))).1
  = Some (Csv (filter (λ r, accession r ∈ keep_set) rows)).
Proof.
  unfold clean_metadata_file. simpl.
  destruct (Nat.ltb_spec
              (length (filter (λ r, accession r ∈ keep_set) rows))
              (length rows)) as [Hlt|Hge]; simpl; [done|].
  do 2 f_equal. symmetry. apply filter_length_eq.
  pose proof (length_filter (λ r, accession r ∈ keep_set) rows). lia.
Qed.

Lemma clean_metadata_file_other keep_set logger f :
  (∀ rows, f ≠ Some (Csv rows)) →
  (clean_metadata_file keep_set logger f).1 = f.
Proof. destruct f as [[|rows|rows]|]; simpl; [done|done|congruence|done]. Qed.

Lemma remove_fasta_loop_remaining valid_roots logger files :
  (remove_fasta_loop valid_roots logger files).1.1
  = filter (stays valid_roots) files.
Proof.
  induction files as [|f files IH]; [done|]. cbn [remove_fasta_loop].
  destruct (remove_fasta_loop valid_roots logger files) as [[remaining n] out].
  simpl in IH. subst remaining. rewrite filter_cons.
  destruct (decide (stays valid_roots f)) as [Hst|Hst]; unfold stays in Hst.
  - destruct (is_fasta (fname f)) eqn:Hfa; simpl; [|done].
    case_bool_decide as Hroot; simpl; [|done].
    destruct (removable f) eqn:Hrm; simpl; [|done].
    by destruct Hst.
  - apply dec_stable in Hst as (-> & Hroot & ->). simpl.
    by rewrite bool_decide_true.
Qed.

Lemma clean_seqs_dir_listing keep_set logger files :
  (clean_seqs_dir keep_set logger (Some (SeqsListing files))).1
  = Some (SeqsListing (filter (stays (set_map root_of keep_set)) files)).
Proof.
  unfold clean_seqs_dir.
  pose proof (remove_fasta_loop_remaining (set_map root_of keep_set) logger files) as H.
  destruct (remove_fasta_loop _ logger files) as [[remaining n] out].
  simpl in *. by subst.
Qed.

Lemma clean_seqs_dir_other keep_set logger d :
  (∀ files, d ≠ Some (SeqsListing files)) →
  (clean_seqs_dir keep_set logger d).1 = d.
Proof. destruct d as [[|files]|]; simpl; [done|congruence|done]. Qed.

Lemma pruned_fields ids_list logger st :
  let keep_set : gset string := list_to_set ids_list in
  pruned ids_list logger st
  = Stores (clean_ids_file keep_set logger (IDS_FILE st)).1
           (clean_removed_file keep_set logger (REMOVED_IDS_FILE st)).1
           (clean_metadata_file keep_set logger (METADATA_FILE st)).1
           (clean_seqs_dir keep_set logger (SEQS_DIR st)).1.
Proof.
  unfold pruned, clean_profiles_from_data. simpl.
  destruct (clean_ids_file _ _ _), (clean_removed_file _ _ _),
    (clean_metadata_file _ _ _), (clean_seqs_dir _ _ _). done.
Qed.

(** ** Pruning: what the stores hold afterwards *)

Lemma list_to_set_filter_elem_of {A} (f : A → string) (K : gset string) (l : list A) :
  list_to_set (f <$> filter (λ x, f x ∈ K) l) =@{gset string} list_to_set (f <$> l) ∩ K.
Proof.
  apply set_eq. intros x.
  rewrite elem_of_intersection, !elem_of_list_to_set, !list_elem_of_fmap.
  setoid_rewrite list_elem_of_filter. naive_solver.
Qed.

Lemma accessions_of_ids_clean keep_set logger f :
  accessions_of_ids (clean_ids_file keep_set logger f).1
  = accessions_of_ids f ∩ keep_set.
Proof.
  destruct f as [[|lines]|]; [simpl; set_solver| |simpl; set_solver].
  destruct (clean_ids_file_lines keep_set logger lines) as (lines' & -> & Hs & _).
  simpl. rewrite Hs. pose proof (list_to_set_filter_elem_of id keep_set (stripped_lines lines)) as H.
  by rewrite !list_fmap_id in H.
Qed.

Lemma accessions_of_csv_removed keep_set logger f :
  accessions_of_csv (clean_removed_file keep_set logger f).1
  = accessions_of_csv f ∩ keep_set.
Proof.
  destruct f as [[|rows|rows]|];
    [simpl; set_solver|simpl; set_solver| |simpl; set_solver].
  rewrite clean_removed_file_rows. simpl. apply list_to_set_filter_elem_of.
Qed.

Lemma accessions_of_csv_metadata keep_set logger f :
  accessions_of_csv (clean_metadata_file keep_set logger f).1
  = accessions_of_csv f ∩ keep_set.
Proof.
  destruct f as [[|rows|rows]|];
    [simpl; set_solver|simpl; set_solver| |simpl; set_solver].
  rewrite clean_metadata_file_rows. simpl. apply list_to_set_filter_elem_of.
Qed.

Lemma fasta_roots_clean keep_set logger d :
  let valid_roots : gset string := set_map root_of keep_set in
  fasta_roots (clean_seqs_dir keep_set logger d).1
  = (fasta_roots d ∩ valid_roots) ∪ stuck_roots valid_roots d.
Proof.
  intros valid_roots.
  destruct d as [[|files]|]; [simpl; set_solver| |simpl; set_solver].
  rewrite clean_seqs_dir_listing. simpl. fold valid_roots.
  apply set_eq. intros x.
  rewrite elem_of_union, elem_of_intersection, !elem_of_list_to_set,
    !list_elem_of_fmap.
  repeat setoid_rewrite list_elem_of_filter. unfold stays. simpl. split.
  - intros (f & -> & Hfa & Hst & Hin).
    destruct (decide (splitext_root (fname f) ∈ valid_roots)) as [Hv|Hv].
    + left. eauto.
    + right. exists f. repeat split; try done.
      destruct (removable f); [|done]. by destruct Hst.
  - intros [[(f & -> & Hfa & Hin) Hv]|(f & -> & (Hfa & Hv & Hrm) & Hin)].
    + exists f. repeat split; try done. by intros (_ & ? & _).
    + exists f. repeat split; try done. intros (_ & _ & ?). congruence.
Qed.

(** C2 (as the code has it): after [clean_profiles_from_data] with the
    keep-set S, the accessions present in the version index, in the
    removed log and in the metadata table are those that were present
    before and are in S: no extras, but an accession of S that a store
    lacked is not added. The root names of the sequence files are those
    present before that are identifier parts of accessions of S, and those
    of the files that could not be removed. *)
Theorem clean_profiles_from_data_restricts ids_list logger st :
  let keep_set : gset string := list_to_set ids_list in
  let valid_roots : gset string := set_map root_of keep_set in
  let st' := pruned ids_list logger st in
  accessions_of_ids (IDS_FILE st') = accessions_of_ids (IDS_FILE st) ∩ keep_set
  ∧ accessions_of_csv (REMOVED_IDS_FILE st')
    = accessions_of_csv (REMOVED_IDS_FILE st) ∩ keep_set
  ∧ accessions_of_csv (METADATA_FILE st')
    = accessions_of_csv (METADATA_FILE st) ∩ keep_set
  ∧ fasta_roots (SEQS_DIR st')
    = (fasta_roots (SEQS_DIR st) ∩ valid_roots) ∪ stuck_roots valid_roots (SEQS_DIR st)
  ∧ (∀ x, x ∈ valid_roots ↔ ∃ a, a ∈ ids_list ∧ x = root_of a).
Proof.
  intros keep_set valid_roots st'. unfold st'. rewrite pruned_fields. simpl.
  split; [apply accessions_of_ids_clean|].
  split; [apply accessions_of_csv_removed|].
  split; [apply accessions_of_csv_metadata|].
  split; [apply fasta_roots_clean|].
  intros x. unfold valid_roots, keep_set. rewrite elem_of_map.
  setoid_rewrite elem_of_list_to_set. naive_solver.
Qed.

(** C2 (as stated) fails: B2.1 is in the keep-set and not in the version
    index, before or after the run. *)
Lemma clean_profiles_from_data_adds_nothing :
  accessions_of_ids
    (IDS_FILE (pruned ["A1.1"; "B2.1"] false
                 (Stores (Some (Lines ["A1.1"])) None None None)))
  ≠ list_to_set ["A1.1"; "B2.1"].
Proof.
  intros H. assert ("B2.1" ∈@{gset string} list_to_set ["A1.1"]) as Hin.
  { change (list_to_set ["A1.1"]) with
      (accessions_of_ids
         (IDS_FILE (pruned ["A1.1"; "B2.1"] false
                 (Stores (Some (Lines ["A1.1"])) None None None)))).
    rewrite H. set_solver. }
  set_solver.
Qed.

(** ** Pruning twice *)

Lemma clean_ids_file_fixed keep_set logger lines :
  stripped_lines lines = filter (λ ln, ln ∈ keep_set) (stripped_lines lines) →
  (clean_ids_file keep_set logger (Some (Lines lines))).1 = Some (Lines lines).
Proof.
  intros H. unfold clean_ids_file. simpl. rewrite <-H.
  by rewrite Nat.ltb_irrefl.
Qed.

Lemma filter_filter_same {A} (P : A → Prop) `{!∀ x, Decision (P x)} (l : list A) :
  filter P (filter P l) = filter P l.
Proof. rewrite list_filter_filter. apply list_filter_iff. tauto. Qed.

Lemma clean_ids_file_idem keep_set logger logger' f :
  (clean_ids_file keep_set logger' (clean_ids_file keep_set logger f).1).1
  = (clean_ids_file keep_set logger f).1.
Proof.
  destruct f as [[|lines]|]; [done| |done].
  destruct (clean_ids_file_lines keep_set logger lines) as (lines' & -> & Hs & Hl').
  apply clean_ids_file_fixed. destruct Hl' as [->| ->]; [done|].
  by rewrite stripped_lines_filter, filter_filter_same.
Qed.

Lemma clean_removed_file_idem keep_set logger logger' f :
  (clean_removed_file keep_set logger' (clean_removed_file keep_set logger f).1).1
  = (clean_removed_file keep_set logger f).1.
Proof.
  destruct f as [[|rows|rows]|]; [done|done| |done].
  by rewrite !clean_removed_file_rows, filter_filter_same.
Qed.

Lemma clean_metadata_file_idem keep_set logger logger' f :
  (clean_metadata_file keep_set logger' (clean_metadata_file keep_set logger f).1).1
  = (clean_metadata_file keep_set logger f).1.
Proof.
  destruct f as [[|rows|rows]|]; [done|done| |done].
  by rewrite !clean_metadata_file_rows, filter_filter_same.
Qed.

Lemma clean_seqs_dir_idem keep_set logger logger' d :
  (clean_seqs_dir keep_set logger' (clean_seqs_dir keep_set logger d).1).1
  = (clean_seqs_dir keep_set logger d).1.
Proof.
  destruct d as [[|files]|]; [done| |done].
  by rewrite !clean_seqs_dir_listing, filter_filter_same.
Qed.

(** C7: a second run of [clean_profiles_from_data] with the same
    keep-set, right after a first one, leaves the version index, the
    removed log, the metadata table and the directory of sequence files
    as the first run left them. *)
Theorem clean_profiles_from_data_idempotent ids_list logger logger' st :
  pruned ids_list logger' (pruned ids_list logger st) = pruned ids_list logger st.
Proof.
  rewrite (pruned_fields ids_list logger' (pruned ids_list logger st)).
  rewrite (pruned_fields ids_list logger st). simpl.
  by rewrite clean_ids_file_idem, clean_removed_file_idem,
    clean_metadata_file_idem, clean_seqs_dir_idem.
Qed.

(** ** Pruning: the value returned and the counts *)

Lemma clean_profiles_from_data_messages ids_list logger st :
  let keep_set : gset string := list_to_set ids_list in
  (clean_profiles_from_data ids_list logger st).2
  = ((clean_ids_file keep_set logger (IDS_FILE st)).2
     ++ (clean_removed_file keep_set logger (REMOVED_IDS_FILE st)).2
     ++ (clean_metadata_file keep_set logger (METADATA_FILE st)).2
     ++ (clean_seqs_dir keep_set logger (SEQS_DIR st)).2)%list.
Proof.
  unfold clean_profiles_from_data. simpl.
  destruct (clean_ids_file _ _ _), (clean_removed_file _ _ _),
    (clean_metadata_file _ _ _), (clean_seqs_dir _ _ _). done.
Qed.

Lemma clean_ids_file_count keep_set lines :
  let n := (length (stripped_lines lines)
            - length (filter (λ ln, ln ∈ keep_set) (stripped_lines lines)))%nat in
  (0 < n)%nat →
  (clean_ids_file keep_set true (Some (Lines lines))).2
  = [(INFO, RemovedRows IdsFile n)].
Proof.
  intros n Hn. unfold clean_ids_file. simpl.
  destruct (Nat.ltb_spec
              (length (filter (λ ln, ln ∈ keep_set) (stripped_lines lines)))
              (length (stripped_lines lines))) as [Hlt|Hge]; [done|].
  unfold n in Hn. lia.
Qed.

Lemma clean_removed_file_count keep_set rows :
  let n := (length rows - length (filter (λ r, accession r ∈ keep_set) rows))%nat in
  (0 < n)%nat →
  (clean_removed_file keep_set true (Some (Csv rows))).2
  = [(INFO, RemovedRows RemovedIdsFile n)].
Proof.
  intros n Hn. unfold clean_removed_file. simpl.
  destruct (Nat.ltb_spec
              (length (filter (λ r, accession r ∈ keep_set) rows))
              (length rows)) as [Hlt|Hge]; [done|].
  unfold n in Hn. lia.
Qed.

Lemma clean_metadata_file_count keep_set rows :
  let n := (length rows - length (filter (λ r, accession r ∈ keep_set) rows))%nat in
  (0 < n)%nat →
  (clean_metadata_file keep_set true (Some (Csv rows))).2
  = [(INFO, RemovedRows MetadataFile n)].
Proof.
  intros n Hn. unfold clean_metadata_file. simpl.
  destruct (Nat.ltb_spec
              (length (filter (λ r, accession r ∈ keep_set) rows))
              (length rows)) as [Hlt|Hge]; [done|].
  unfold n in Hn. lia.
Qed.

Lemma remove_fasta_loop_count valid_roots logger files :
  ((remove_fasta_loop valid_roots logger files).1.2
   + length (filter (stays valid_roots) files))%nat = length files.
Proof.
  induction files as [|f files IH]; [done|].
  pose proof (remove_fasta_loop_remaining valid_roots logger (f :: files)) as Hrem.
  pose proof (remove_fasta_loop_remaining valid_roots logger files) as Hrem'.
  rewrite <-Hrem. rewrite <-Hrem' in IH. clear Hrem Hrem'.
  cbn [remove_fasta_loop].
  destruct (remove_fasta_loop valid_roots logger files) as [[remaining n] out].
  simpl in *.
  destruct (is_fasta (fname f) && bool_decide (splitext_root (fname f) ∉ valid_roots));
    [destruct (removable f)|]; simpl; lia.
Qed.

Lemma clean_seqs_dir_count keep_set files :
  let n := (length files
            - length (filter (stays (set_map root_of keep_set)) files))%nat in
  (0 < n)%nat →
  (INFO, RemovedFastaCount n)
    ∈ (clean_seqs_dir keep_set true (Some (SeqsListing files))).2.
Proof.
  intros n Hn. unfold clean_seqs_dir.
  pose proof (remove_fasta_loop_count (set_map root_of keep_set) true files) as Hc.
  destruct (remove_fasta_loop _ true files) as [[remaining k] out]. simpl in *.
  assert (k = n) as -> by (unfold n; lia).
  apply elem_of_app. right.
  destruct (Nat.ltb_spec 0 n) as [_|?]; [left|lia].
Qed.

Lemma remove_fasta_loop_print valid_roots files :
  Forall (λ m : message, m.1 = PRINT) (remove_fasta_loop valid_roots false files).2.
Proof.
  induction files as [|f files IH]; [constructor|]. cbn [remove_fasta_loop].
  destruct (remove_fasta_loop valid_roots false files) as [[remaining n] out].
  simpl in *.
  destruct (is_fasta (fname f) && bool_decide (splitext_root (fname f) ∉ valid_roots));
    [destruct (removable f)|]; simpl; [done|by constructor|done].
Qed.

Lemma clean_profiles_from_data_print ids_list st :
  Forall (λ m : message, m.1 = PRINT) (clean_profiles_from_data ids_list false st).2.
Proof.
  rewrite clean_profiles_from_data_messages. cbv zeta.
  repeat apply Forall_app_2.
  - destruct (IDS_FILE st) as [[|lines]|]; simpl; [by repeat constructor| |done].
    by destruct (_ <? _)%nat.
  - destruct (REMOVED_IDS_FILE st) as [[|rows|rows]|]; simpl;
      [by repeat constructor|by repeat constructor| |done].
    by destruct (_ <? _)%nat.
  - destruct (METADATA_FILE st) as [[|rows|rows]|]; simpl;
      [by repeat constructor|done| |done].
    by destruct (_ <? _)%nat.
  - destruct (SEQS_DIR st) as [[|files]|]; simpl; [by repeat constructor| |done].
    pose proof (remove_fasta_loop_print
                  (set_map root_of (list_to_set ids_list : gset string)) files) as Hp.
    destruct (remove_fasta_loop _ false files) as [[remaining n] out]. simpl in *.
    apply Forall_app_2; [done|]. by destruct (0 <? n)%nat.
Qed.

(** C8 (as the code has it): [clean_profiles_from_data] returns 0 for
    every keep-set and every state of the stores, also when there is
    nothing to prune, and never raises. The numbers of rows and files
    removed are not returned: with a logger each of them is the content
    of a message, and without a logger the only output is the printed
    errors. *)
Theorem clean_profiles_from_data_returns_zero ids_list logger st :
  let keep_set : gset string := list_to_set ids_list in
  let msgs := (clean_profiles_from_data ids_list logger st).2 in
  (clean_profiles_from_data ids_list logger st).1.1 = Ok 0
  ∧ (∀ lines n,
       logger = true → IDS_FILE st = Some (Lines lines) →
       n = (length (stripped_lines lines)
            - length (filter (λ ln, ln ∈ keep_set) (stripped_lines lines)))%nat →
       (0 < n)%nat → (INFO, RemovedRows IdsFile n) ∈ msgs)
  ∧ (∀ rows n,
       logger = true → REMOVED_IDS_FILE st = Some (Csv rows) →
       n = (length rows - length (filter (λ r, accession r ∈ keep_set) rows))%nat →
       (0 < n)%nat → (INFO, RemovedRows RemovedIdsFile n) ∈ msgs)
  ∧ (∀ rows n,
       logger = true → METADATA_FILE st = Some (Csv rows) →
       n = (length rows - length (filter (λ r, accession r ∈ keep_set) rows))%nat →
       (0 < n)%nat → (INFO, RemovedRows MetadataFile n) ∈ msgs)
  ∧ (∀ files n,
       logger = true → SEQS_DIR st = Some (SeqsListing files) →
       n = (length files
            - length (filter (stays (set_map root_of keep_set)) files))%nat →
       (0 < n)%nat → (INFO, RemovedFastaCount n) ∈ msgs)
  ∧ (logger = false → Forall (λ m : message, m.1 = PRINT) msgs).
Proof.
  intros keep_set msgs. split.
  { unfold clean_profiles_from_data.
    destruct (clean_ids_file _ _ _), (clean_removed_file _ _ _),
      (clean_metadata_file _ _ _), (clean_seqs_dir _ _ _). done. }
  assert (logger = false → Forall (λ m : message, m.1 = PRINT) msgs) as Hprint.
  { intros ->. apply clean_profiles_from_data_print. }
  revert Hprint. unfold msgs. rewrite clean_profiles_from_data_messages. cbv zeta.
  fold keep_set. intros Hprint. repeat split.
  - intros lines n -> -> -> Hn. rewrite clean_ids_file_count by done.
    apply elem_of_app. left. left.
  - intros rows n -> -> -> Hn. rewrite clean_removed_file_count by done.
    apply elem_of_app. right. apply elem_of_app. left. left.
  - intros rows n -> -> -> Hn. rewrite clean_metadata_file_count by done.
    do 2 (apply elem_of_app; right). apply elem_of_app. left. left.
  - intros files n -> -> -> Hn. do 3 (apply elem_of_app; right).
    by apply clean_seqs_dir_count.
  - exact Hprint.
Qed.

Lemma clean_profiles_from_data_returns_zero_witness :
  (clean_profiles_from_data ["A1.2"] true
     (Stores (Some (Lines ["A1.1"; "A1.2"; "B2.1"])) None None
             (Some (SeqsListing [SeqFile "A1.fasta" true; SeqFile "B2.fasta" true])))).1.1
  = Ok 0
  ∧ (INFO, RemovedRows IdsFile 2)
      ∈ (clean_profiles_from_data ["A1.2"] true
           (Stores (Some (Lines ["A1.1"; "A1.2"; "B2.1"])) None None
                   (Some (SeqsListing [SeqFile "A1.fasta" true;
                                       SeqFile "B2.fasta" true])))).2
  ∧ (INFO, RemovedFastaCount 1)
      ∈ (clean_profiles_from_data ["A1.2"] true
           (Stores (Some (Lines ["A1.1"; "A1.2"; "B2.1"])) None None
                   (Some (SeqsListing [SeqFile "A1.fasta" true;
                                       SeqFile "B2.fasta" true])))).2.
Proof.
  destruct (clean_profiles_from_data_returns_zero ["A1.2"] true
              (Stores (Some (Lines ["A1.1"; "A1.2"; "B2.1"])) None None
                      (Some (SeqsListing [SeqFile "A1.fasta" true;
                                          SeqFile "B2.fasta" true]))))
    as (Hret & Hids & _ & _ & Hfasta & _).
  split; [exact Hret|]. split.
  - apply (Hids ["A1.1"; "A1.2"; "B2.1"]); [reflexivity|reflexivity| |].
    + vm_compute. reflexivity.
    + lia.
  - apply (Hfasta [SeqFile "A1.fasta" true; SeqFile "B2.fasta" true]);
      [reflexivity|reflexivity| |].
    + vm_compute. reflexivity.
    + lia.
Defined.

(** C8 (as stated) fails: a run that removes two rows of the version
    index and one sequence file returns the same value, 0, as a run that
    removes nothing. *)
Lemma clean_profiles_from_data_count_not_returned :
  let st := Stores (Some (Lines ["A1.1"; "A1.2"; "B2.1"])) None None
                   (Some (SeqsListing [SeqFile "A1.fasta" true; SeqFile "B2.fasta" true])) in
  let run1 := clean_profiles_from_data ["A1.2"] false st in
  let run2 := clean_profiles_from_data ["A1.1"; "A1.2"; "B2.1"] false st in
  run1.1.1 = Ok 0 ∧ run2.1.1 = Ok 0
  ∧ IDS_FILE run1.1.2 = Some (Lines ["A1.2"])
  ∧ SEQS_DIR run1.1.2 = Some (SeqsListing [SeqFile "A1.fasta" true])
  ∧ run2.1.2 = st.
Proof. vm_compute. repeat split. Qed.


(** * Further properties of the module *)

(** ** Resuming a run *)

(** After [save_processed_ids], filtering candidates against the saved
    snapshot leaves exactly the candidates that are neither in the new
    batch nor in the prior snapshot, in their order and with their
    repetitions; nothing of the batch just saved is left. *)
Theorem filter_unprocessed_ids_after_save
    (candidates processed_ids old_processed_ids saved : list string)
    (PROCESSED_IDS_DIR : ledger_dir) :
  (load_processed_ids false PROCESSED_IDS_DIR).1 = Ok old_processed_ids →
  save_processed_ids processed_ids PROCESSED_IDS_DIR = Ok (Lines saved) →
  filter_unprocessed_ids candidates saved
  = filter (λ x, (x ∉ processed_ids) ∧ (x ∉ old_processed_ids)) candidates
  ∧ filter_unprocessed_ids processed_ids saved = []
  ∧ filter_unprocessed_ids candidates saved
    `sublist_of` filter_unprocessed_ids candidates old_processed_ids.
Proof.
  intros Hold. unfold save_processed_ids. rewrite Hold. simpl.
  intros [= <-]. rewrite fromkeys_first_occurrences.
  assert (∀ x, x ∈ first_occurrences (processed_ids ++ old_processed_ids)%list
               ↔ x ∈ processed_ids ∨ x ∈ old_processed_ids) as Hin.
  { intros x. by rewrite elem_of_first_occurrences, elem_of_app. }
  unfold filter_unprocessed_ids. split; [|split].
  - apply list_filter_iff. intros x. rewrite Hin. tauto.
  - apply filter_none. intros x Hx Hn. apply Hn, Hin. by left.
  - rewrite <-(list_filter_filter_l
                 (λ x, x ∉ first_occurrences (processed_ids ++ old_processed_ids)%list)
                 (λ x, x ∉ old_processed_ids)).
    + apply sublist_filter.
    + intros x Hn Hold'. apply Hn, Hin. by right.
Qed.

Lemma filter_unprocessed_ids_after_save_witness :
  filter_unprocessed_ids ["A1.1"; "D4.1"; "C3.1"; "D4.1"] ["C3.1"; "A1.1"; "B2.3"]
  = ["D4.1"; "D4.1"].
Proof.
  destruct (filter_unprocessed_ids_after_save
              ["A1.1"; "D4.1"; "C3.1"; "D4.1"] ["C3.1"] ["A1.1"; "B2.3"]
              ["C3.1"; "A1.1"; "B2.3"]
              (Listing [LedgerFile "ids.txt" (Some 4) (Lines ["A1.1"; "B2.3"])]))
    as (Heq & _ & _).
  - reflexivity.
  - reflexivity.
  - rewrite Heq. reflexivity.
Defined.

(** ** The latest snapshot *)

Lemma max_by_ctime_from_spec best t files :
  d_ctime_all files →
  ctime best = Some t →
  ∃ r tr,
    max_by_ctime_from best t files = Ok r ∧ ctime r = Some tr ∧ t ≤ tr
    ∧ (r = best ∨ r ∈ files)
    ∧ (∀ g tg, g ∈ files → ctime g = Some tg → tg ≤ tr)
    ∧ (r = best ∧ (∀ g tg, g ∈ files → ctime g = Some tg → tg ≤ t)
       ∨ ∃ before after,
           files = (before ++ r :: after)%list ∧ t < tr
           ∧ ∀ g tg, g ∈ before → ctime g = Some tg → tg < tr).
Proof.
  unfold d_ctime_all. intros Hall. revert best t.
  induction Hall as [|f files [tf Hf] _ IH]; intros best t Hbest.
  - exists best, t.
    split; [done|]. split; [done|]. split; [lia|]. split; [by left|].
    split; [by intros g tg ?%elem_of_nil|].
    left. split; [done|]. by intros g tg ?%elem_of_nil.
  - cbn [max_by_ctime_from]. unfold getctime. rewrite Hf. simpl.
    destruct (Z.ltb_spec t tf) as [Hlt|Hge].
    + destruct (IH f tf Hf) as (r & tr & -> & Hr & Hle & Hwhere & Hmax & Hfirst).
      exists r, tr.
      split; [done|]. split; [done|]. split; [lia|]. split; [|split].
      * right. destruct Hwhere as [->|?]; [left|by right].
      * intros g tg [->|Hg]%elem_of_cons Hg'; [|by eapply Hmax].
        rewrite Hf in Hg'. by injection Hg' as <-.
      * right. destruct Hfirst as [[-> _]|(before & after & -> & Hlt' & Hb)].
        -- exists [], files. rewrite Hf in Hr. injection Hr as <-.
           split; [done|]. split; [done|]. by intros g tg ?%elem_of_nil.
        -- exists (f :: before), after.
           split; [done|]. split; [lia|].
           intros g tg [->|Hg]%elem_of_cons Hg'; [|by eapply Hb].
           rewrite Hf in Hg'. injection Hg' as <-. lia.
    + destruct (IH best t Hbest) as (r & tr & -> & Hr & Hle & Hwhere & Hmax & Hfirst).
      exists r, tr.
      split; [done|]. split; [done|]. split; [done|]. split; [|split].
      * destruct Hwhere as [->|?]; [by left|right; by right].
      * intros g tg [->|Hg]%elem_of_cons Hg'; [|by eapply Hmax].
        rewrite Hf in Hg'. injection Hg' as <-. lia.
      * destruct Hfirst as [[-> Hall']|(before & after & -> & Hlt' & Hb)].
        -- left. split; [done|].
           intros g tg [->|Hg]%elem_of_cons Hg'; [|by eapply Hall'].
           rewrite Hf in Hg'. by injection Hg' as <-.
        -- right. exists (f :: before), after.
           split; [done|]. split; [done|].
           intros g tg [->|Hg]%elem_of_cons Hg'; [|by eapply Hb].
           rewrite Hf in Hg'. injection Hg' as <-. lia.
Qed.

(** [load_processed_ids] reads the snapshot whose name ends in ".txt" and
    whose creation time is the greatest, the first such file of the
    listing when several share that time; the other files of the
    directory play no part. Without any ".txt" file it returns the empty
    list. *)
Theorem load_processed_ids_latest logger (files : list ledger_file) :
  let snapshots := filter (λ f, Py.endswith (name f) ".txt" = true) files in
  d_ctime_all snapshots →
  (snapshots = [] ∧ (load_processed_ids logger (Listing files)).1 = Ok [])
  ∨ ∃ before f after t,
      snapshots = (before ++ f :: after)%list
      ∧ ctime f = Some t
      ∧ (∀ g tg, g ∈ before → ctime g = Some tg → tg < t)
      ∧ (∀ g tg, g ∈ after → ctime g = Some tg → tg ≤ t)
      ∧ (find_latest_processed_ids_file logger (Listing files)).1 = Some f
      ∧ (load_processed_ids logger (Listing files)).1
        = match read_lines (content f) with
          | Ok lines => Ok (Py.strip <$> lines)
          | Raise e => Raise e
          end.
Proof.
  intros snapshots Hall.
  assert (filter (λ f, Py.endswith (name f) ".txt" = true) files = snapshots)
    as Hsn by done.
  clearbody snapshots. destruct snapshots as [|f0 rest].
  { left. split; [done|].
    unfold load_processed_ids, find_latest_processed_ids_file.
    cbn [listdir mbind result_bind]. by rewrite Hsn. }
  right. apply Forall_cons in Hall as [[t0 Hf0] Hrest].
  destruct (max_by_ctime_from_spec f0 t0 rest Hrest Hf0)
    as (r & tr & Hmaxby & Hr & Hle & Hwhere & Hmax & Hfirst).
  assert (find_latest_processed_ids_file logger (Listing files)
          = (Some r, log logger INFO (UsingLatestFile (name r)))) as Hfind.
  { unfold find_latest_processed_ids_file. cbn [listdir mbind result_bind].
    rewrite Hsn. cbn [max_by_ctime]. unfold getctime at 1. rewrite Hf0.
    cbn [mbind result_bind]. by rewrite Hmaxby. }
  assert (∃ before after,
            f0 :: rest = (before ++ r :: after)%list
            ∧ (∀ g tg, g ∈ before → ctime g = Some tg → tg < tr)
            ∧ (∀ g tg, g ∈ after → ctime g = Some tg → tg ≤ tr))
    as (before & after & Heq & Hb & Ha).
  { destruct Hfirst as [[-> Hall']|(before & after & -> & Hlt & Hb)].
    - exists [], rest. rewrite Hf0 in Hr. injection Hr as <-.
      split; [done|]. split; [by intros g tg ?%elem_of_nil|done].
    - exists (f0 :: before), after. split; [done|]. split.
      + intros g tg [->|Hg]%elem_of_cons Hg'; [|by eapply Hb].
        rewrite Hf0 in Hg'. injection Hg' as <-. lia.
      + intros g tg Hg. apply Hmax. apply elem_of_app. right. by right. }
  exists before, r, after, tr. split; [done|]. split; [done|].
  split; [done|]. split; [done|]. split; [by rewrite Hfind|].
  unfold load_processed_ids. rewrite Hfind.
  by destruct (read_lines (content r)).
Qed.

Lemma load_processed_ids_latest_witness :
  (load_processed_ids false
     (Listing [LedgerFile "run1.txt" (Some 10) (Lines ["A1.1"]);
               LedgerFile "notes.md" (Some 99) (Lines ["Z9.9"]);
               LedgerFile "run2.txt" (Some 20) (Lines [" B2.1 "; "C3.1"]);
               LedgerFile "run3.txt" (Some 20) (Lines ["D4.1"])])).1
  = Ok ["B2.1"; "C3.1"].
Proof.
  destruct (load_processed_ids_latest false
     [LedgerFile "run1.txt" (Some 10) (Lines ["A1.1"]);
      LedgerFile "notes.md" (Some 99) (Lines ["Z9.9"]);
      LedgerFile "run2.txt" (Some 20) (Lines [" B2.1 "; "C3.1"]);
      LedgerFile "run3.txt" (Some 20) (Lines ["D4.1"])])
    as [[Hnone _]|(before & f & after & t & Hsplit & Hf & Hb & Ha & Hfind & Hload)].
  - repeat constructor; eexists; reflexivity.
  - discriminate.
  - rewrite Hload. vm_compute in Hfind. injection Hfind as <-. reflexivity.
Defined.

(** ** The version index as a dictionary *)

Lemma for_each_insert_Ok_inv (parse : string → result (string * Z)) lines d d' :
  for_each
    (λ (d : gmap string Z) (line : string),
       '(k, v) ← parse line; Ok (<[k := v]> d))
    lines d = Ok d' →
  ∃ kvs, Forall2 (λ line kv, parse line = Ok kv) lines kvs
         ∧ d' = assign_all d kvs.
Proof.
  revert d. induction lines as [|line lines IH]; intros d.
  - intros [= <-]. exists []. by split.
  - cbn [for_each]. destruct (parse line) as [[k v]|e] eqn:Hp; simpl; [|done].
    intros (kvs & HF & ->)%IH. exists ((k, v) :: kvs). split; [|done].
    by constructor.
Qed.

Lemma assign_all_is_Some d kvs k :
  is_Some (assign_all d kvs !! k) ↔ is_Some (d !! k) ∨ k ∈ kvs.*1.
Proof.
  revert d. induction kvs as [|[k' v'] kvs IH]; intros d.
  - simpl. rewrite elem_of_nil. tauto.
  - change (assign_all d ((k', v') :: kvs))
      with (assign_all (<[k' := v']> d) kvs).
    rewrite IH, fmap_cons, elem_of_cons. simpl.
    destruct (decide (k' = k)) as [->|Hne].
    + rewrite lookup_insert_eq. split; [|intros _; left; by eexists].
      intros _. right. by left.
    + rewrite lookup_insert_ne by done. split; [tauto|].
      intros [?|[?|?]]; [by left|congruence|by right].
Qed.

Lemma load_local_versions_lines lines :
  load_local_versions (Some (Lines lines))
  = for_each
      (λ (d : gmap string Z) line,
         '(k, v) ← parse_version_line line; Ok (<[k := v]> d))
      lines ∅.
Proof. reflexivity. Qed.

(** [load_local_versions] on a file whose lines are all well formed: the
    dictionary has an entry exactly for the identifiers that a line
    names, and the entry of an identifier is the version of the last
    line that names it, whether or not an earlier line has a higher
    version. Without the file the dictionary is empty. *)
Theorem load_local_versions_last_seen :
  load_local_versions None = Ok ∅
  ∧ (∀ lines d,
       load_local_versions (Some (Lines lines)) = Ok d →
       ∀ id, is_Some (d !! id) ↔
             ∃ line v, line ∈ lines ∧ parse_version_line line = Ok (id, v))
  ∧ (∀ before line after id v,
       Forall (λ l, ∃ kv, parse_version_line l = Ok kv) before →
       parse_version_line line = Ok (id, v) →
       Forall (λ l, ∃ kv, parse_version_line l = Ok kv ∧ kv.1 ≠ id) after →
       ∃ d, load_local_versions (Some (Lines (before ++ line :: after)%list)) = Ok d
            ∧ d !! id = Some v).
Proof.
  split; [done|]. split.
  - intros lines d. rewrite load_local_versions_lines.
    intros (kvs & HF & ->)%for_each_insert_Ok_inv id.
    rewrite assign_all_is_Some, lookup_empty, list_elem_of_fmap. split.
    + intros [[? [=]]|([k v] & -> & Hkv)]. simpl.
      apply list_elem_of_lookup in Hkv as [i Hi].
      destruct (Forall2_lookup_r _ _ _ _ _ HF Hi) as (line & Hline & Hp).
      exists line, v. split; [|done]. apply list_elem_of_lookup. eauto.
    + intros (line & v & [i Hi]%list_elem_of_lookup & Hp). right.
      destruct (Forall2_lookup_l _ _ _ _ _ HF Hi) as (kv & Hkv & Hp').
      rewrite Hp in Hp'. injection Hp' as <-.
      exists (id, v). split; [done|]. apply list_elem_of_lookup. eauto.
  - intros before line after id v Hbefore Hline Hafter.
    destruct (parsed_lines _ _ Hbefore) as (kvs1 & HF1).
    assert (∃ kvs2, Forall2 (λ line kv, parse_version_line line = Ok kv) after kvs2
                    ∧ Forall (λ kv, kv.1 ≠ id) kvs2) as (kvs2 & HF2 & Hne).
    { clear -Hafter.
      induction Hafter as [|l after (kv & Hkv & Hne) _ (kvs & HF & Hall)].
      - exists []. split; constructor.
      - exists (kv :: kvs). split; by constructor. }
    exists (assign_all ∅ (kvs1 ++ (id, v) :: kvs2)%list).
    split; [|by apply assign_all_lookup_last].
    rewrite load_local_versions_lines. apply for_each_parsed.
    apply Forall2_app; [done|]. by constructor.
Qed.

Lemma load_local_versions_last_seen_witness :
  ∃ d, load_local_versions (Some (Lines ["X1.3"; "Y2.1"; " X1.2 "])) = Ok d
       ∧ d !! "X1" = Some 2.
Proof.
  destruct (proj2 (proj2 load_local_versions_last_seen)
              ["X1.3"; "Y2.1"] " X1.2 " [] "X1" 2) as (d & Hd & Hlookup).
  - repeat constructor; eexists; reflexivity.
  - reflexivity.
  - constructor.
  - exists d. split; [exact Hd|exact Hlookup].
Defined.

(** ** The removed log as a dictionary *)

Section strip_ends.
Variable sp : ascii → bool.

Lemma all_chars_app s t :
  Py.all_chars sp (s ++ t) = Py.all_chars sp s && Py.all_chars sp t.
Proof.
  induction s as [|c s IH]; [by rewrite append_nil|].
  rewrite append_cons. cbn [Py.all_chars]. by rewrite IH, andb_assoc.
Qed.

Lemma lstrip_by_all s : Py.all_chars sp s = true → Py.lstrip_by sp s = EmptyString.
Proof.
  induction s as [|c s IH]; [done|]. cbn [Py.all_chars Py.lstrip_by].
  intros [-> Hs]%andb_prop. by apply IH.
Qed.

Lemma rstrip_by_all s : Py.all_chars sp s = true → Py.rstrip_by sp s = EmptyString.
Proof. destruct s; [done|]. intros H. cbn [Py.rstrip_by]. by rewrite H. Qed.

Lemma rstrip_by_nil_inv s :
  Py.rstrip_by sp s = EmptyString → Py.all_chars sp s = true.
Proof.
  destruct s as [|c s]; [done|]. cbn [Py.rstrip_by].
  by destruct (Py.all_chars sp (String c s)).
Qed.

Lemma rstrip_by_decompose s :
  ∃ ws, s = Py.rstrip_by sp s ++ ws ∧ Py.all_chars sp ws = true.
Proof.
  induction s as [|c s (ws & Hs & Hws)]; [by exists EmptyString|].
  cbn [Py.rstrip_by]. destruct (Py.all_chars sp (String c s)) eqn:Hall.
  - exists (String c s). by rewrite append_nil.
  - exists ws. by rewrite append_cons, <-Hs.
Qed.

Lemma rstrip_by_last s c : last_char (Py.rstrip_by sp s) = Some c → sp c = false.
Proof.
  induction s as [|a s IH]; [done|]. cbn [Py.rstrip_by].
  destruct (Py.all_chars sp (String a s)) eqn:Hall; [done|].
  destruct (Py.rstrip_by sp s) as [|b r] eqn:Hr.
  - intros [= <-]. apply rstrip_by_nil_inv in Hr.
    cbn [Py.all_chars] in Hall. by rewrite Hr, andb_true_r in Hall.
  - exact IH.
Qed.

Lemma last_char_cons a b k : last_char (String a (String b k)) = last_char (String b k).
Proof. reflexivity. Qed.

Lemma last_char_not_all core ws c :
  last_char core = Some c → sp c = false → Py.all_chars sp (core ++ ws) = false.
Proof.
  induction core as [|a k IH]; [done|]. rewrite append_cons. cbn [Py.all_chars].
  destruct k as [|b k'].
  - intros [= ->] Hc. by rewrite Hc.
  - rewrite last_char_cons. intros Hl Hc. rewrite IH by done. apply andb_false_r.
Qed.

Lemma rstrip_by_app core ws :
  (∀ c, last_char core = Some c → sp c = false) →
  Py.all_chars sp ws = true →
  Py.rstrip_by sp (core ++ ws) = core.
Proof.
  intros Hlast Hws. induction core as [|a k IH].
  - rewrite append_nil. by apply rstrip_by_all.
  - assert (∃ c, last_char (String a k) = Some c) as [c Hc].
    { clear. revert a. induction k as [|b k IH]; intros a; [by eexists|].
      rewrite last_char_cons. apply IH. }
    pose proof (last_char_not_all _ ws c Hc (Hlast c Hc)) as Hall.
    rewrite append_cons in *. cbn [Py.rstrip_by]. rewrite Hall. f_equal.
    apply IH. intros c' Hc'. apply Hlast.
    destruct k as [|b k']; [done|]. by rewrite last_char_cons.
Qed.

End strip_ends.

(** [s.strip()] is [s] without the white space at its two ends. *)
Lemma strip_spec s core : Py.strip s = core ↔ stripped_of s core.
Proof.
  unfold Py.strip, stripped_of, no_space_at_ends. split.
  - intros <-.
    destruct (lstrip_by_decompose Py.is_space s) as (ws1 & Hs & Hws1).
    destruct (rstrip_by_decompose Py.is_space (Py.lstrip_by Py.is_space s))
      as (ws2 & Ht & Hws2).
    exists ws1, ws2. split; [by rewrite <-Ht|].
    split; [done|]. split; [done|]. split.
    + intros c Hc. pose proof (lstrip_by_head Py.is_space s) as Hhead.
      destruct (Py.lstrip_by Py.is_space s) as [|a t]; [done|].
      cbn [Py.rstrip_by Py.all_chars] in Hc. rewrite Hhead in Hc. simpl in Hc.
      by injection Hc as <-.
    + apply rstrip_by_last.
  - intros (ws1 & ws2 & -> & Hws1 & Hws2 & Hfirst & Hlast).
    destruct core as [|c k].
    + rewrite append_nil, lstrip_by_all; [done|].
      by rewrite all_chars_app, Hws1, Hws2.
    + rewrite append_cons, lstrip_by_app; [|done|by apply Hfirst].
      rewrite <-append_cons. by apply rstrip_by_app.
Qed.

(** The lines that [load_removed_versions] takes an identifier and a
    version from are the well-formed ones. *)
Lemma parse_removed_line_spec line id v :
  parse_removed_line line = Ok (id, v) ↔ removed_line line id v.
Proof.
  unfold parse_removed_line, removed_line. split.
  - destruct (Py.split "," (Py.strip line)) as [|acc [|rest [|]]] eqn:Hc;
      try done. simpl.
    destruct (Py.split "." (Py.strip acc)) as [|i [|ver [|]]] eqn:Hd;
      try done. simpl.
    unfold Py.int. destruct (Py.parse_int ver) as [z|] eqn:Hz; [|done]. simpl.
    intros [= -> ->].
    apply split_two_inv in Hc as (Hline & Hacc & Hrest).
    apply split_two_inv in Hd as (Haccs & Hid & Hver).
    exists acc, rest, ver. split; [by apply strip_spec|].
    split; [done|]. split; [done|]. split; [by apply strip_spec|].
    split; [done|]. split; [done|]. by apply parse_int_spec.
  - intros (acc & rest & ver & Hline%strip_spec & Hacc & Hrest
            & Haccs%strip_spec & Hid & Hver & Hz%parse_int_spec).
    rewrite Hline.
    rewrite (proj2 (split_two_inv _ _ _ _) (conj eq_refl (conj Hacc Hrest))).
    simpl. rewrite Haccs.
    rewrite (proj2 (split_two_inv _ _ _ _) (conj eq_refl (conj Hid Hver))).
    simpl. unfold Py.int. by rewrite Hz.
Qed.

Lemma parse_removed_line_Raise line e :
  parse_removed_line line = Raise e → e = ValueError.
Proof.
  unfold parse_removed_line, Py.unpack2, Py.int.
  destruct (Py.split "," (Py.strip line)) as [|acc [|rest [|]]]; simpl;
    try by intros [= <-].
  destruct (Py.split "." (Py.strip acc)) as [|i [|ver [|]]]; simpl;
    try by intros [= <-].
  destruct (Py.parse_int ver); simpl; [done|by intros [= <-]].
Qed.

Lemma for_each_insert_Raise_inv (parse : string → result (string * Z)) lines d e :
  for_each
    (λ (d : gmap string Z) (line : string),
       '(k, v) ← parse line; Ok (<[k := v]> d))
    lines d = Raise e →
  ∃ line, line ∈ lines ∧ parse line = Raise e.
Proof.
  revert d. induction lines as [|line lines IH]; intros d; [done|].
  cbn [for_each]. destruct (parse line) as [[k v]|e'] eqn:Hp; simpl.
  - intros (l & Hl & He)%IH. exists l. split; [by right|done].
  - intros [= ->]. exists line. split; [left|done].
Qed.

(** C10 (as the code has it): without the removed-ids file
    [load_removed_versions] returns the empty list. With a file that has
    a first line, which is skipped whatever it holds, and whose further
    lines are all well formed, it returns a dictionary, which is no
    list: the empty one when there is no further line; it has an entry
    exactly for the identifiers that a line names, and the entry is the
    version of the last line that names the identifier, so for X1.2
    followed by X1.1 it is 1, the last seen, not the maximum 2. But a
    file without any line raises [StopIteration], and a line that is not
    well formed raises [ValueError]: then no dictionary is returned. *)
Theorem load_removed_versions_last_seen :
  load_removed_versions None = Ok (PyList [])
  ∧ load_removed_versions (Some (Lines [])) = Raise StopIteration
  ∧ (∀ header lines,
       Forall (λ l, ∃ id v, removed_line l id v) lines →
       ∃ d, load_removed_versions (Some (Lines (header :: lines))) = Ok (PyDict d)
            ∧ PyDict d ≠ PyList []
            ∧ (lines = [] → d = ∅)
            ∧ (∀ id, is_Some (d !! id) ↔ ∃ l v, l ∈ lines ∧ removed_line l id v)
            ∧ (∀ before l after id v,
                 lines = (before ++ l :: after)%list →
                 removed_line l id v →
                 Forall (λ l', ∀ v', ¬ removed_line l' id v') after →
                 d !! id = Some v))
  ∧ (∀ header lines,
       Exists (λ l, ∀ id v, ¬ removed_line l id v) lines →
       load_removed_versions (Some (Lines (header :: lines))) = Raise ValueError)
  ∧ load_removed_versions
      (Some (Lines ["accession,filter"; " X1.2 , too short "; "X1.1,too short"]))
    = Ok (PyDict {[ "X1" := 1 ]}).
Proof.
  split; [done|]. split; [done|]. split; [|split; [|vm_compute; reflexivity]].
  - intros header lines Hall.
    destruct (parsed_lines lines parse_removed_line) as [kvs HF].
    { eapply Forall_impl; [exact Hall|]. intros l (id & v & Hl).
      exists (id, v). by apply parse_removed_line_spec. }
    exists (assign_all ∅ kvs). split; [|split; [done|split; [|split]]].
    + rewrite load_removed_versions_lines.
      by rewrite (for_each_parsed parse_removed_line lines kvs ∅ HF).
    + intros ->. by apply Forall2_nil_inv_l in HF as ->.
    + intros id. rewrite assign_all_is_Some, lookup_empty, list_elem_of_fmap. split.
      * intros [[? [=]]|([k v] & -> & [i Hi]%list_elem_of_lookup)].
        destruct (Forall2_lookup_r _ _ _ _ _ HF Hi) as (l & Hl & Hp).
        exists l, v. split; [by eapply list_elem_of_lookup_2|].
        by apply parse_removed_line_spec.
      * intros (l & v & [i Hi]%list_elem_of_lookup & Hp%parse_removed_line_spec).
        right. destruct (Forall2_lookup_l _ _ _ _ _ HF Hi) as (kv & Hkv & Hp').
        rewrite Hp in Hp'. injection Hp' as <-.
        exists (id, v). split; [done|]. by eapply list_elem_of_lookup_2.
    + intros before l after id v -> Hl%parse_removed_line_spec Hafter.
      apply Forall2_app_inv_l in HF as (kvs1 & kvs' & HF1 & HF' & ->).
      apply Forall2_cons_inv_l in HF' as (kv & kvs2 & Hkv & HF2 & ->).
      rewrite Hl in Hkv. injection Hkv as <-.
      apply assign_all_lookup_last. apply Forall_forall.
      intros [k' v'] [i Hi]%list_elem_of_lookup Heq. simpl in Heq. subst k'.
      destruct (Forall2_lookup_r _ _ _ _ _ HF2 Hi) as (l' & Hl' & Hp').
      apply list_elem_of_lookup_2 in Hl'.
      apply (proj1 (Forall_forall _ _) Hafter l' Hl' v').
      by apply parse_removed_line_spec.
  - intros header lines (l & Hl & Hbad)%Exists_exists.
    rewrite load_removed_versions_lines.
    destruct (for_each _ lines ∅) as [d|e] eqn:Hrun; simpl.
    + apply for_each_insert_Ok_inv in Hrun as (kvs & HF & _).
      apply list_elem_of_lookup in Hl as [i Hi].
      destruct (Forall2_lookup_l _ _ _ _ _ HF Hi) as ([id v] & _ & Hp).
      by apply parse_removed_line_spec, Hbad in Hp.
    + apply for_each_insert_Raise_inv in Hrun as (l' & _ & Hp).
      f_equal. by eapply parse_removed_line_Raise.
Qed.

Lemma load_removed_versions_last_seen_witness :
  ∃ d, load_removed_versions
         (Some (Lines ["accession,filter"; "Y9.3,n"; " X1.2 , n"; "X1.1 ,n "; "Y9.4,n"]))
       = Ok (PyDict d)
       ∧ d !! "X1" = Some 1.
Proof.
  destruct (proj1 (proj2 (proj2 load_removed_versions_last_seen))
              "accession,filter" ["Y9.3,n"; " X1.2 , n"; "X1.1 ,n "; "Y9.4,n"])
    as (d & Hd & _ & _ & _ & Hlast).
  - repeat constructor; eexists _, _; apply parse_removed_line_spec; reflexivity.
  - exists d. split; [exact Hd|].
    apply (Hlast ["Y9.3,n"; " X1.2 , n"] "X1.1 ,n " ["Y9.4,n"] "X1" 1).
    + reflexivity.
    + apply parse_removed_line_spec. reflexivity.
    + repeat constructor. intros v' H%parse_removed_line_spec.
      vm_compute in H. discriminate.
Defined.

(** C10 (as stated) fails: the file is present, and no dictionary is
    returned; an empty file and a line with a second comma make
    [load_removed_versions] raise. *)
Lemma load_removed_versions_present_no_dict :
  load_removed_versions (Some (Lines [])) = Raise StopIteration
  ∧ load_removed_versions
      (Some (Lines ["accession,filter"; "X1.2,too short, low quality"]))
    = Raise ValueError.
Proof. split; reflexivity. Qed.

(** ** Pruning: what is left alone *)




(** What [clean_profiles_from_data] leaves in a store was there before,
    unchanged and in the same order; and it removes no file that is not
    a sequence file, and no sequence file whose root name is the
    identifier of an accession of the list. *)
Theorem clean_profiles_from_data_keeps ids_list logger st :
  let st' := pruned ids_list logger st in
  (∀ lines, IDS_FILE st = Some (Lines lines) →
     ∃ lines', IDS_FILE st' = Some (Lines lines')
               ∧ stripped_lines lines' `sublist_of` stripped_lines lines)
  ∧ (∀ rows, REMOVED_IDS_FILE st = Some (Csv rows) →
       ∃ rows', REMOVED_IDS_FILE st' = Some (Csv rows') ∧ rows' `sublist_of` rows)
  ∧ (∀ rows, METADATA_FILE st = Some (Csv rows) →
       ∃ rows', METADATA_FILE st' = Some (Csv rows') ∧ rows' `sublist_of` rows)
  ∧ (∀ files, SEQS_DIR st = Some (SeqsListing files) →
       ∃ files', SEQS_DIR st' = Some (SeqsListing files')
         ∧ files' `sublist_of` files
         ∧ ∀ f, f ∈ files →
             is_fasta (fname f) = false
             ∨ (∃ a, a ∈ ids_list ∧ splitext_root (fname f) = root_of a) →
             f ∈ files').
Proof.
  intros st'. unfold st'. rewrite pruned_fields. cbv zeta.
  cbn [IDS_FILE REMOVED_IDS_FILE METADATA_FILE SEQS_DIR]. split; [|split; [|split]].
  - intros lines ->.
    destruct (clean_ids_file_lines (list_to_set ids_list) logger lines)
      as (lines' & -> & Hs & _).
    exists lines'. split; [done|]. rewrite Hs. apply sublist_filter.
  - intros rows ->. rewrite clean_removed_file_rows.
    eexists. split; [done|]. apply sublist_filter.
  - intros rows ->. rewrite clean_metadata_file_rows.
    eexists. split; [done|]. apply sublist_filter.
  - intros files ->. rewrite clean_seqs_dir_listing.
    eexists. split; [done|]. split; [apply sublist_filter|].
    intros f Hf Hkeep. apply list_elem_of_filter. split; [|done].
    intros (Hfa & Hroot & _). destruct Hkeep as [Hno|(a & Ha & Heq)]; [congruence|].
    apply Hroot. rewrite Heq. apply elem_of_map. exists a. split; [done|].
    by apply elem_of_list_to_set.
Qed.

Lemma clean_profiles_from_data_keeps_witness :
  ∃ files',
    SEQS_DIR (pruned ["A1.2"] false
                (Stores None None None
                   (Some (SeqsListing [SeqFile "B2.fasta" true; SeqFile "A1.fasta" true;
                                       SeqFile "notes.txt" true]))))
    = Some (SeqsListing files')
    ∧ SeqFile "A1.fasta" true ∈ files' ∧ SeqFile "notes.txt" true ∈ files'.
Proof.
  destruct (clean_profiles_from_data_keeps ["A1.2"] false
              (Stores None None None
                 (Some (SeqsListing [SeqFile "B2.fasta" true; SeqFile "A1.fasta" true;
                                     SeqFile "notes.txt" true]))))
    as (_ & _ & _ & Hseqs).
  destruct (Hseqs _ eq_refl) as (files' & Hdir & _ & Hkeep).
  exists files'. split; [exact Hdir|]. split.
  - apply Hkeep.
    + apply list_elem_of_In. simpl. tauto.
    + right. exists "A1.2". split; [|reflexivity].
      apply list_elem_of_In. simpl. tauto.
  - apply Hkeep.
    + apply list_elem_of_In. simpl. tauto.
    + left. reflexivity.
Defined.

Lemma remove_fasta_loop_not_about_metadata valid_roots logger files :
  Forall (λ m : message, about_metadata m.2 = false)
    (remove_fasta_loop valid_roots logger files).2.
Proof.
  induction files as [|f files IH]; [constructor|]. cbn [remove_fasta_loop].
  destruct (remove_fasta_loop valid_roots logger files) as [[remaining n] out].
  simpl in *.
  destruct (is_fasta (fname f) && bool_decide (splitext_root (fname f) ∉ valid_roots));
    [destruct (removable f)|]; simpl; [| |done];
    destruct logger; simpl; by repeat constructor.
Qed.

(** The blocks on the other stores report nothing about the metadata
    table. *)
Lemma other_blocks_not_about_metadata K logger st :
  Forall (λ m : message, about_metadata m.2 = false)
    ((clean_ids_file K logger (IDS_FILE st)).2
     ++ (clean_removed_file K logger (REMOVED_IDS_FILE st)).2)%list
  ∧ Forall (λ m : message, about_metadata m.2 = false)
      (clean_seqs_dir K logger (SEQS_DIR st)).2.
Proof.
  split; [apply Forall_app_2|].
  - destruct (IDS_FILE st) as [[|lines]|]; simpl; [| |done];
      destruct logger; try destruct (_ <? _)%nat; simpl; by repeat constructor.
  - destruct (REMOVED_IDS_FILE st) as [[|rows|rows]|]; simpl; [| | |done];
      destruct logger; try destruct (_ <? _)%nat; simpl; by repeat constructor.
  - destruct (SEQS_DIR st) as [[|files]|]; simpl; [| |done].
    + destruct logger; by repeat constructor.
    + pose proof (remove_fasta_loop_not_about_metadata (set_map root_of K) logger files)
        as Hloop.
      destruct (remove_fasta_loop _ logger files) as [[remaining n] out]. simpl in *.
      apply Forall_app_2; [done|].
      destruct (0 <? n)%nat, logger; simpl; by repeat constructor.
Qed.

(** A store that cannot be used is left as it is and the run goes on: an
    unreadable version index, a table that pandas cannot read, a removed
    log without [accession] column and a directory that cannot be listed
    are reported as errors (to the logger, or printed without one); a
    metadata table without [accession] column only draws a warning, and
    only with a logger. *)
Theorem clean_profiles_from_data_skips_unreadable ids_list logger st :
  let st' := pruned ids_list logger st in
  let msgs := (clean_profiles_from_data ids_list logger st).2 in
  let error := if logger then ERROR else PRINT in
  (IDS_FILE st = Some Unreadable →
     IDS_FILE st' = Some Unreadable
     ∧ (error, ErrorUpdating IdsFile OSError) ∈ msgs)
  ∧ (REMOVED_IDS_FILE st = Some BadCsv →
       REMOVED_IDS_FILE st' = Some BadCsv
       ∧ (error, ErrorUpdating RemovedIdsFile ParserError) ∈ msgs)
  ∧ (∀ rows, REMOVED_IDS_FILE st = Some (CsvNoAccession rows) →
       REMOVED_IDS_FILE st' = Some (CsvNoAccession rows)
       ∧ (error, ErrorUpdating RemovedIdsFile KeyError) ∈ msgs)
  ∧ (METADATA_FILE st = Some BadCsv →
       METADATA_FILE st' = Some BadCsv
       ∧ (error, ErrorUpdating MetadataFile ParserError) ∈ msgs)
  ∧ (∀ rows, METADATA_FILE st = Some (CsvNoAccession rows) →
       METADATA_FILE st' = Some (CsvNoAccession rows)
       ∧ (∀ lvl e, (lvl, ErrorUpdating MetadataFile e) ∉ msgs)
       ∧ ((WARNING, NoAccessionColumn) ∈ msgs ↔ logger = true))
  ∧ (SEQS_DIR st = Some SeqsNoListing →
       SEQS_DIR st' = Some SeqsNoListing
       ∧ (error, ErrorCleaningFasta OSError) ∈ msgs).
Proof.
  intros st' msgs error. unfold st', msgs.
  rewrite pruned_fields, clean_profiles_from_data_messages. cbv zeta.
  cbn [IDS_FILE REMOVED_IDS_FILE METADATA_FILE SEQS_DIR].
  set (K := list_to_set ids_list : gset string).
  assert (∀ ev, (error, ev) ∈ log_or_print logger ev) as Herr.
  { intros ev. unfold error, log_or_print. destruct logger; left. }
  split; [|split; [|split; [|split; [|split]]]].
  - intros ->. split; [done|]. apply elem_of_app. left. apply Herr.
  - intros ->. split; [done|]. apply elem_of_app. right.
    apply elem_of_app. left. apply Herr.
  - intros rows ->. split; [done|]. apply elem_of_app. right.
    apply elem_of_app. left. apply Herr.
  - intros ->. split; [done|]. do 2 (apply elem_of_app; right).
    apply elem_of_app. left. apply Herr.
  - intros rows Hmeta. rewrite Hmeta. split; [done|].
    destruct (other_blocks_not_about_metadata K logger st) as [Hfirst Hlast].
    assert (∀ m : message,
              about_metadata m.2 = true →
              m ∈ ((clean_ids_file K logger (IDS_FILE st)).2
                   ++ (clean_removed_file K logger (REMOVED_IDS_FILE st)).2
                   ++ (clean_metadata_file K logger (Some (CsvNoAccession rows))).2
                   ++ (clean_seqs_dir K logger (SEQS_DIR st)).2)%list
              ↔ m ∈ log logger WARNING NoAccessionColumn) as Honly.
    { intros m Hm. rewrite (assoc_L (++)), !elem_of_app. simpl. split.
      - intros [Hin|[Hin|Hin]]; [|done|].
        + apply elem_of_app in Hin.
          apply (proj1 (Forall_forall _ _) Hfirst) in Hin. congruence.
        + apply (proj1 (Forall_forall _ _) Hlast) in Hin. congruence.
      - intros Hin. right. by left. }
    split.
    + intros lvl e Hin%Honly; [|done].
      destruct logger; simpl in Hin.
      * by apply list_elem_of_singleton in Hin.
      * by apply elem_of_nil in Hin.
    + rewrite Honly by done. destruct logger; simpl.
      * split; [done|]. intros _. left.
      * split; [by intros ?%elem_of_nil|done].
  - intros ->. split; [done|]. do 3 (apply elem_of_app; right). apply Herr.
Qed.

Lemma clean_profiles_from_data_skips_unreadable_witness :
  let st := Stores (Some Unreadable) (Some BadCsv)
                   (Some (CsvNoAccession [[Some "A1.1"]])) (Some SeqsNoListing) in
  pruned ["A1.1"] false st = st
  ∧ (PRINT, ErrorUpdating IdsFile OSError) ∈ (clean_profiles_from_data ["A1.1"] false st).2
  ∧ (WARNING, NoAccessionColumn) ∉ (clean_profiles_from_data ["A1.1"] false st).2.
Proof.
  intros st.
  destruct (clean_profiles_from_data_skips_unreadable ["A1.1"] false st)
    as (Hids & _ & _ & _ & Hmeta & _).
  split; [reflexivity|]. split.
  - apply (Hids eq_refl).
  - destruct (Hmeta [[Some "A1.1"]] eq_refl) as (_ & _ & Hwarn).
    intros Hin. apply Hwarn in Hin. discriminate.
Defined.

(** ** Resolution: the frame as a whole *)

Lemma add_id_version_versioned entries entries2 :
  add_id_version entries = Ok entries2 →
  entries ≠ [] ∧ Forall2 versioned entries entries2.
Proof.
  unfold add_id_version. destruct entries as [|e0 rest]; [done|].
  assert (e0 :: rest ≠ []) as Hne by done. revert Hne.
  generalize (e0 :: rest).
  intros entries Hne HF%map_result_inv. split; [done|].
  eapply Forall2_impl; [exact HF|].
  intros e v. simpl. unfold versioned.
  destruct (split_accession _) as [[i z]|]; simpl; [|done].
  by intros [= <-].
Qed.

Lemma versioned_drop entries entries2 :
  Forall2 versioned entries entries2 → drop_id_version <$> entries2 = entries.
Proof.
  induction 1 as [|[i r] [i' r' k v] ?? (Hl & Hd & _) _ IH]; [done|].
  rewrite fmap_cons, IH. simpl in *. by rewrite Hl, Hd.
Qed.

Lemma save_dropped_rows_fmap {A} (to_dropped : A → string → dropped_row) l reason :
  save_dropped_rows to_dropped l reason = (λ r, to_dropped r reason) <$> l.
Proof. by destruct l. Qed.

(** [duplicate_removal] unfolded: the frame returned and the rows
    written to the debug file. *)
Lemma duplicate_removal_Ok entries entries2 :
  add_id_version (keep_last entries) = Ok entries2 →
  duplicate_removal entries
  = (Ok (drop_id_version <$> resolved entries2),
     ((λ e, Dropped (data e) None "duplicate")
        <$> mask_select (duplicated_last entries) entries)
     ++ ((λ e, Dropped (v_data e) (Some (v_id e, v_version e)) "update")
           <$> filter (λ e, v_label e ∉ groupby_idxmax entries2) entries2))%list.
Proof.
  intros Hadd. unfold duplicate_removal. cbv zeta.
  rewrite first_step_keep_last, Hadd, !save_dropped_rows_fmap. done.
Qed.

Lemma duplicate_removal_Ok_inv entries kept :
  (duplicate_removal entries).1 = Ok kept →
  ∃ entries2, add_id_version (keep_last entries) = Ok entries2
              ∧ kept = drop_id_version <$> resolved entries2.
Proof.
  destruct (add_id_version (keep_last entries)) as [entries2|e] eqn:Hadd.
  - rewrite (duplicate_removal_Ok _ _ Hadd). simpl. intros [= <-]. eauto.
  - unfold duplicate_removal. cbv zeta. rewrite first_step_keep_last, Hadd. done.
Qed.

Lemma map_result_Raise {A B} (f : A → result B) l e :
  map_result f l = Raise e → ∃ x, x ∈ l ∧ f x = Raise e.
Proof.
  induction l as [|x l IH]; cbn [map_result]; [done|].
  destruct (f x) as [y|e'] eqn:Hx; simpl.
  - destruct (map_result f l) as [ys|e'] eqn:Hl; simpl; [done|].
    intros [= ->]. destruct (IH eq_refl) as (x' & ? & ?).
    exists x'. split; [by right|done].
  - intros [= ->]. exists x. split; [left|done].
Qed.

Lemma split_accession_Raise a e : split_accession a = Raise e → e = ValueError.
Proof.
  unfold split_accession, Py.unpack2, Py.int.
  destruct (Py.split "." a) as [|p [|q [|]]]; simpl; try by intros [= <-].
  destruct (Py.parse_int q); simpl; [done|by intros [= <-]].
Qed.

(** One accession that does not parse makes [duplicate_removal] raise. *)
Lemma duplicate_removal_malformed rows r e :
  r ∈ rows → split_accession (accession r) = Raise e →
  (duplicate_removal (DataFrame_of rows)).1 = Raise ValueError.
Proof.
  intros [i Hi]%list_elem_of_lookup Hr.
  destruct (keep_last_accession (DataFrame_of rows) (Entry i r))
    as (e' & He' & Hacc); [by apply elem_of_DataFrame_of|].
  simpl in Hacc.
  destruct (duplicate_removal (DataFrame_of rows)).1 as [kept|e0] eqn:Hrun.
  - apply duplicate_removal_Ok_inv in Hrun as (entries2 & Hadd & _).
    destruct (add_id_version_versioned _ _ Hadd) as [_ HF].
    destruct (versioned_elem_of_l _ _ _ HF He') as (w & _ & _ & _ & Hsw).
    congruence.
  - f_equal. revert Hrun. unfold duplicate_removal. cbv zeta.
    rewrite first_step_keep_last.
    destruct (add_id_version (keep_last (DataFrame_of rows))) as [?|e1] eqn:Hadd;
      simpl; [done|].
    intros [= <-]. revert Hadd. unfold add_id_version.
    destruct (keep_last (DataFrame_of rows)); [by intros [= <-]|].
    intros (x & _ & Hx)%map_result_Raise.
    destruct (split_accession (accession (data x))) as [[??]|e2] eqn:Hs;
      simpl in Hx; [done|].
    injection Hx as <-. by eapply split_accession_Raise.
Qed.




Lemma elem_of_resolved entries2 e :
  e ∈ resolved entries2 ↔ e ∈ entries2 ∧ v_label e ∈ groupby_idxmax entries2.
Proof. apply second_step_elem_of. Qed.

Lemma NoDup_omap_inj {A B} (f : A → option B) l :
  (∀ x1 x2 y, x1 ∈ l → x2 ∈ l → f x1 = Some y → f x2 = Some y → x1 = x2) →
  NoDup l → NoDup (omap f l).
Proof.
  intros Hinj. induction 1 as [|x l Hx Hnd IH]; [constructor|]. simpl.
  assert (NoDup (omap f l)) as IH'.
  { apply IH. intros x1 x2 y ??. apply Hinj; by right. }
  destruct (f x) as [y|] eqn:Hy; [|done]. constructor; [|done].
  intros (x' & Hx' & Hy')%list_elem_of_omap. apply Hx.
  by rewrite (Hinj x x' y); [|left|right|..].
Qed.

Section resolved_facts.
Variable entries2 : list ventry.
Hypothesis labels_NoDup : NoDup (v_label <$> entries2).

Lemma group_keys_NoDup : NoDup (group_keys entries2).
Proof. unfold group_keys. rewrite merge_sort_Permutation. apply NoDup_remove_dups. Qed.

(** The label that [idxmax] gives for a key is that of a row of the
    key. *)
Lemma groupby_idxmax_row i :
  i ∈ groupby_idxmax entries2 →
  ∃ e, e ∈ entries2 ∧ v_label e = i
       ∧ idxmax (group entries2 (v_id e)) = Some i.
Proof.
  intros (k & _ & Hidx)%elem_of_groupby_idxmax.
  destruct (idxmax_Some_inv _ _ Hidx) as (e & [<- He]%elem_of_group & Hl).
  eauto.
Qed.

Lemma groupby_idxmax_NoDup : NoDup (groupby_idxmax entries2).
Proof.
  unfold groupby_idxmax. apply NoDup_omap_inj; [|apply group_keys_NoDup].
  intros k1 k2 i _ _ H1 H2.
  destruct (idxmax_Some_inv _ _ H1) as (e1 & [<- He1]%elem_of_group & Hl1).
  destruct (idxmax_Some_inv _ _ H2) as (e2 & [<- He2]%elem_of_group & Hl2).
  f_equal. eapply NoDup_fmap_inj_on; [exact labels_NoDup|done|done|congruence].
Qed.

Lemma loc_NoDup idx : NoDup idx → NoDup (loc v_label entries2 idx).
Proof.
  intros Hidx. unfold loc. apply NoDup_bind; [| |done].
  - intros i1 i2 e _ _ [<- _]%list_elem_of_filter [<- _]%list_elem_of_filter. done.
  - intros i _. apply NoDup_filter. by eapply NoDup_fmap_1.
Qed.

Lemma resolved_NoDup : NoDup (resolved entries2).
Proof.
  unfold resolved. destruct (filter _ entries2).
  - by eapply NoDup_fmap_1.
  - apply loc_NoDup, groupby_idxmax_NoDup.
Qed.

(** At most one row of an identifier stays. *)
Lemma resolved_ids_NoDup : NoDup (v_id <$> resolved entries2).
Proof.
  apply NoDup_fmap_2_strong; [|apply resolved_NoDup].
  intros e1 e2 [He1 Hl1]%elem_of_resolved [He2 Hl2]%elem_of_resolved Hid.
  destruct (groupby_idxmax_row _ Hl1) as (e1' & He1' & Hl1' & Hidx1).
  destruct (groupby_idxmax_row _ Hl2) as (e2' & He2' & Hl2' & Hidx2).
  assert (e1' = e1) as -> by by eapply NoDup_fmap_inj_on.
  assert (e2' = e2) as -> by by eapply NoDup_fmap_inj_on.
  rewrite Hid, Hidx2 in Hidx1. injection Hidx1 as Hl.
  by eapply NoDup_fmap_inj_on.
Qed.

(** The rows that stay and the rows dropped as older make up the
    frame. *)
Lemma resolved_partition :
  (resolved entries2
   ++ filter (λ e, v_label e ∉ groupby_idxmax entries2) entries2)%list
  ≡ₚ entries2.
Proof.
  unfold resolved.
  destruct (filter (λ e, v_label e ∉ groupby_idxmax entries2) entries2) eqn:Hf.
  - by rewrite app_nil_r.
  - rewrite <-Hf.
    etrans; [|apply (filter_app_complement
                       (λ e, v_label e ∈ groupby_idxmax entries2) entries2)].
    apply Permutation_app; [|done]. apply NoDup_Permutation.
    + apply loc_NoDup, groupby_idxmax_NoDup.
    + apply NoDup_filter. by eapply NoDup_fmap_1.
    + intros e. unfold loc. rewrite list_elem_of_bind, list_elem_of_filter. split.
      * by intros (i & [<- He]%list_elem_of_filter & Hi).
      * intros [Hi He]. exists (v_label e). split; [|done].
        by apply list_elem_of_filter.
Qed.

(** Every identifier of the frame keeps a row. *)
Lemma resolved_covers e :
  e ∈ entries2 →
  ∃ w, w ∈ resolved entries2 ∧ v_id w = v_id e ∧ v_version e ≤ v_version w.
Proof.
  intros He.
  destruct (idxmax_spec (group entries2 (v_id e))) as (w & Hw & Hidx & Hmax).
  { intros Hnil. assert (e ∈ group entries2 (v_id e)) as Hin by by apply elem_of_group.
    rewrite Hnil in Hin. by apply elem_of_nil in Hin. }
  pose proof Hw as [Hwid Hw']%elem_of_group.
  exists w. split; [|split; [done|]].
  - apply elem_of_resolved. split; [done|].
    apply elem_of_groupby_idxmax. exists (v_id e). split; [|done].
    by apply list_elem_of_fmap_2.
  - apply Hmax. by apply elem_of_group.
Qed.

End resolved_facts.

(** In a frame with one row per identifier no row is older than
    another, and the second step leaves the frame as it is. *)
Lemma no_older_versions entries2 :
  NoDup (v_id <$> entries2) →
  filter (λ e, v_label e ∉ groupby_idxmax entries2) entries2 = [].
Proof.
  intros Hids. apply filter_none. intros e He Hnot. apply Hnot.
  apply elem_of_groupby_idxmax. exists (v_id e).
  split; [by apply list_elem_of_fmap_2|].
  unfold group. by rewrite (filter_by_key_singleton v_id entries2 e).
Qed.

Lemma resolved_id entries2 :
  NoDup (v_id <$> entries2) → resolved entries2 = entries2.
Proof. intros Hids. unfold resolved. by rewrite no_older_versions. Qed.

Lemma no_duplicates_mask entries :
  NoDup ((accession ∘ data) <$> entries) →
  mask_select (duplicated_last entries) entries = [].
Proof.
  induction entries as [|e rest IH]; [done|]. rewrite fmap_cons.
  intros [Hnotin Hnd]%NoDup_cons. simpl.
  rewrite bool_decide_false by done. by apply IH.
Qed.

Lemma mask_select_partition entries :
  (keep_last entries ++ mask_select (duplicated_last entries) entries)%list
  ≡ₚ entries.
Proof.
  induction entries as [|e rest IH]; [done|].
  rewrite keep_last_cons. simpl. destruct (bool_decide _).
  - by rewrite <-Permutation_middle, IH.
  - simpl. by rewrite IH.
Qed.

Lemma DataFrame_of_data rows : data <$> DataFrame_of rows = rows.
Proof.
  unfold DataFrame_of. apply list_eq. intros i.
  rewrite list_lookup_fmap, list_lookup_imap. by destruct (rows !! i).
Qed.

Lemma versioned_data entries entries2 :
  Forall2 versioned entries entries2 → v_data <$> entries2 = data <$> entries.
Proof. induction 1 as [|e v ?? (? & ? & ?)]; simpl; [done|]. by f_equal. Qed.

(** Whenever [duplicate_removal] returns, no record has vanished: the
    records of the frame returned and the records written to the debug
    file are, together, the records given, each as often as it was
    given; and every record of the debug file carries the reason
    "duplicate" or "update". *)
Theorem duplicate_removal_partition (rows : list row) kept :
  (duplicate_removal (DataFrame_of rows)).1 = Ok kept →
  ((data <$> kept) ++ (d_data <$> (duplicate_removal (DataFrame_of rows)).2))%list
  ≡ₚ rows
  ∧ Forall (λ d, d_reason d = "duplicate" ∨ d_reason d = "update")
      (duplicate_removal (DataFrame_of rows)).2.
Proof.
  intros (entries2 & Hadd & ->)%duplicate_removal_Ok_inv.
  rewrite (duplicate_removal_Ok _ _ Hadd). cbn [snd].
  destruct (add_id_version_versioned _ _ Hadd) as [_ HF].
  assert (NoDup (v_label <$> entries2)) as Hnd.
  { rewrite (versioned_labels _ _ HF).
    eapply sublist_NoDup; [apply DataFrame_of_NoDup|].
    apply fmap_sublist, keep_last_sublist. }
  split.
  - rewrite fmap_app, <-!list_fmap_compose.
    change (data ∘ drop_id_version) with v_data.
    transitivity ((v_data <$> (resolved entries2
                   ++ filter (λ e, v_label e ∉ groupby_idxmax entries2) entries2))
                  ++ (data <$> mask_select (duplicated_last (DataFrame_of rows))
                                 (DataFrame_of rows)))%list.
    { rewrite fmap_app, <-(assoc_L (++)). apply Permutation_app; [done|].
      apply Permutation_app_comm. }
    rewrite (resolved_partition _ Hnd), (versioned_data _ _ HF), <-fmap_app.
    by rewrite mask_select_partition, DataFrame_of_data.
  - apply Forall_app. split; apply Forall_fmap, Forall_forall; intros; simpl; tauto.
Qed.

Lemma duplicate_removal_partition_witness :
  ∃ kept dropped,
    duplicate_removal
      (DataFrame_of [Row "X1.1" [Some "a"]; Row "X1.2" []; Row "X1.2" [Some "b"]])
    = (Ok kept, dropped)
    ∧ ((data <$> kept) ++ (d_data <$> dropped))%list
      ≡ₚ [Row "X1.1" [Some "a"]; Row "X1.2" []; Row "X1.2" [Some "b"]].
Proof.
  eexists _, _. split; [reflexivity|].
  apply (duplicate_removal_partition
           [Row "X1.1" [Some "a"]; Row "X1.2" []; Row "X1.2" [Some "b"]]).
  reflexivity.
Defined.

(** What [duplicate_removal] returns is resolved for good: given the
    records of its result again (as a caller does that writes them to a
    store and reads them back), it returns them all, in the same order,
    and writes nothing to the debug file. *)
Theorem duplicate_removal_idempotent (rows : list row) kept :
  (duplicate_removal (DataFrame_of rows)).1 = Ok kept →
  duplicate_removal (DataFrame_of (data <$> kept))
  = (Ok (DataFrame_of (data <$> kept)), []).
Proof.
  intros (entries2 & Hadd & ->)%duplicate_removal_Ok_inv.
  destruct (add_id_version_versioned _ _ Hadd) as [Hne HF].
  assert (NoDup (v_label <$> entries2)) as Hnd.
  { rewrite (versioned_labels _ _ HF).
    eapply sublist_NoDup; [apply DataFrame_of_NoDup|].
    apply fmap_sublist, keep_last_sublist. }
  set (res := resolved entries2).
  rewrite <-list_fmap_compose. change (data ∘ drop_id_version) with v_data.
  set (entries' := DataFrame_of (v_data <$> res)).
  pose proof (resolved_ids_NoDup _ Hnd) as Hids. fold res in Hids.
  assert (∀ w, w ∈ res →
            split_accession (accession (v_data w)) = Ok (v_id w, v_version w))
    as Hsplit.
  { intros w [Hw _]%elem_of_resolved.
    destruct (versioned_elem_of_r _ _ _ HF Hw) as (e & _ & _ & -> & Hs). done. }
  assert (res ≠ []) as Hres.
  { destruct entries2 as [|e0 entries2'] eqn:He2.
    - inversion HF as [Hk|]. by rewrite <-Hk in Hne.
    - destruct (resolved_covers (e0 :: entries2') e0) as (w & Hw & _); [left|].
      intros Hnil. unfold res in Hnil. rewrite Hnil in Hw.
      by apply elem_of_nil in Hw. }
  assert (∀ i, entries' !! i = (λ w, Entry i (v_data w)) <$> res !! i) as Hlookup.
  { intros i. unfold entries', DataFrame_of.
    rewrite list_lookup_imap, list_lookup_fmap. by destruct (res !! i). }
  assert (keep_last entries' = entries') as Hkeep.
  { apply no_duplicates_keep_all, no_duplicates_mask.
    rewrite list_fmap_compose. unfold entries'. rewrite DataFrame_of_data.
    rewrite <-list_fmap_compose. apply NoDup_fmap_2_strong; [|by eapply NoDup_fmap_1].
    intros w1 w2 Hw1 Hw2 Hacc. simpl in Hacc.
    pose proof (Hsplit w1 Hw1) as H1. rewrite Hacc, (Hsplit w2 Hw2) in H1.
    eapply NoDup_fmap_inj_on; [exact Hids|done|done|congruence]. }
  destruct (add_id_version_Ok entries') as (entries2' & Hadd' & HF').
  { unfold entries', DataFrame_of. destruct res; [done|]. done. }
  { apply Forall_forall. intros e' [i Hi]%list_elem_of_lookup.
    rewrite Hlookup in Hi. destruct (res !! i) as [w|] eqn:Hw; [|done].
    injection Hi as <-. eexists. apply Hsplit, list_elem_of_lookup. eauto. }
  assert (NoDup (v_id <$> entries2')) as Hids'.
  { replace (v_id <$> entries2') with (v_id <$> res); [done|].
    apply list_eq. intros i. rewrite !list_lookup_fmap.
    destruct (res !! i) as [w|] eqn:Hw.
    - pose proof (Hlookup i) as Hi. rewrite Hw in Hi. simpl in Hi.
      destruct (Forall2_lookup_l _ _ _ _ _ HF' Hi) as (v' & -> & _ & _ & Hs).
      simpl in *. rewrite (Hsplit w) in Hs by (apply list_elem_of_lookup; eauto).
      by injection Hs as -> _.
    - pose proof (Hlookup i) as Hi. rewrite Hw in Hi. simpl in Hi.
      apply lookup_ge_None in Hi. rewrite (Forall2_length _ _ _ HF') in Hi.
      apply lookup_ge_None in Hi. by rewrite Hi. }
  rewrite <-Hkeep in Hadd'. rewrite (duplicate_removal_Ok _ _ Hadd').
  rewrite resolved_id, no_older_versions by done.
  rewrite no_duplicates_mask.
  - rewrite Hkeep in Hadd'. by rewrite (versioned_drop _ _ HF').
  - rewrite <-Hkeep. apply keep_last_NoDup.
Qed.

Lemma duplicate_removal_idempotent_witness :
  duplicate_removal (DataFrame_of [Row "X1.2" [Some "b"]; Row "Y2.1" []])
  = (Ok (DataFrame_of [Row "X1.2" [Some "b"]; Row "Y2.1" []]), []).
Proof.
  apply (duplicate_removal_idempotent
           [Row "X1.1" [Some "a"]; Row "X1.2" []; Row "X1.2" [Some "b"]; Row "Y2.1" []]
           [Entry 2 (Row "X1.2" [Some "b"]); Entry 3 (Row "Y2.1" [])]).
  reflexivity.
Defined.

(** ** Cleaning up old files *)

Lemma ctime_keys_Ok files keyed :
  ctime_keys files = Ok keyed →
  snd <$> keyed = files ∧ Forall (λ p, d_ctime p.2 = Some p.1) keyed.
Proof.
  intros HF%map_result_inv.
  induction HF as [|f p files keyed Hp _ [IH1 IH2]]; [by split|].
  destruct (d_ctime f) as [t|] eqn:Ht; [|done]. injection Hp as <-.
  split; [simpl; by f_equal|]. by constructor.
Qed.

Lemma ctime_keys_readable files :
  Forall (λ f, is_Some (d_ctime f)) files → ∃ keyed, ctime_keys files = Ok keyed.
Proof.
  intros Hall.
  destruct (map_result_Forall2
              (λ f, match d_ctime f with
                    | Some t => Ok (t, f)
                    | None => Raise OSError
                    end) files) as (keyed & H & _).
  - eapply Forall_impl; [exact Hall|]. intros f [t ->]. eauto.
  - by exists keyed.
Qed.

Lemma ctime_keys_unreadable files f :
  f ∈ files → d_ctime f = None → ctime_keys files = Raise OSError.
Proof.
  intros Hf Hnone. unfold ctime_keys.
  induction files as [|g files IH]; [by apply elem_of_nil in Hf|].
  cbn [map_result]. destruct (d_ctime g) as [t|] eqn:Hg; [|done]. simpl.
  apply elem_of_cons in Hf as [->|Hf]; [congruence|]. by rewrite IH.
Qed.

Lemma insert_desc_Permutation x l : insert_desc x l ≡ₚ x :: l.
Proof.
  induction l as [|y l IH]; simpl; [done|].
  destruct (y.1 <? x.1); [done|]. by rewrite IH, Permutation_swap.
Qed.

Lemma insert_desc_sorted x l :
  StronglySorted key_desc l → StronglySorted key_desc (insert_desc x l).
Proof.
  induction 1 as [|y l Hs IH Hall]; simpl; [repeat constructor|].
  destruct (Z.ltb_spec y.1 x.1).
  - constructor; [by constructor|]. constructor; [unfold key_desc; lia|].
    eapply Forall_impl; [exact Hall|]. unfold key_desc. intros; simpl in *; lia.
  - constructor; [done|]. rewrite insert_desc_Permutation.
    constructor; [unfold key_desc; lia|done].
Qed.

Lemma foldl_insert_desc keyed sorted :
  foldl (λ sorted x, insert_desc x sorted) sorted keyed ≡ₚ (sorted ++ keyed)%list
  ∧ (StronglySorted key_desc sorted →
     StronglySorted key_desc (foldl (λ sorted x, insert_desc x sorted) sorted keyed)).
Proof.
  revert sorted. induction keyed as [|x keyed IH]; intros sorted; simpl.
  - by rewrite app_nil_r.
  - destruct (IH (insert_desc x sorted)) as [Hperm Hsorted]. split.
    + rewrite Hperm, insert_desc_Permutation. simpl. apply Permutation_middle.
    + intros Hs. by apply Hsorted, insert_desc_sorted.
Qed.

(** The sort gives the files back, the most recent first. *)
Lemma sort_by_ctime_desc_spec files keyed :
  ctime_keys files = Ok keyed →
  sort_by_ctime_desc keyed ≡ₚ files
  ∧ StronglySorted (λ f g, not_newer g f) (sort_by_ctime_desc keyed).
Proof.
  intros [Hsnd Hkeys]%ctime_keys_Ok. unfold sort_by_ctime_desc.
  destruct (foldl_insert_desc keyed []) as [Hperm Hsorted]. split.
  - by rewrite Hperm, app_nil_l, Hsnd.
  - specialize (Hsorted ltac:(constructor)).
    assert (Forall (λ p, d_ctime p.2 = Some p.1)
              (foldl (λ sorted x, insert_desc x sorted) [] keyed)) as Hall.
    { by rewrite Hperm. }
    revert Hsorted Hall.
    generalize (foldl (λ sorted x, insert_desc x sorted) [] keyed).
    intros l. induction 1 as [|p l Hs IH Hp]; [constructor|].
    intros [Hkey Hall]%Forall_cons. rewrite fmap_cons. constructor; [by apply IH|].
    apply Forall_fmap, Forall_forall. intros q Hq. simpl.
    intros tg tf Hg Hf.
    pose proof (proj1 (Forall_forall _ _) Hp q Hq) as Hle.
    pose proof (proj1 (Forall_forall _ _) Hall q Hq) as Hqkey. simpl in Hqkey.
    unfold key_desc in Hle. congruence.
Qed.

Lemma slice_from_drop {A} (k : Z) (l : list A) :
  ∃ n : nat, slice_from k l = drop n l
             ∧ (0 ≤ k → n = Z.to_nat k)
             ∧ (k < 0 → n = Z.to_nat (Z.of_nat (length l) + k)).
Proof.
  unfold slice_from. destruct (Z.leb_spec 0 k); eexists; (split; [done|]); split;
    intros; done || lia.
Qed.

Lemma remove_old_files_prefix files_to_remove :
  ∃ rest, files_to_remove = ((remove_old_files files_to_remove).1 ++ rest)%list.
Proof.
  induction files_to_remove as [|f files IH]; simpl; [by exists []|].
  destruct (d_removable f); [|by eexists].
  destruct (remove_old_files files) as [removed e]. destruct IH as [rest IH].
  exists rest. simpl in *. by f_equal.
Qed.

Lemma remove_old_files_all files_to_remove :
  Forall (λ f, d_removable f = true) files_to_remove →
  remove_old_files files_to_remove = (files_to_remove, None).
Proof.
  induction 1 as [|f files Hf _ IH]; simpl; [done|]. by rewrite Hf, IH.
Qed.

(** What leaves the directory is a file with one of the three
    extensions. *)
Lemma cleanup_old_files_removed keep_last logger all_files :
  ∃ removed,
    (cleanup_old_files keep_last logger (Some all_files)).1
    = Some (filter (λ f, d_name f ∉ d_name <$> removed) all_files)
    ∧ removed ⊆ cleanup_candidates all_files.
Proof.
  assert ((Some all_files : option (list dir_file))
          = Some (filter (λ f, d_name f ∉ d_name <$> []) all_files)) as Hsame.
  { f_equal. symmetry. apply filter_id, Forall_forall. intros f _.
    apply not_elem_of_nil. }
  unfold cleanup_old_files. fold (cleanup_candidates all_files).
  destruct (_ <=? keep_last).
  { exists []. split; [exact Hsame|]. apply list_subseteq_nil. }
  destruct (ctime_keys (cleanup_candidates all_files)) as [keyed|e] eqn:Hkeys.
  2: { exists []. split; [exact Hsame|]. apply list_subseteq_nil. }
  destruct (sort_by_ctime_desc_spec _ _ Hkeys) as [Hperm _].
  destruct (slice_from_drop keep_last (sort_by_ctime_desc keyed)) as (n & -> & _).
  destruct (remove_old_files_prefix (drop n (sort_by_ctime_desc keyed)))
    as [rest Hrest].
  destruct (remove_old_files _) as [removed e]. simpl in *.
  exists removed. split; [done|]. intros f Hf.
  rewrite <-Hperm. apply (subseteq_drop n). rewrite Hrest.
  apply elem_of_app. by left.
Qed.

(** [cleanup_old_files] never removes a file without one of the
    extensions .txt, .csv and .log, and what it leaves is in the order of
    the listing. It removes nothing at all when no more than [keep_last]
    files have such an extension, and nothing when the creation time of
    one of them cannot be read, however many there are. *)
Theorem cleanup_old_files_spares keep_last logger all_files :
  ∃ remaining,
    (cleanup_old_files keep_last logger (Some all_files)).1 = Some remaining
    ∧ remaining `sublist_of` all_files
    ∧ (∀ f, f ∈ all_files → has_cleanup_extension (d_name f) = false →
            f ∈ remaining)
    ∧ (Z.of_nat (length (cleanup_candidates all_files)) ≤ keep_last →
       remaining = all_files)
    ∧ ((∃ f, f ∈ cleanup_candidates all_files ∧ d_ctime f = None) →
       remaining = all_files).
Proof.
  destruct (cleanup_old_files_removed keep_last logger all_files)
    as (removed & Hrem & Hsub).
  eexists. split; [exact Hrem|]. split; [apply sublist_filter|]. split; [|split].
  - intros f Hf Hext. apply list_elem_of_filter. split; [|done].
    intros (g & Hname & Hg%Hsub)%list_elem_of_fmap.
    apply list_elem_of_filter in Hg as [Hg _]. congruence.
  - intros Hle. revert Hrem. unfold cleanup_old_files.
    fold (cleanup_candidates all_files).
    destruct (Z.leb_spec (Z.of_nat (length (cleanup_candidates all_files))) keep_last);
      [|lia].
    simpl. intros [= Heq]. by rewrite <-Heq.
  - intros (f & Hf & Hnone). revert Hrem. unfold cleanup_old_files.
    fold (cleanup_candidates all_files).
    destruct (_ <=? _); simpl; [intros [= Heq]; by rewrite <-Heq|].
    rewrite (ctime_keys_unreadable _ _ Hf Hnone). simpl.
    intros [= Heq]. by rewrite <-Heq.
Qed.

Lemma cleanup_old_files_spares_witness :
  ∃ remaining,
    (cleanup_old_files 1 true
       (Some [DirFile "run1.log" (Some 10) true; DirFile "README" (Some 1) true;
              DirFile "run2.log" None true; DirFile "run3.log" (Some 30) true])).1
    = Some remaining
    ∧ DirFile "README" (Some 1) true ∈ remaining
    ∧ remaining
      = [DirFile "run1.log" (Some 10) true; DirFile "README" (Some 1) true;
         DirFile "run2.log" None true; DirFile "run3.log" (Some 30) true].
Proof.
  destruct (cleanup_old_files_spares 1 true
       [DirFile "run1.log" (Some 10) true; DirFile "README" (Some 1) true;
        DirFile "run2.log" None true; DirFile "run3.log" (Some 30) true])
    as (remaining & Hrun & _ & Hspare & _ & Hsame).
  exists remaining. split; [exact Hrun|]. split.
  - apply Hspare; [|reflexivity]. apply list_elem_of_In. simpl. tauto.
  - apply Hsame. exists (DirFile "run2.log" None true). split; [|reflexivity].
    apply list_elem_of_In. simpl. tauto.
Defined.

(** In a directory whose files with one of the three extensions all have
    a readable creation time and can be removed, and of which there are
    more than [keep_last], [cleanup_old_files] leaves exactly [keep_last]
    of them, and none that it leaves is older than one that it removes.
    A negative [keep_last] does not empty the directory: it is the
    number of files removed, the oldest ones. *)
Theorem cleanup_old_files_keeps_most_recent keep_last logger all_files :
  NoDup (d_name <$> all_files) →
  Forall (λ f, is_Some (d_ctime f) ∧ d_removable f = true)
    (cleanup_candidates all_files) →
  keep_last < Z.of_nat (length (cleanup_candidates all_files)) →
  ∃ remaining,
    (cleanup_old_files keep_last logger (Some all_files)).1 = Some remaining
    ∧ (0 ≤ keep_last →
       length (cleanup_candidates remaining) = Z.to_nat keep_last)
    ∧ (keep_last < 0 →
       length (cleanup_candidates remaining)
       = Z.to_nat (Z.of_nat (length (cleanup_candidates all_files)) + keep_last))
    ∧ (∀ f g, f ∈ cleanup_candidates remaining →
              g ∈ all_files → g ∉ remaining → not_newer g f).
Proof.
  intros Hnames Hok Hk.
  set (files := cleanup_candidates all_files) in *.
  destruct (ctime_keys_readable files) as [keyed Hkeys].
  { eapply Forall_impl; [exact Hok|]. by intros f [? _]. }
  destruct (sort_by_ctime_desc_spec _ _ Hkeys) as [Hperm Hsorted].
  set (sorted := sort_by_ctime_desc keyed) in *.
  destruct (slice_from_drop keep_last sorted) as (n & Hslice & Hpos & Hneg).
  assert (length sorted = length files) as Hlen by by rewrite Hperm.
  assert (n ≤ length files)%nat as Hn.
  { destruct (Z.leb_spec 0 keep_last); [rewrite Hpos by done|rewrite Hneg by done];
      lia. }
  assert ((cleanup_old_files keep_last logger (Some all_files)).1
          = Some (filter (λ f, d_name f ∉ d_name <$> drop n sorted) all_files))
    as Hrun.
  { unfold cleanup_old_files. fold (cleanup_candidates all_files). fold files.
    destruct (Z.leb_spec (Z.of_nat (length files)) keep_last); [lia|].
    rewrite Hkeys. fold sorted. rewrite Hslice, remove_old_files_all; [done|].
    apply Forall_forall. intros f Hf%subseteq_drop. rewrite Hperm in Hf.
    by apply (proj1 (Forall_forall _ _) Hok). }
  assert (NoDup (d_name <$> sorted)) as Hsn.
  { rewrite Hperm. eapply sublist_NoDup; [exact Hnames|].
    apply fmap_sublist, sublist_filter. }
  assert (∀ f, f ∈ cleanup_candidates
                     (filter (λ f, d_name f ∉ d_name <$> drop n sorted) all_files)
               ↔ f ∈ take n sorted) as Hkept.
  { intros f. unfold cleanup_candidates at 1. rewrite !list_elem_of_filter. split.
    - intros (Hext & Hname & Hf).
      assert (f ∈ sorted) as Hs. { rewrite Hperm. by apply list_elem_of_filter. }
      rewrite <-(take_drop n sorted) in Hs.
      apply elem_of_app in Hs as [?|Hd]; [done|].
      destruct Hname. by apply list_elem_of_fmap_2.
    - intros Hf. assert (f ∈ sorted) as Hs by by apply (subseteq_take n).
      pose proof Hs as Hfiles. rewrite Hperm in Hfiles.
      apply list_elem_of_filter in Hfiles as [Hext Hall].
      split; [done|]. split; [|done].
      intros (g & Hname & Hg)%list_elem_of_fmap.
      assert (g = f) as ->.
      { eapply NoDup_fmap_inj_on; [exact Hsn|by apply (subseteq_drop n)|done|done]. }
      pose proof (NoDup_fmap_1 _ _ Hsn) as Hsd.
      rewrite <-(take_drop n sorted) in Hsd.
      apply NoDup_app in Hsd as (_ & Hdisj & _). by apply (Hdisj f). }
  assert (length (cleanup_candidates
                    (filter (λ f, d_name f ∉ d_name <$> drop n sorted) all_files))
          = n) as Hcount.
  { rewrite (NoDup_Permutation _ (take n sorted)).
    - rewrite length_take. lia.
    - apply NoDup_filter, NoDup_filter. by eapply NoDup_fmap_1.
    - eapply sublist_NoDup; [by eapply NoDup_fmap_1|]. apply sublist_take.
    - exact Hkept. }
  eexists. split; [exact Hrun|]. split; [|split].
  - intros Hp. rewrite Hcount. by apply Hpos.
  - intros Hp. rewrite Hcount, Hneg by done. lia.
  - intros f g Hf%Hkept Hg Hgone.
    assert (g ∈ drop n sorted) as Hgd.
    { destruct (decide (d_name g ∈ d_name <$> drop n sorted)) as [Hin|Hout].
      - apply list_elem_of_fmap in Hin as (g' & Hname & Hg').
        assert (g' ∈ all_files) as Hall.
        { apply subseteq_drop in Hg'. rewrite Hperm in Hg'.
          by apply list_elem_of_filter in Hg' as [_ ?]. }
        by rewrite (NoDup_fmap_inj_on d_name all_files g g' Hnames).
      - destruct Hgone. by apply list_elem_of_filter. }
    rewrite <-(take_drop n sorted) in Hsorted.
    by apply (StronglySorted_app_1_elem_of _ _ _ f g Hsorted).
Qed.

Lemma cleanup_old_files_keeps_most_recent_witness :
  ∃ remaining,
    (cleanup_old_files 2 true
       (Some [DirFile "run1.log" (Some 10) true; DirFile "README" None false;
              DirFile "run2.csv" (Some 30) true; DirFile "run3.txt" (Some 20) true])).1
    = Some remaining
    ∧ length (cleanup_candidates remaining) = 2%nat.
Proof.
  destruct (cleanup_old_files_keeps_most_recent 2 true
       [DirFile "run1.log" (Some 10) true; DirFile "README" None false;
        DirFile "run2.csv" (Some 30) true; DirFile "run3.txt" (Some 20) true])
    as (remaining & Hrun & Hcount & _).
  - apply (bool_decide_unpack _). vm_compute. exact I.
  - vm_compute cleanup_candidates. repeat constructor; by eexists.
  - vm_compute. reflexivity.
  - exists remaining. split; [exact Hrun|]. apply Hcount. lia.
Defined.

(** Without a logger [cleanup_old_files] reports nothing but the line it
    prints at the start: a directory that cannot be listed, a creation
    time that cannot be read and a removal that fails all pass in
    silence. *)
Theorem cleanup_old_files_silent keep_last directory :
  (cleanup_old_files keep_last false directory).2 = [(PRINT, CleaningUp)].
Proof.
  unfold cleanup_old_files. destruct directory as [all_files|]; [|done].
  destruct (_ <=? keep_last); [done|].
  destruct (ctime_keys _) as [keyed|e]; [|done].
  by destruct (remove_old_files _) as [removed [e|]].
Qed.

(** ** Sequence files *)

Lemma clean_sequence_free s : free_of "D" (clean_sequence s).
Proof.
  unfold free_of. induction s as [|c s IH]; simpl; [done|].
  rewrite IH, andb_true_r.
  destruct (Ascii.eqb_spec c "D") as [->|Hc]; [done|].
  by destruct (Ascii.eqb_spec c "D").
Qed.

Lemma clean_sequence_length s :
  String.length (clean_sequence s) = String.length s.
Proof. induction s as [|c s IH]; simpl; [done|]. by rewrite IH. Qed.

Lemma clean_sequence_get s i :
  String.get i (clean_sequence s)
  = (λ c, if Ascii.eqb c "D" then "-"%char else c) <$> String.get i s.
Proof.
  revert i. induction s as [|c s IH]; intros i; simpl; [done|].
  destruct i; [done|]. apply IH.
Qed.

(** [write_seq_as_fasta] returns [True] exactly when the file could be
    written. The file is named after the part of the record identifier
    before its first dot; the record in it has the identifier, name and
    description of the record given, and a sequence of the same length
    without any [D]: at every position a [D] has become [-] and every
    other character is the one given. When the write fails, no file is
    written and the error goes to the logger, or is printed without
    one. *)
Theorem write_seq_as_fasta_cleaned can_write logger record :
  let '(ok, file, msgs) := write_seq_as_fasta can_write logger record in
  (ok = true ↔ can_write (fasta_file_name (rec_id record)) = true)
  ∧ (ok = false →
     file = None
     ∧ msgs = [(if logger then ERROR else PRINT, ErrorWritingFasta (rec_id record))])
  ∧ (ok = true →
     ∃ written,
       file = Some (root_of (rec_id record) ++ ".fasta", written)
       ∧ rec_id written = rec_id record
       ∧ rec_name written = rec_name record
       ∧ rec_description written = rec_description record
       ∧ free_of "D" (rec_seq written)
       ∧ String.length (rec_seq written) = String.length (rec_seq record)
       ∧ ∀ i c, String.get i (rec_seq record) = Some c →
           String.get i (rec_seq written)
           = Some (if Ascii.eqb c "D" then "-"%char else c)).
Proof.
  unfold write_seq_as_fasta. cbv zeta.
  destruct (can_write (fasta_file_name (rec_id record))) eqn:Hw.
  - split; [done|]. split; [done|]. intros _. eexists. split; [reflexivity|].
    cbn [rec_id rec_name rec_description rec_seq]. repeat split.
    + apply clean_sequence_free.
    + apply clean_sequence_length.
    + intros i c Hc. by rewrite clean_sequence_get, Hc.
  - split; [done|]. split; [|done]. intros _. by destruct logger.
Qed.

Lemma split_head_free sep s :
  ∃ p ps, Py.split sep s = p :: ps ∧ free_of sep p.
Proof.
  unfold free_of. induction s as [|c s (p & ps & Hs & Hp)]; simpl.
  - by exists EmptyString, [].
  - destruct (Ascii.eqb c sep) eqn:Hc; [by exists EmptyString, (Py.split sep s)|].
    rewrite Hs. exists (String c p), ps. split; [done|]. simpl. by rewrite Hc, Hp.
Qed.

Lemma root_of_free a : free_of "." (root_of a).
Proof.
  unfold root_of. by destruct (split_head_free "." a) as (p & ps & -> & Hp).
Qed.

Lemma rfind_app c r s i :
  rfind c s = Some i → rfind c (r ++ s) = Some (String.length r + i)%nat.
Proof.
  intros Hs. induction r as [|a r IH]; [by rewrite append_nil|].
  rewrite append_cons. cbn [rfind]. by rewrite IH.
Qed.

Lemma substring_app_l r s : substring 0 (String.length r) (r ++ s) = r.
Proof.
  induction r as [|a r IH]; [rewrite append_nil; by destruct s|].
  rewrite append_cons. simpl. by rewrite IH.
Qed.

Lemma substring_all s : substring 0 (String.length s) s = s.
Proof. induction s as [|a s IH]; simpl; [done|]. by rewrite IH. Qed.

Lemma substring_app_r r s :
  substring (String.length r) (String.length s) (r ++ s) = s.
Proof.
  induction r as [|a r IH]; [rewrite append_nil; apply substring_all|].
  by rewrite append_cons.
Qed.

Lemma string_length_app r s :
  String.length (r ++ s) = (String.length r + String.length s)%nat.
Proof.
  induction r as [|a r IH]; [by rewrite append_nil|].
  rewrite append_cons. simpl. by rewrite IH.
Qed.

Lemma endswith_app r suffix : Py.endswith (r ++ suffix) suffix = true.
Proof.
  unfold Py.endswith. rewrite string_length_app.
  replace (String.length r + String.length suffix - String.length suffix)%nat
    with (String.length r) by lia.
  rewrite substring_app_r, String.eqb_refl, andb_true_r.
  apply Nat.leb_le. lia.
Qed.

Lemma lower_app r s : Py.lower (r ++ s) = Py.lower r ++ Py.lower s.
Proof.
  induction r as [|a r IH]; [by rewrite !append_nil|].
  rewrite append_cons. simpl. by rewrite IH, append_cons.
Qed.

(** The name under which [write_seq_as_fasta] writes is one that
    [clean_profiles_from_data] takes for a sequence file. *)
Lemma is_fasta_fasta_file_name a : is_fasta (fasta_file_name a) = true.
Proof.
  unfold is_fasta, fasta_file_name. rewrite lower_app.
  change (Py.lower ".fasta") with ".fasta". apply endswith_app.
Qed.

(** Its root name is the identifier it was written for, unless that is
    empty: the root name of [.fasta] is [.fasta]. *)
Lemma splitext_root_fasta_file_name a :
  root_of a ≠ EmptyString → splitext_root (fasta_file_name a) = root_of a.
Proof.
  intros Hne. unfold splitext_root, fasta_file_name.
  rewrite (rfind_app "." (root_of a) ".fasta" 0) by done.
  rewrite Nat.add_0_r, substring_app_l.
  pose proof (root_of_free a) as Hfree. destruct (root_of a) as [|c r]; [done|].
  unfold free_of in Hfree. cbn [Py.all_chars] in *.
  apply andb_prop in Hfree as [Hc _].
  rewrite Ascii.eqb_sym. by destruct (Ascii.eqb c ".").
Qed.

(** The file that [write_seq_as_fasta] wrote for an accession with a
    non-empty identifier outlives a run of [clean_profiles_from_data]
    exactly when the list holds an accession with the same identifier,
    of whatever version, or the file cannot be removed. *)
Theorem clean_profiles_from_data_keeps_written_fasta ids_list logger st files a r :
  SEQS_DIR st = Some (SeqsListing files) →
  SeqFile (fasta_file_name a) r ∈ files →
  root_of a ≠ EmptyString →
  ∃ files',
    SEQS_DIR (pruned ids_list logger st) = Some (SeqsListing files')
    ∧ (SeqFile (fasta_file_name a) r ∈ files'
       ↔ r = false ∨ ∃ b, b ∈ ids_list ∧ root_of b = root_of a).
Proof.
  intros Hdir Hf Hne. rewrite pruned_fields. cbv zeta. cbn [SEQS_DIR].
  rewrite Hdir, clean_seqs_dir_listing.
  eexists. split; [done|]. rewrite list_elem_of_filter. unfold stays. simpl.
  rewrite is_fasta_fasta_file_name, (splitext_root_fasta_file_name _ Hne).
  set (valid := set_map root_of (list_to_set ids_list : gset string) : gset string).
  assert (root_of a ∈ valid ↔ ∃ b, b ∈ ids_list ∧ root_of b = root_of a) as Hvalid.
  { unfold valid. rewrite elem_of_map. setoid_rewrite elem_of_list_to_set.
    naive_solver. }
  rewrite <-Hvalid. split.
  - intros [Hst _]. destruct r; [|by left]. right.
    destruct (decide (root_of a ∈ valid)); [done|]. by destruct Hst.
  - intros Hkeep. split; [|done]. intros (_ & Hroot & Hr).
    destruct Hkeep as [->|?]; done.
Qed.

Lemma clean_profiles_from_data_keeps_written_fasta_witness :
  ∃ files',
    SEQS_DIR (pruned ["X1.3"] false
                (Stores None None None (Some (SeqsListing [SeqFile "X1.fasta" true]))))
    = Some (SeqsListing files')
    ∧ SeqFile "X1.fasta" true ∈ files'.
Proof.
  destruct (clean_profiles_from_data_keeps_written_fasta ["X1.3"] false
              (Stores None None None (Some (SeqsListing [SeqFile "X1.fasta" true])))
              [SeqFile "X1.fasta" true] "X1.2" true)
    as (files' & Hdir & Hiff).
  - reflexivity.
  - left.
  - discriminate.
  - exists files'. split; [exact Hdir|]. apply Hiff. right. exists "X1.3".
    split; [left|reflexivity].
Defined.

(** ** Updating the version index *)

(** The accessions of the frame that [duplicate_removal] returns: no
    accession twice, each an accession of the input, one for every
    identifier of the input, with a version that no input accession of
    the identifier exceeds. *)
Lemma duplicate_removal_accessions rows kept :
  (duplicate_removal (DataFrame_of rows)).1 = Ok kept →
  let accs := (accession ∘ data) <$> kept in
  NoDup accs
  ∧ (∀ k, k ∈ accs → k ∈ accession <$> rows)
  ∧ (∀ a id v, a ∈ accession <$> rows → split_accession a = Ok (id, v) →
       ∃ k vk, k ∈ accs ∧ split_accession k = Ok (id, vk) ∧ v ≤ vk)
  ∧ (∀ k k' id v v', k ∈ accs → k' ∈ accs →
       split_accession k = Ok (id, v) → split_accession k' = Ok (id, v') →
       k = k').
Proof.
  intros (entries2 & Hadd & ->)%duplicate_removal_Ok_inv accs.
  destruct (add_id_version_versioned _ _ Hadd) as [Hne HF].
  assert (NoDup (v_label <$> entries2)) as Hnd.
  { rewrite (versioned_labels _ _ HF).
    eapply sublist_NoDup; [apply DataFrame_of_NoDup|].
    apply fmap_sublist, keep_last_sublist. }
  assert (accs = (accession ∘ v_data) <$> resolved entries2) as ->.
  { unfold accs. by rewrite <-list_fmap_compose. }
  assert (∀ w, w ∈ entries2 →
            split_accession (accession (v_data w)) = Ok (v_id w, v_version w)
            ∧ accession (v_data w) ∈ accession <$> rows) as Hsplit.
  { intros w Hw.
    destruct (versioned_elem_of_r _ _ _ HF Hw) as (e & He & _ & -> & Hs).
    split; [done|].
    apply keep_last_elem_of, elem_of_DataFrame_of in He.
    apply list_elem_of_fmap. exists (data e). split; [done|].
    apply list_elem_of_lookup. eauto. }
  pose proof (resolved_ids_NoDup _ Hnd) as Hids.
  assert (∀ w w' id v v', w ∈ resolved entries2 → w' ∈ resolved entries2 →
            split_accession (accession (v_data w)) = Ok (id, v) →
            split_accession (accession (v_data w')) = Ok (id, v') → w = w')
    as Hone.
  { intros w w' id v v' Hw Hw' Hs Hs'.
    pose proof Hw as [Hw2 _]%elem_of_resolved.
    pose proof Hw' as [Hw2' _]%elem_of_resolved.
    destruct (Hsplit _ Hw2) as [H1 _]. destruct (Hsplit _ Hw2') as [H2 _].
    eapply NoDup_fmap_inj_on; [exact Hids|done|done|congruence]. }
  split; [|split; [|split]].
  - apply NoDup_fmap_2_strong; [|by apply resolved_NoDup].
    intros w w' Hw Hw' Hacc. simpl in Hacc.
    pose proof Hw as [Hw2 _]%elem_of_resolved. destruct (Hsplit _ Hw2) as [H1 _].
    eapply Hone; [done|done|exact H1|]. by rewrite <-Hacc.
  - intros k (w & -> & [Hw _]%elem_of_resolved)%list_elem_of_fmap.
    by apply Hsplit.
  - intros a id v (r & -> & [i Hi]%list_elem_of_lookup)%list_elem_of_fmap Hs.
    destruct (keep_last_accession (DataFrame_of rows) (Entry i r))
      as (e' & He' & Hacc); [by apply elem_of_DataFrame_of|].
    destruct (versioned_elem_of_l _ _ _ HF He') as (w & Hw & _ & _ & Hsw).
    simpl in Hacc. rewrite Hacc, Hs in Hsw. injection Hsw as Hid Hv.
    destruct (resolved_covers entries2 w Hw) as (w' & Hw' & Hid' & Hle).
    exists (accession (v_data w')), (v_version w'). split; [|split].
    + apply list_elem_of_fmap. by exists w'.
    + apply elem_of_resolved in Hw' as [Hw' _].
      destruct (Hsplit _ Hw') as [-> _]. congruence.
    + lia.
  - intros k k' id v v' (w & -> & Hw)%list_elem_of_fmap
      (w' & -> & Hw')%list_elem_of_fmap Hs Hs'.
    simpl in *. by rewrite (Hone w w' id v v').
Qed.

Lemma update_local_versions_run to_csv_line entries IDS_FILE :
  IDS_FILE ≠ Some Unreadable →
  ids_of_update entries IDS_FILE ≠ [] →
  update_local_versions to_csv_line entries IDS_FILE
  = let '(ids_df, dropped) :=
      duplicate_removal
        (DataFrame_of ((λ a, Row a []) <$> ids_of_update entries IDS_FILE)) in
    (df ← ids_df; Ok (Some (Lines ((to_csv_line ∘ accession ∘ data) <$> df))),
     dropped).
Proof.
  intros Hread Hne. unfold update_local_versions, ids_of_update in *.
  destruct IDS_FILE as [[|lines]|]; [done| |]; simpl in *.
  - destruct (stripped_lines lines) as [|a l]; [by destruct entries|done].
  - by destruct entries.
Qed.

Lemma accession_Row (ids : list string) :
  accession <$> ((λ a, Row a []) <$> ids) = ids.
Proof. rewrite <-list_fmap_compose. apply list_fmap_id. Qed.

(** What [update_local_versions] writes, when all accessions parse: the
    accessions of the frame that [duplicate_removal] returns, one per
    line. *)
Lemma update_local_versions_kept to_csv_line entries IDS_FILE :
  IDS_FILE ≠ Some Unreadable →
  ids_of_update entries IDS_FILE ≠ [] →
  Forall (λ a, ∃ iv, split_accession a = Ok iv) (ids_of_update entries IDS_FILE) →
  ∃ kept,
    (duplicate_removal
       (DataFrame_of ((λ a, Row a []) <$> ids_of_update entries IDS_FILE))).1
    = Ok kept
    ∧ (update_local_versions to_csv_line entries IDS_FILE).1
      = Ok (Some (Lines (to_csv_line <$> ((accession ∘ data) <$> kept)))).
Proof.
  intros Hread Hne Hall. rewrite update_local_versions_run by done.
  destruct (duplicate_removal_kept
              (DataFrame_of ((λ a, Row a []) <$> ids_of_update entries IDS_FILE)))
    as (_ & kept & _ & Hrun & _).
  { destruct (ids_of_update entries IDS_FILE); done. }
  { apply Forall_forall. intros e He%elem_of_DataFrame_of.
    assert (accession (data e) ∈ accession <$>
              ((λ a, Row a []) <$> ids_of_update entries IDS_FILE)) as Hin.
    { apply list_elem_of_fmap. exists (data e). split; [done|].
      apply list_elem_of_lookup. eauto. }
    rewrite accession_Row in Hin. by apply (proj1 (Forall_forall _ _) Hall). }
  exists kept. split; [done|].
  destruct (duplicate_removal _) as [r dropped]. simpl in *. subst r. simpl.
  by rewrite <-!list_fmap_compose.
Qed.

(** When the version index can be read (or is not there yet) and all its
    lines and all new entries parse, [update_local_versions] leaves one
    line per identifier in it: no accession twice, no two accessions of
    one identifier, each an old line or a new entry, and for every
    identifier among them the accession with a version that no other
    exceeds. *)
Theorem update_local_versions_latest to_csv_line entries IDS_FILE :
  let ids := ids_of_update entries IDS_FILE in
  IDS_FILE ≠ Some Unreadable →
  ids ≠ [] →
  Forall (λ a, ∃ iv, split_accession a = Ok iv) ids →
  ∃ kept,
    (update_local_versions to_csv_line entries IDS_FILE).1
    = Ok (Some (Lines (to_csv_line <$> kept)))
    ∧ NoDup kept
    ∧ (∀ k, k ∈ kept → k ∈ ids)
    ∧ (∀ a id v, a ∈ ids → split_accession a = Ok (id, v) →
         ∃ k vk, k ∈ kept ∧ split_accession k = Ok (id, vk) ∧ v ≤ vk)
    ∧ (∀ k k' id v v', k ∈ kept → k' ∈ kept →
         split_accession k = Ok (id, v) → split_accession k' = Ok (id, v') →
         k = k').
Proof.
  intros ids Hread Hne Hall.
  destruct (update_local_versions_kept to_csv_line entries IDS_FILE Hread Hne Hall)
    as (kept & Hrun & Hwritten).
  exists ((accession ∘ data) <$> kept). split; [done|].
  pose proof (duplicate_removal_accessions _ _ Hrun) as Hacc.
  cbv zeta in Hacc. by rewrite accession_Row in Hacc.
Qed.

Lemma update_local_versions_latest_witness :
  ∃ kept,
    (update_local_versions id ["X1.3"; "Z5.1"]
       (Some (Lines ["X1.2"; " "; " Y2.7 "; "X1.10"]))).1
    = Ok (Some (Lines kept))
    ∧ ∃ k vk, k ∈ kept ∧ split_accession k = Ok ("X1", vk) ∧ 10 ≤ vk.
Proof.
  destruct (update_local_versions_latest id ["X1.3"; "Z5.1"]
              (Some (Lines ["X1.2"; " "; " Y2.7 "; "X1.10"])))
    as (kept & Hrun & _ & _ & Hmax & _).
  - discriminate.
  - discriminate.
  - repeat constructor; eexists; reflexivity.
  - exists kept. rewrite list_fmap_id in Hrun. split; [exact Hrun|].
    apply (Hmax "X1.10" "X1" 10); [|reflexivity].
    apply list_elem_of_In. vm_compute. tauto.
Defined.

Lemma parse_version_line_stripped k :
  Py.strip k = k → parse_version_line k = split_accession k.
Proof.
  intros Hk. unfold parse_version_line, split_accession. rewrite Hk.
  destruct (Py.unpack2 _) as [[i v]|[]]; simpl; try done.
  by destruct (Py.int v) as [z|[]].
Qed.

Lemma parsed_keys_NoDup (parse : string → result (string * Z)) lines kvs :
  Forall2 (λ line kv, parse line = Ok kv) lines kvs →
  NoDup lines →
  (∀ k k' id v v', k ∈ lines → k' ∈ lines →
     parse k = Ok (id, v) → parse k' = Ok (id, v') → k = k') →
  NoDup kvs.*1.
Proof.
  induction 1 as [|line [id v] lines kvs Hp HF IH]; intros Hnd Hone; [constructor|].
  apply NoDup_cons in Hnd as [Hnotin Hnd]. rewrite fmap_cons. constructor.
  - intros ([id' v'] & Hid & [i Hi]%list_elem_of_lookup)%list_elem_of_fmap.
    simpl in Hid. subst id'.
    destruct (Forall2_lookup_r _ _ _ _ _ HF Hi) as (line' & Hline' & Hp').
    apply list_elem_of_lookup_2 in Hline'. apply Hnotin.
    rewrite (Hone line line' id v v'); [done|left|by right|done|done].
  - apply IH; [done|]. intros k k' ??? Hk Hk'. apply Hone; by right.
Qed.

(** Where no key is assigned twice, the dictionary holds the pairs
    assigned. *)
Lemma assign_all_NoDup kvs k v :
  NoDup kvs.*1 → assign_all ∅ kvs !! k = Some v ↔ (k, v) ∈ kvs.
Proof.
  intros Hnd.
  assert (∀ v, (k, v) ∈ kvs → assign_all ∅ kvs !! k = Some v) as Hin.
  { intros v0 (kvs1 & kvs2 & ->)%list_elem_of_split.
    apply assign_all_lookup_last.
    rewrite fmap_app, fmap_cons in Hnd.
    apply NoDup_app in Hnd as (_ & _ & Hnd2).
    apply NoDup_cons in Hnd2 as [Hnotin _].
    apply Forall_forall. intros kv Hkv Heq. apply Hnotin. simpl. rewrite <-Heq.
    by apply list_elem_of_fmap_2. }
  split; [|apply Hin]. intros Hlook.
  assert (is_Some (assign_all ∅ kvs !! k)) as Hsome by by eexists.
  apply assign_all_is_Some in Hsome as [[? Hemp]|Hk];
    [by rewrite lookup_empty in Hemp|].
  apply list_elem_of_fmap in Hk as ([k' v'] & -> & Hkv). simpl in *.
  rewrite (Hin v' Hkv) in Hlook. by injection Hlook as <-.
Qed.

(** Round trip: what [load_local_versions] reads after
    [update_local_versions] has written. When the old lines and the new
    entries all parse, the new entries carry no white space at their
    ends, and [to_csv] writes the accessions as they are (none needs
    quoting), the dictionary has an entry for every identifier among the
    old lines and new entries, and its version is the greatest that the
    identifier has among them. *)
Theorem load_local_versions_after_update to_csv_line entries IDS_FILE :
  let ids := ids_of_update entries IDS_FILE in
  IDS_FILE ≠ Some Unreadable →
  ids ≠ [] →
  Forall (λ a, ∃ iv, split_accession a = Ok iv) ids →
  Forall (λ a, Py.strip a = a) entries →
  Forall (λ a, to_csv_line a = a) ids →
  ∃ f d,
    (update_local_versions to_csv_line entries IDS_FILE).1 = Ok (Some f)
    ∧ load_local_versions (Some f) = Ok d
    ∧ ∀ id v, d !! id = Some v ↔
        (∃ a, a ∈ ids ∧ split_accession a = Ok (id, v))
        ∧ (∀ a v', a ∈ ids → split_accession a = Ok (id, v') → v' ≤ v).
Proof.
  intros ids Hread Hne Hall Hstrip Hcsv.
  destruct (update_local_versions_kept to_csv_line entries IDS_FILE Hread Hne Hall)
    as (kept0 & Hrun & Hwritten).
  pose proof (duplicate_removal_accessions _ _ Hrun) as Hacc.
  cbv zeta in Hacc. rewrite accession_Row in Hacc. fold ids in Hacc.
  set (kept := (accession ∘ data) <$> kept0) in *.
  destruct Hacc as (Hnd & Hsub & Hmax & Hone).
  assert (Forall (λ a, Py.strip a = a) ids) as Hstripped.
  { unfold ids, ids_of_update. apply Forall_app. split; [|done].
    destruct IDS_FILE as [[|lines]|]; [constructor| |constructor].
    eapply Forall_impl; [apply stripped_lines_stripped|]. by intros ? [? _]. }
  assert (to_csv_line <$> kept = kept) as Hsame.
  { transitivity (id <$> kept); [|apply list_fmap_id].
    apply Forall_fmap_ext_1, Forall_forall. intros k Hk%Hsub.
    by apply (proj1 (Forall_forall _ _) Hcsv). }
  rewrite Hsame in Hwritten.
  assert (∀ k, k ∈ kept → parse_version_line k = split_accession k) as Hparse.
  { intros k Hk%Hsub. apply parse_version_line_stripped.
    by apply (proj1 (Forall_forall _ _) Hstripped). }
  destruct (parsed_lines kept parse_version_line) as [kvs HF].
  { apply Forall_forall. intros k Hk. rewrite (Hparse k Hk).
    apply (proj1 (Forall_forall _ _) Hall). by apply Hsub. }
  assert (NoDup kvs.*1) as Hkeys.
  { eapply parsed_keys_NoDup; [exact HF|exact Hnd|].
    intros k k' id v v' Hk Hk'. rewrite (Hparse k Hk), (Hparse k' Hk').
    by apply Hone. }
  assert (∀ id v, (id, v) ∈ kvs ↔ ∃ k, k ∈ kept ∧ split_accession k = Ok (id, v))
    as Hkvs.
  { intros id v. split.
    - intros [i Hi]%list_elem_of_lookup.
      destruct (Forall2_lookup_r _ _ _ _ _ HF Hi) as (k & Hk & Hp).
      apply list_elem_of_lookup_2 in Hk. exists k. split; [done|].
      by rewrite <-(Hparse k Hk).
    - intros (k & Hk & Hs). pose proof Hk as [i Hi]%list_elem_of_lookup.
      destruct (Forall2_lookup_l _ _ _ _ _ HF Hi) as (kv & Hkv & Hp).
      rewrite (Hparse k Hk), Hs in Hp. injection Hp as <-.
      by eapply list_elem_of_lookup_2. }
  exists (Lines kept), (assign_all ∅ kvs). split; [done|]. split.
  { rewrite load_local_versions_lines. by apply for_each_parsed. }
  intros id v. rewrite (assign_all_NoDup _ _ _ Hkeys), Hkvs. split.
  - intros (k & Hk & Hs). split; [exists k; split; [by apply Hsub|done]|].
    intros a v' Ha Hs'.
    destruct (Hmax a id v' Ha Hs') as (k' & vk & Hk' & Hsk & Hle).
    rewrite (Hone k' k id vk v Hk' Hk Hsk Hs), Hs in Hsk.
    injection Hsk as <-. done.
  - intros [(a & Ha & Hs) Hbest].
    destruct (Hmax a id v Ha Hs) as (k & vk & Hk & Hsk & Hle).
    exists k. split; [done|].
    pose proof (Hbest k vk (Hsub k Hk) Hsk). by assert (vk = v) as -> by lia.
Qed.

Lemma load_local_versions_after_update_witness :
  ∃ f d,
    (update_local_versions id ["X1.3"; "Z5.1"]
       (Some (Lines ["X1.2"; " "; " Y2.7 "; "X1.10"]))).1 = Ok (Some f)
    ∧ load_local_versions (Some f) = Ok d
    ∧ d !! "X1" = Some 10.
Proof.
  destruct (load_local_versions_after_update id ["X1.3"; "Z5.1"]
              (Some (Lines ["X1.2"; " "; " Y2.7 "; "X1.10"])))
    as (f & d & Hrun & Hload & Hd).
  - discriminate.
  - discriminate.
  - repeat constructor; eexists; reflexivity.
  - repeat constructor.
  - repeat constructor.
  - exists f, d. split; [exact Hrun|]. split; [exact Hload|]. apply Hd. split.
    + exists "X1.10". split; [|reflexivity].
      apply list_elem_of_In. vm_compute. tauto.
    + intros a v' Ha Hs. apply list_elem_of_In in Ha. vm_compute in Ha.
      destruct Ha as [<-|[<-|[<-|[<-|[<-|[]]]]]]; vm_compute in Hs;
        try discriminate; injection Hs as <-; lia.
Defined.

(** Where [update_local_versions] writes nothing. A version index that
    cannot be read makes it raise the error of the read; with no old
    line and no new entry it returns at once and does not even create
    the file; and one old line or new entry that does not parse makes it
    raise [ValueError] before the index is written, whatever else was to
    be added. *)
Theorem update_local_versions_failures to_csv_line entries IDS_FILE :
  (∀ f e, IDS_FILE = Some f → read_lines f = Raise e →
     update_local_versions to_csv_line entries IDS_FILE = (Raise e, []))
  ∧ (IDS_FILE ≠ Some Unreadable → ids_of_update entries IDS_FILE = [] →
     update_local_versions to_csv_line entries IDS_FILE = (Ok IDS_FILE, []))
  ∧ (IDS_FILE ≠ Some Unreadable →
     (∃ a e, a ∈ ids_of_update entries IDS_FILE ∧ split_accession a = Raise e) →
     (update_local_versions to_csv_line entries IDS_FILE).1 = Raise ValueError).
Proof.
  split; [intros f e -> Hf; unfold update_local_versions; by rewrite Hf|]. split.
  - intros Hread [Hold ->]%app_eq_nil. unfold update_local_versions.
    destruct IDS_FILE as [[|lines]|]; [done| |done]. simpl. by rewrite Hold.
  - intros Hread (a & e & Ha & Hs).
    rewrite update_local_versions_run; [|done|by intros Hnil; rewrite Hnil in Ha;
                                               apply elem_of_nil in Ha].
    pose proof (duplicate_removal_malformed
                  ((λ a, Row a []) <$> ids_of_update entries IDS_FILE)
                  (Row a []) e (list_elem_of_fmap_2 _ _ _ Ha) Hs) as Hrun.
    destruct (duplicate_removal _) as [r dropped]. simpl in *. by subst r.
Qed.

Lemma update_local_versions_failures_witness :
  (update_local_versions id ["X1.3"] (Some (Lines ["X1.2"; "X1"]))).1
  = Raise ValueError
  ∧ update_local_versions id [] (Some (Lines [" "])) = (Ok (Some (Lines [" "])), []).
Proof.
  destruct (update_local_versions_failures id ["X1.3"] (Some (Lines ["X1.2"; "X1"])))
    as (_ & _ & Hbad).
  destruct (update_local_versions_failures id [] (Some (Lines [" "])))
    as (_ & Hnone & _).
  split.
  - apply Hbad; [discriminate|]. exists "X1", ValueError. split; [|reflexivity].
    apply list_elem_of_In. vm_compute. tauto.
  - apply Hnone; [discriminate|reflexivity].
Defined.

(** ** Post-processing: the debug file and the failures *)

Lemma elem_of_count_pos (r : row) rows :
  r ∈ rows ↔ (0 < length (filter (λ r', r' = r) rows))%nat.
Proof.
  split.
  - intros Hr. assert (r ∈ filter (λ r', r' = r) rows) as Hin
      by by apply list_elem_of_filter.
    destruct (filter _ rows); [by apply elem_of_nil in Hin|simpl; lia].
  - destruct (filter (λ r', r' = r) rows) as [|x l] eqn:Hf; simpl; [lia|].
    intros _. assert (x ∈ filter (λ r', r' = r) rows) as Hx by (rewrite Hf; left).
    by apply list_elem_of_filter in Hx as [-> ?].
Qed.

(** The table that [post_process_metadata] writes holds rows of the
    table it read. The debug file of removed rows is not the list of the
    rows removed: it holds a row exactly when the row is not in the
    table written and occurs once in the table read. A removed row that
    the table read held twice, the same in every column, is in neither
    file. *)
Theorem post_process_metadata_removed_rows logger rows final removed :
  (post_process_metadata logger (Some (Csv rows))).1
  = Ok (Some (Csv final), removed) →
  (∀ r, r ∈ final → r ∈ rows)
  ∧ (∀ r, r ∈ removed ↔
          (r ∉ final) ∧ length (filter (λ r', r' = r) rows) = 1%nat).
Proof.
  unfold post_process_metadata. cbn [read_csv].
  destruct (add_id_version_cells (DataFrame_of rows)) as [meta_df0|e] eqn:Hadd;
    [|done].
  apply add_id_version_cells_Ok in Hadd.
  cbn [fst]. intros [= <- <-].
  destruct (add_id_version_versioned _ _ Hadd) as [_ HF].
  set (meta_df := merge_sort sort_le meta_df0).
  set (kept := ((λ k, keep_of_group logger (group meta_df k)) <$> group_keys meta_df)
                 ≫= fst).
  assert (v_data <$> meta_df ≡ₚ rows) as Hperm.
  { unfold meta_df. rewrite merge_sort_Permutation, (versioned_data _ _ HF).
    by rewrite DataFrame_of_data. }
  assert (∀ r, r ∈ v_data <$> kept → r ∈ rows) as Hsub.
  { intros r (x & -> & Hx)%list_elem_of_fmap. rewrite <-Hperm.
    apply list_elem_of_fmap_2.
    apply list_elem_of_bind in Hx as (p & Hx & Hp).
    apply list_elem_of_fmap in Hp as (k & -> & _).
    by apply keep_of_group_subseteq, elem_of_group in Hx as [_ ?]. }
  split; [exact Hsub|]. intros r. unfold drop_all_duplicates.
  rewrite list_elem_of_filter, filter_app, length_app, elem_of_app.
  assert (length (filter (λ r', r' = r) (v_data <$> meta_df))
          = length (filter (λ r', r' = r) rows)) as -> by by rewrite Hperm.
  rewrite Hperm.
  pose proof (elem_of_count_pos r rows) as Hrows.
  pose proof (elem_of_count_pos r (v_data <$> kept)) as Hkept.
  specialize (Hsub r). split.
  - intros [Hone _].
    assert (r ∉ v_data <$> kept) as Hout.
    { intros Hin. pose proof (proj1 Hkept Hin).
      pose proof (proj1 Hrows (Hsub Hin)). lia. }
    split; [done|].
    destruct (length (filter (λ r', r' = r) (v_data <$> kept))) eqn:Hc; [lia|].
    destruct Hout. apply Hkept. lia.
  - intros [Hout Hone]. split; [|left; apply Hrows; lia].
    destruct (length (filter (λ r', r' = r) (v_data <$> kept))) eqn:Hc; [lia|].
    destruct Hout. apply Hkept. lia.
Qed.

Lemma post_process_metadata_removed_rows_witness :
  (Row "X1.1" [Some "a"] ∉ [Row "Y2.1" [Some "c"]])
  ∧ (post_process_metadata false
       (Some (Csv [Row "X1.1" [Some "a"]; Row "Y2.1" [Some "c"];
                   Row "X1.1" [Some "a"]; Row "X1.2" [Some "b"];
                   Row "Y2.2" [Some "d"]]))).1
    = Ok (Some (Csv [Row "X1.2" [Some "b"]; Row "Y2.2" [Some "d"]]),
          [Row "Y2.1" [Some "c"]]).
Proof.
  assert ((post_process_metadata false
       (Some (Csv [Row "X1.1" [Some "a"]; Row "Y2.1" [Some "c"];
                   Row "X1.1" [Some "a"]; Row "X1.2" [Some "b"];
                   Row "Y2.2" [Some "d"]]))).1
    = Ok (Some (Csv [Row "X1.2" [Some "b"]; Row "Y2.2" [Some "d"]]),
          [Row "Y2.1" [Some "c"]])) as Hrun by (vm_compute; reflexivity).
  split; [|exact Hrun].
  destruct (post_process_metadata_removed_rows false _ _ _ Hrun) as [_ Hremoved].
  intros Hin. apply Hremoved in Hin as [_ Hone]. vm_compute in Hone. discriminate.
Defined.

Lemma map_result_first_Raise {A B} (f : A → result B) before x after e :
  Forall (λ y, ∃ z, f y = Ok z) before → f x = Raise e →
  map_result f (before ++ x :: after) = Raise e.
Proof.
  intros Hbefore Hx. induction Hbefore as [|y before [z Hy] _ IH]; cbn [map_result app].
  - by rewrite Hx.
  - rewrite Hy. simpl. by rewrite IH.
Qed.

(** The first row of a table whose accession cell cannot be split
    decides how [post_process_metadata] ends. *)
Lemma post_process_metadata_first_Raise logger before r after e :
  Forall (λ r', ∃ iv, split_accession (accession r') = Ok iv) before →
  split_accession_cell (accession r) = Raise e →
  (post_process_metadata logger (Some (Csv (before ++ r :: after)))).1 = Raise e.
Proof.
  intros Hbefore Hr. unfold post_process_metadata. cbn [read_csv].
  assert (add_id_version_cells (DataFrame_of (before ++ r :: after)) = Raise e)
    as ->; [|done].
  unfold add_id_version_cells, DataFrame_of. rewrite imap_app. cbn [imap].
  set (f := λ e0 : entry,
              '(i, v) ← split_accession_cell (accession (data e0));
              Ok (VEntry (label e0) (data e0) i v)).
  assert (map_result f
            (imap (λ i r0, Entry i r0) before
             ++ Entry (length before + 0) r
                :: imap ((λ i r0, Entry i r0) ∘ Nat.add (length before) ∘ S) after)
          = Raise e) as Hrun.
  { apply map_result_first_Raise.
    - apply Forall_forall. intros e0 (i & r0 & -> & Hi)%elem_of_lookup_imap.
      destruct (proj1 (Forall_forall _ _) Hbefore r0) as [[id v] Hs];
        [by eapply list_elem_of_lookup_2|].
      unfold f, split_accession_cell. simpl.
      destruct (accession r0); [vm_compute in Hs; discriminate|].
      rewrite Hs. simpl. eauto.
    - unfold f. simpl. by rewrite Hr. }
  destruct (imap _ before ++ _)%list eqn:Heq; [|done].
  by apply app_eq_nil in Heq as [_ ?].
Qed.

(** Where [post_process_metadata] writes nothing. Without the metadata
    file it returns, and says so only to a logger. A file that the parser
    of pandas rejects and a table without [accession] column make it
    raise, and so does a table with an accession cell that does not
    split into identifier and version, whatever the other rows: at the
    first such row, a missing cell raises [AttributeError] and a text
    that does not parse raises [ValueError]. *)
Theorem post_process_metadata_failures logger :
  post_process_metadata logger None
  = (Ok (None, []), if logger then [(ERROR, MetadataNotFound)] else [])
  ∧ (∃ e, (post_process_metadata logger (Some BadCsv)).1 = Raise e)
  ∧ (∀ rows, (post_process_metadata logger (Some (CsvNoAccession rows))).1
             = Raise KeyError)
  ∧ (∀ rows r e, r ∈ rows → split_accession (accession r) = Raise e →
       ∃ e', (post_process_metadata logger (Some (Csv rows))).1 = Raise e')
  ∧ (∀ before r after,
       Forall (λ r', ∃ iv, split_accession (accession r') = Ok iv) before →
       accession r = EmptyString →
       (post_process_metadata logger (Some (Csv (before ++ r :: after)))).1
       = Raise AttributeError)
  ∧ (∀ before r after e,
       Forall (λ r', ∃ iv, split_accession (accession r') = Ok iv) before →
       accession r ≠ EmptyString →
       split_accession (accession r) = Raise e →
       (post_process_metadata logger (Some (Csv (before ++ r :: after)))).1
       = Raise ValueError).
Proof.
  split; [by destruct logger|]. split; [by eexists|]. split; [done|].
  split; [|split].
  - intros rows r e [i Hi]%list_elem_of_lookup Hr.
    unfold post_process_metadata. cbn [read_csv].
    destruct (add_id_version_cells (DataFrame_of rows)) as [meta_df0|e0] eqn:Hadd;
      cbn [fst]; [|by eexists].
    apply add_id_version_cells_Ok in Hadd.
    destruct (add_id_version_versioned _ _ Hadd) as [_ HF].
    destruct (versioned_elem_of_l _ _ (Entry i r) HF) as (w & _ & _ & _ & Hsw);
      [by apply elem_of_DataFrame_of|].
    simpl in Hsw. congruence.
  - intros before r after Hbefore Hr.
    apply post_process_metadata_first_Raise; [done|]. by rewrite Hr.
  - intros before r after e Hbefore Hne Hr.
    apply post_process_metadata_first_Raise; [done|].
    unfold split_accession_cell. destruct (accession r); [done|].
    rewrite Hr. f_equal. by eapply split_accession_Raise.
Qed.

Lemma post_process_metadata_failures_witness :
  (post_process_metadata true
     (Some (Csv [Row "X1.1" []; Row "X1" []; Row "X1.2" []]))).1
  = Raise ValueError
  ∧ (post_process_metadata true
       (Some (Csv [Row "X1.1" []; Row EmptyString [Some "short"]; Row "X1" []]))).1
    = Raise AttributeError.
Proof.
  destruct (post_process_metadata_failures true) as (_ & _ & _ & _ & Hnan & Hbad).
  split.
  - apply (Hbad [Row "X1.1" []] (Row "X1" []) [Row "X1.2" []] ValueError).
    + repeat constructor. eexists. reflexivity.
    + discriminate.
    + reflexivity.
  - apply (Hnan [Row "X1.1" []] (Row EmptyString [Some "short"]) [Row "X1" []]).
    + repeat constructor. eexists. reflexivity.
    + reflexivity.
Defined.

(** ** The order of the frames written *)

#[global] Instance str_le_total : Total str_le.
Proof. intros a b. apply String.leb_total. Qed.

#[global] Instance str_le_trans : Transitive str_le.
Proof.
  intros a b c. unfold str_le, String.leb.
  destruct (String.compare a b) eqn:Hab; [| |done]; intros _.
  - apply String.compare_eq_iff in Hab. by rewrite Hab.
  - destruct (String.compare b c) eqn:Hbc; [| |done]; intros _.
    + apply String.compare_eq_iff in Hbc. by rewrite <-Hbc, Hab.
    + by rewrite (compare_Lt_trans _ _ _ Hab Hbc).
Qed.

Lemma group_keys_sorted entries : StronglySorted str_le (group_keys entries).
Proof. apply (StronglySorted_merge_sort str_le). Qed.

(** [loc] over the labels that [idxmax] gave: one row per key, in the
    order of the keys. *)
Lemma loc_groupby_ids entries2 keys :
  NoDup (v_label <$> entries2) →
  (∀ k, k ∈ keys → k ∈ v_id <$> entries2) →
  v_id <$> loc v_label entries2 (omap (λ k, idxmax (group entries2 k)) keys) = keys.
Proof.
  intros Hnd. induction keys as [|k keys IH]; intros Hin; [done|].
  destruct (idxmax_spec (group entries2 k))
    as (e & [Hid He]%elem_of_group & Hidx & _).
  { assert (k ∈ v_id <$> entries2) as (w & -> & Hw)%list_elem_of_fmap
      by (apply Hin; left).
    intros Hnil. assert (w ∈ group entries2 (v_id w)) as Hg by by apply elem_of_group.
    rewrite Hnil in Hg. by apply elem_of_nil in Hg. }
  cbn [omap list_omap]. rewrite Hidx. unfold loc in *. rewrite bind_cons, fmap_app.
  rewrite (filter_by_key_singleton v_label entries2 e Hnd He). simpl.
  f_equal; [done|]. apply IH. intros k' Hk'. apply Hin. by right.
Qed.

Lemma omap_id_of_versioned (l : list ventry) :
  (∀ w, w ∈ l →
        split_accession (accession (v_data w)) = Ok (v_id w, v_version w)) →
  omap id_of (v_data <$> l) = v_id <$> l.
Proof.
  induction l as [|w l IH]; intros H; [done|].
  rewrite !fmap_cons. cbn [omap list_omap]. unfold id_of at 1.
  rewrite (H w) by left. f_equal. apply IH. intros w' Hw'. apply H. by right.
Qed.

(** The order of the frame that [duplicate_removal] returns depends on
    what it dropped. When no record is dropped as an older version, the
    frame is a part of the frame given, in its order and with its
    labels; as soon as one is, the records come in the order of their
    identifiers, wherever they stood. Either way no identifier comes
    twice. *)
Theorem duplicate_removal_order (rows : list row) kept dropped :
  duplicate_removal (DataFrame_of rows) = (Ok kept, dropped) →
  ((∀ d, d ∈ dropped → d_reason d ≠ "update") →
   kept `sublist_of` DataFrame_of rows)
  ∧ ((∃ d, d ∈ dropped ∧ d_reason d = "update") →
     StronglySorted str_le (omap id_of (data <$> kept)))
  ∧ NoDup (omap id_of (data <$> kept))
  ∧ length (omap id_of (data <$> kept)) = length kept.
Proof.
  intros Hrun.
  assert ((duplicate_removal (DataFrame_of rows)).1 = Ok kept) as Hk
    by by rewrite Hrun.
  apply duplicate_removal_Ok_inv in Hk as (entries2 & Hadd & ->).
  rewrite (duplicate_removal_Ok _ _ Hadd) in Hrun.
  apply (f_equal snd) in Hrun. simpl in Hrun. subst dropped.
  destruct (add_id_version_versioned _ _ Hadd) as [Hne HF].
  assert (NoDup (v_label <$> entries2)) as Hnd.
  { rewrite (versioned_labels _ _ HF).
    eapply sublist_NoDup; [apply DataFrame_of_NoDup|].
    apply fmap_sublist, keep_last_sublist. }
  assert (omap id_of (data <$> (drop_id_version <$> resolved entries2))
          = v_id <$> resolved entries2) as Hids.
  { rewrite <-list_fmap_compose. change (data ∘ drop_id_version) with v_data.
    apply omap_id_of_versioned. intros w [Hw _]%elem_of_resolved.
    by destruct (versioned_elem_of_r _ _ _ HF Hw) as (e & _ & _ & -> & Hs). }
  rewrite Hids.
  set (older := filter (λ e, v_label e ∉ groupby_idxmax entries2) entries2).
  split; [|split; [|split]].
  - intros Hno. assert (older = []) as Hnil.
    { destruct older as [|o os] eqn:Ho; [done|]. exfalso.
      apply (Hno (Dropped (v_data o) (Some (v_id o, v_version o)) "update"));
        [|done].
      apply elem_of_app. right. left. }
    unfold resolved. fold older. rewrite Hnil, (versioned_drop _ _ HF).
    apply keep_last_sublist.
  - intros (d & Hd & Hreason).
    assert (older ≠ []) as Hsome.
    { apply elem_of_app in Hd as [Hd|Hd].
      - apply list_elem_of_fmap in Hd as (e & -> & _). discriminate.
      - intros Hnil. rewrite Hnil in Hd. by apply elem_of_nil in Hd. }
    unfold resolved. fold older. destruct older; [done|].
    unfold groupby_idxmax. rewrite loc_groupby_ids; [|done|].
    + apply group_keys_sorted.
    + intros k. apply elem_of_group_keys.
  - by apply resolved_ids_NoDup.
  - by rewrite !length_fmap.
Qed.

Lemma duplicate_removal_order_witness :
  ∃ kept dropped,
    duplicate_removal
      (DataFrame_of [Row "Z9.1" []; Row "X1.1" []; Row "B2.5" []; Row "X1.2" []])
    = (Ok kept, dropped)
    ∧ omap id_of (data <$> kept) = ["B2"; "X1"; "Z9"]
    ∧ StronglySorted str_le (omap id_of (data <$> kept)).
Proof.
  eexists _, _. split; [reflexivity|]. split; [reflexivity|].
  eapply (duplicate_removal_order
            [Row "Z9.1" []; Row "X1.1" []; Row "B2.5" []; Row "X1.2" []]);
    [reflexivity|].
  eexists. split; [left|reflexivity].
Defined.

Lemma keep_of_group_ids logger meta_df keys :
  StronglySorted sort_le meta_df → NoDup (v_label <$> meta_df) →
  (∀ k, k ∈ keys → k ∈ v_id <$> meta_df) →
  v_id <$> (((λ k, keep_of_group logger (group meta_df k)) <$> keys) ≫= fst)
  = keys.
Proof.
  intros Hsorted Hnd. induction keys as [|k keys IH]; intros Hin; [done|].
  destruct (keep_of_group_spec logger (group meta_df k) k)
    as (e & Hkeep & [Hid _]%elem_of_group & _).
  { assert (k ∈ v_id <$> meta_df) as (w & -> & Hw)%list_elem_of_fmap
      by (apply Hin; left).
    intros Hnil. assert (w ∈ group meta_df (v_id w)) as Hg by by apply elem_of_group.
    rewrite Hnil in Hg. by apply elem_of_nil in Hg. }
  { by intros x [? _]%elem_of_group. }
  { by apply StronglySorted_filter. }
  { eapply sublist_NoDup; [exact Hnd|]. apply fmap_sublist, sublist_filter. }
  rewrite fmap_cons, bind_cons, fmap_app. cbn [fst]. rewrite Hkeep. simpl.
  f_equal; [done|]. apply IH. intros k' Hk'. apply Hin. by right.
Qed.

(** The table that [post_process_metadata] writes is in the order of the
    identifiers, whatever the order of the table read, and no identifier
    comes twice in it. *)
Theorem post_process_metadata_sorted logger rows final removed :
  (post_process_metadata logger (Some (Csv rows))).1
  = Ok (Some (Csv final), removed) →
  StronglySorted str_le (omap id_of final)
  ∧ NoDup (omap id_of final)
  ∧ length (omap id_of final) = length final.
Proof.
  unfold post_process_metadata. cbn [read_csv].
  destruct (add_id_version_cells (DataFrame_of rows)) as [meta_df0|e] eqn:Hadd;
    [|done].
  apply add_id_version_cells_Ok in Hadd.
  cbn [fst]. intros [= <- _].
  destruct (add_id_version_versioned _ _ Hadd) as [_ HF].
  set (meta_df := merge_sort sort_le meta_df0).
  assert (meta_df ≡ₚ meta_df0) as Hperm by apply merge_sort_Permutation.
  assert (StronglySorted sort_le meta_df) as Hsorted
    by apply (StronglySorted_merge_sort sort_le).
  assert (NoDup (v_label <$> meta_df)) as Hnd.
  { rewrite Hperm, (versioned_labels _ _ HF). apply DataFrame_of_NoDup. }
  set (kept := ((λ k, keep_of_group logger (group meta_df k)) <$> group_keys meta_df)
                 ≫= fst).
  assert (omap id_of (v_data <$> kept) = group_keys meta_df) as ->.
  { rewrite omap_id_of_versioned.
    - apply keep_of_group_ids; [done|done|]. intros k. apply elem_of_group_keys.
    - intros w (p & Hw & Hp)%list_elem_of_bind.
      apply list_elem_of_fmap in Hp as (k & -> & _).
      apply keep_of_group_subseteq, elem_of_group in Hw as [_ Hw].
      rewrite Hperm in Hw.
      by destruct (versioned_elem_of_r _ _ _ HF Hw) as (e & _ & _ & -> & Hs). }
  split; [apply group_keys_sorted|]. split; [apply group_keys_NoDup|].
  rewrite length_fmap.
  rewrite <-(keep_of_group_ids logger meta_df (group_keys meta_df)) at 1;
    [by rewrite length_fmap|done|done|].
  intros k. apply elem_of_group_keys.
Qed.

Lemma post_process_metadata_sorted_witness :
  StronglySorted str_le
    (omap id_of [Row "B2.5" []; Row "X1.2" []; Row "Z9.1" []]).
Proof.
  apply (post_process_metadata_sorted false
           [Row "Z9.1" []; Row "X1.1" []; Row "B2.5" []; Row "X1.2" []]
           [Row "B2.5" []; Row "X1.2" []; Row "Z9.1" []]
           [Row "X1.1" []]).
  vm_compute. reflexivity.
Defined.
